(** * Backup manager of mongodb-manager: a shallow embedding of
      [lib/backup-manager.js] and the properties of its operations.

    The JavaScript class [BackupManager] talks to the file system, to the
    MongoDB driver, to [node-cron] and to the configuration store.  Each of
    these collaborators is a field of the record [Host]; an answer may depend
    on everything that happened before, so a host function receives the
    trace of the effects performed so far.  The methods themselves are
    functions in a small state-and-exception monad over that trace. *)

From Stdlib Require Import ZArith Ascii String List Lia.
From stdpp Require Import base gmap strings list pretty.
Import ListNotations.

Local Open Scope string_scope.
Local Open Scope list_scope.
Local Open Scope Z_scope.

Set Warnings "-register-all".

(** ** JavaScript values that the code handles *)

(** Documents, index keys and statistics are JSON trees; the code never looks
    inside them, it counts them and hands them to [JSON.stringify]. *)
Inductive Json : Type :=
| JNull
| JBool (b : bool)
| JNum (n : Z)
| JStr (s : string)
| JArr (items : list Json)
| JObj (members : list (string * Json)).

(** An index definition as returned by [collection.listIndexes()]; the code
    reads [name], [key], [unique] and [sparse]. *)
Record Index : Type := {
  ix_name : string;
  ix_key : Json;
  ix_unique : option bool;
  ix_sparse : option bool;
}.

(** [collectionData] of [createBackup], the payload of one export file. *)
Record CollectionData : Type := {
  cd_collection : string;
  cd_database : string;
  cd_cluster : string;
  cd_documents : list Json;
  cd_indexes : list Index;
  cd_stats : Json;
}.

(** The two shapes of object pushed onto [backupInfo.collections]:
    [{name, documentCount, size, indexes}] and [{name, error}]. *)
Inductive CollectionRecord : Type :=
| Success (name : string) (documentCount size indexes : Z)
| Failure (name : string) (error : string).

Definition rec_name (r : CollectionRecord) : string :=
  match r with
  | Success n _ _ _ => n
  | Failure n _ => n
  end.

(** Property read [collectionInfo.error]: [undefined] on a success record. *)
Definition rec_error (r : CollectionRecord) : option string :=
  match r with
  | Success _ _ _ _ => None
  | Failure _ e => Some e
  end.

(** JavaScript truthiness of a value that is [undefined] or a string: the
    empty string is falsy. *)
Definition truthy_string (v : option string) : bool :=
  match v with
  | None => false
  | Some s => negb (String.eqb s "")
  end.

(** The object [backupInfo] of [createBackup].  The properties [compressed]
    and [archivePath] do not exist until they are assigned. *)
Record BackupInfo : Type := {
  bi_cluster : string;
  bi_database : string;
  bi_timestamp : Z;
  bi_collections : list CollectionRecord;
  bi_totalDocuments : Z;
  bi_totalSize : Z;
  bi_compressed : option bool;
  bi_archivePath : option string;
}.

(** [options] of [createBackup] and [scheduleBackup]. *)
Record BackupOptions : Type := { compress : bool }.

(** [options] of [restoreBackup]. *)
Record RestoreOptions : Type := { dropExisting : bool }.

(** What [fs.writeFile] is given: [JSON.stringify(value, null, 2)] of an
    export payload or of the manifest. *)
Inductive FileContent : Type :=
| ExportJson (d : CollectionData)
| ManifestJson (m : BackupInfo).

(** A parsed [backup-info.json] as [restoreBackup] and [listBackups] read it.
    A property that is missing from the file is [None]; [mf_timestamp] is
    the time value of [new Date(timestamp)], and [None] when that date is
    invalid because the property is missing or is no date; an element of
    [collections] that is [null] in the file is [None], and any other
    element is the record whose [name] and [error] the restore reads. *)
Record ManifestFile : Type := {
  mf_cluster : option string;
  mf_database : option string;
  mf_timestamp : option Z;
  mf_collections : option (list (option CollectionRecord));
  mf_totalDocuments : option Z;
  mf_totalSize : option Z;
}.

(** A parsed export file as [restoreBackup] reads it. *)
Record ExportFile : Type := {
  ef_documents : option (list Json);
  ef_indexes : option (list Index);
}.

(** [fs.stat] result: [isDirectory()], [size], [mtime]. *)
Record Stats : Type := {
  st_isDirectory : bool;
  st_size : Z;
  st_mtime : Z;
}.

(** An element of the array [listBackups] returns; a directory entry has the
    manifest's properties, an archive has none of them.  [bd_created] is the
    time value of [new Date(created)], and [None] when that date is
    invalid. *)
Record BackupDescriptor : Type := {
  bd_name : string;
  bd_path : string;
  bd_created : option Z;
  bd_cluster : option string;
  bd_database : option string;
  bd_collections : option Z;
  bd_totalDocuments : option Z;
  bd_size : Z;
  bd_compressed : bool;
}.

(** ** Results and effects *)

Inductive Result (A : Type) : Type :=
| Ok (a : A)
| Throw (message : string).
Arguments Ok {A} a.
Arguments Throw {A} message.

(** [None] for a call that returned, the message for one that threw. *)
Definition failure_of {A} (r : Result A) : option string :=
  match r with Ok _ => None | Throw message => Some message end.

(** The three ways in which a call [x.f()] whose promise gets a handler of
    its own ([x.f().catch(...)]) can go: the promise it returns is fulfilled
    or rejected, or the call throws before it has returned a promise, and
    then no handler is attached. *)
Inductive Settled (A : Type) : Type :=
| Fulfilled (a : A)
| Rejected (message : string)
| Thrown (message : string).
Arguments Fulfilled {A} a.
Arguments Rejected {A} message.
Arguments Thrown {A} message.

Inductive LogLevel : Type := Info | Warn | Error.

(** One entry per call that leaves the process, with the error it threw if
    it threw one.  [ECollStats] is a call of [collection.stats()] that
    returned a promise, with the rejection if the promise was rejected;
    [ECollStatsThrew] is one that threw before it returned a promise. *)
Inductive Event : Type :=
| EMkdir (path : string) (failed : option string)
| EWriteFile (path : string) (content : FileContent) (failed : option string)
| ERmdir (path : string) (failed : option string)
| EUnlink (path : string) (failed : option string)
| EReaddir (path : string) (failed : option string)
| EStat (path : string) (failed : option string)
| EReadFile (path : string) (failed : option string)
| ECompress (source target : string) (failed : option string)
| EExtract (archive dir : string) (failed : option string)
| EGetDatabase (cluster database : string) (failed : option string)
| EListCollections (cluster database : string) (failed : option string)
| EFind (collection : string) (failed : option string)
| EListIndexes (collection : string) (failed : option string)
| ECollStats (collection : string) (failed : option string)
| ECollStatsThrew (collection : string) (message : string)
| EDrop (collection : string) (failed : option string)
| EInsertMany (collection : string) (documents : list Json) (failed : option string)
| ECreateIndex (collection : string) (index : Index) (failed : option string)
| ELog (level : LogLevel) (message : string).

Definition Trace : Type := list Event.

(** The collaborators.  [read_manifest] and [read_export] stand for
    [JSON.parse(await fs.readFile(path, 'utf8'))], and [read_manifest]
    answers [None] for a file that holds [null]; [coll_find] and
    [coll_listIndexes] stand for the whole of
    [db.collection(name).find({}).toArray()] and of
    [collection.listIndexes().toArray()], and [fs_writeFile] for the
    serialization and the write; [coll_stats] is the call
    [collection.stats()], which can throw or return a promise that is
    fulfilled or rejected; [clock_now] is [new Date()]
    in milliseconds, [date_minus_days t n] is [t] after
    [t.setDate(t.getDate() - n)], and [config_backupRetention] is
    [config.getSetting('backupRetention')].  [engine_sort] is the order in
    which [Array.prototype.sort] leaves an array of descriptors that the
    comparator of [listBackups] cannot order, which ECMAScript leaves to the
    implementation; whatever that order, the array keeps its elements. *)
Record Host : Type := {
  cwd : string;
  path_join : string -> string -> string;
  stringify_length : CollectionData -> Z;
  clock_iso : Trace -> string;
  clock_now : Trace -> Z;
  date_minus_days : Z -> Z -> Z;
  config_backupRetention : Trace -> option Z;
  fs_mkdir : Trace -> string -> Result unit;
  fs_writeFile : Trace -> string -> FileContent -> Result unit;
  fs_rmdir : Trace -> string -> Result unit;
  fs_unlink : Trace -> string -> Result unit;
  fs_readdir : Trace -> string -> Result (list string);
  fs_stat : Trace -> string -> Result Stats;
  read_manifest : Trace -> string -> Result (option ManifestFile);
  read_export : Trace -> string -> Result ExportFile;
  archive_zip : Trace -> string -> string -> Result Z;
  extract_zip : Trace -> string -> string -> Result unit;
  getDatabase : Trace -> string -> string -> Result unit;
  listCollections : Trace -> string -> string -> Result (list string);
  coll_find : Trace -> string -> string -> string -> Result (list Json);
  coll_listIndexes : Trace -> string -> string -> string -> Result (list Index);
  coll_stats : Trace -> string -> string -> string -> Settled Json;
  coll_drop : Trace -> string -> string -> string -> Result unit;
  coll_insertMany :
    Trace -> string -> string -> string -> list Json -> Result unit;
  coll_createIndex :
    Trace -> string -> string -> string -> Index -> Result unit;
  engine_sort : list BackupDescriptor -> list BackupDescriptor;
  engine_sort_permutes :
    forall backups, Permutation (engine_sort backups) backups;
}.

(** A computation reads and changes a state [W] and returns or throws; what
    it did before throwing stays done. *)
Definition Eff (W A : Type) : Type := W -> Result A * W.

Definition ret {W A} (a : A) : Eff W A := fun w => (Ok a, w).

Definition throw {W A} (message : string) : Eff W A :=
  fun w => (Throw message, w).

Definition bind {W A B} (m : Eff W A) (k : A -> Eff W B) : Eff W B :=
  fun w =>
    match m w with
    | (Ok a, w') => k a w'
    | (Throw e, w') => (Throw e, w')
    end.

(** [try { m } catch (error) { handler(error.message) }] *)
Definition try_catch {W A} (m : Eff W A) (handler : string -> Eff W A)
  : Eff W A :=
  fun w =>
    match m w with
    | (Ok a, w') => (Ok a, w')
    | (Throw e, w') => handler e w'
    end.

(** The file-system and database operations run over the trace. *)
Definition M (A : Type) : Type := Eff Trace A.

(** An awaited call to a collaborator. *)
Definition perform {A} (answer : Trace -> Result A)
    (ev : option string -> Event) : M A :=
  fun tr => let r := answer tr in (r, tr ++ [ev (failure_of r)]).

(** A read of the clock leaves no entry. *)
Definition observe {A} (read : Trace -> A) : M A := fun tr => (Ok (read tr), tr).

(** A call of the logger; the logger returns. *)
Definition log (level : LogLevel) (message : string) : M unit :=
  fun tr => (Ok tt, tr ++ [ELog level message]).

Declare Scope eff_scope.
Delimit Scope eff_scope with eff.
Notation "x <- m ;; k" := (bind m (fun x => k))
  (at level 100, m at next level, right associativity) : eff_scope.
Notation "m ;;; k" := (bind m (fun _ => k))
  (at level 100, right associativity) : eff_scope.
Local Open Scope eff_scope.

(** [for (const x of items) body], with the loop's variables in [s]. *)
Fixpoint for_of {W A S} (items : list A) (body : S -> A -> Eff W S) (s : S)
  : Eff W S :=
  match items with
  | [] => ret s
  | x :: rest => s' <- body s x ;; for_of rest body s'
  end.

(** ** Strings *)

Fixpoint string_map (f : Ascii.ascii -> Ascii.ascii) (s : string) : string :=
  match s with
  | EmptyString => EmptyString
  | String c r => String (f c) (string_map f r)
  end.

(** [s.replace(/[:.]/g, '-')] *)
Definition replace_colons_dots (s : string) : string :=
  string_map
    (fun c => if (Ascii.eqb c ":" || Ascii.eqb c ".")%bool then "-"%char else c)
    s.

(** [s.endsWith(suffix)] *)
Definition endsWith (s suffix : string) : bool :=
  let n := String.length s in
  let m := String.length suffix in
  (m <=? n)%nat && String.eqb (String.substring (n - m)%nat m s) suffix.

(** [s.replace(pattern, replacement)] with a string pattern: only the first
    occurrence is replaced. *)
Definition replace_first (pattern replacement s : string) : string :=
  match String.index 0 pattern s with
  | None => s
  | Some i =>
      String.substring 0 i s +:+ replacement +:+
      String.substring (i + String.length pattern)%nat
        (String.length s - (i + String.length pattern))%nat s
  end.

(** ** Snapshot creation, restore, inventory and retention *)

Section BackupManager.

Variable H : Host.

(** [this.backupDir = path.join(process.cwd(), 'backups')] *)
Definition backupDir : string := path_join H (cwd H) "backups".

Definition push_success (info : BackupInfo) (collectionData : CollectionData)
  : BackupInfo :=
  let documents := Z.of_nat (length (cd_documents collectionData)) in
  {| bi_cluster := bi_cluster info;
     bi_database := bi_database info;
     bi_timestamp := bi_timestamp info;
     bi_collections :=
       bi_collections info ++
       [Success (cd_collection collectionData) documents
          (stringify_length H collectionData)
          (Z.of_nat (length (cd_indexes collectionData)))];
     bi_totalDocuments := bi_totalDocuments info + documents;
     bi_totalSize := bi_totalSize info + stringify_length H collectionData;
     bi_compressed := bi_compressed info;
     bi_archivePath := bi_archivePath info |}.

Definition push_failure (info : BackupInfo) (collectionName message : string)
  : BackupInfo :=
  {| bi_cluster := bi_cluster info;
     bi_database := bi_database info;
     bi_timestamp := bi_timestamp info;
     bi_collections := bi_collections info ++ [Failure collectionName message];
     bi_totalDocuments := bi_totalDocuments info;
     bi_totalSize := bi_totalSize info;
     bi_compressed := bi_compressed info;
     bi_archivePath := bi_archivePath info |}.

Definition set_compressed (info : BackupInfo) (archivePath : string)
  : BackupInfo :=
  {| bi_cluster := bi_cluster info;
     bi_database := bi_database info;
     bi_timestamp := bi_timestamp info;
     bi_collections := bi_collections info;
     bi_totalDocuments := bi_totalDocuments info;
     bi_totalSize := bi_totalSize info;
     bi_compressed := Some true;
     bi_archivePath := Some archivePath |}.

(** [await collection.stats().catch(() => ({}))] (source line 61).  The
    handler is attached to the promise that [stats()] returns, so a rejected
    promise gives [{}]; an exception thrown by the call [stats()] itself, or
    by [.catch] on what it returned, is not caught here. *)
Definition stats_or_empty (clusterName dbName collectionName : string)
  : M Json :=
  fun tr =>
    match coll_stats H tr clusterName dbName collectionName with
    | Fulfilled stats => (Ok stats, tr ++ [ECollStats collectionName None])
    | Rejected message =>
        (Ok (JObj []), tr ++ [ECollStats collectionName (Some message)])
    | Thrown message =>
        (Throw message, tr ++ [ECollStatsThrew collectionName message])
    end.

(** The body of the [for] loop of [createBackup] (source lines 47-84).  Every
    call that can throw comes before the first assignment to [backupInfo], so
    the handler starts from the [backupInfo] the iteration began with. *)
Definition backup_collection (clusterName dbName backupPath : string)
    (backupInfo : BackupInfo) (collectionName : string) : M BackupInfo :=
  try_catch
    (documents <-
       perform (fun tr => coll_find H tr clusterName dbName collectionName)
         (EFind collectionName) ;;
     let collectionFile := path_join H backupPath (collectionName +:+ ".json") in
     indexes <-
       perform (fun tr => coll_listIndexes H tr clusterName dbName collectionName)
         (EListIndexes collectionName) ;;
     stats <- stats_or_empty clusterName dbName collectionName ;;
     let collectionData :=
       {| cd_collection := collectionName;
          cd_database := dbName;
          cd_cluster := clusterName;
          cd_documents := documents;
          cd_indexes := indexes;
          cd_stats := stats |} in
     perform (fun tr => fs_writeFile H tr collectionFile (ExportJson collectionData))
       (EWriteFile collectionFile (ExportJson collectionData)) ;;;
     log Info
       ("Backed up collection: " +:+ collectionName +:+ " (" +:+
        pretty (Z.of_nat (length documents)) +:+ " documents)") ;;;
     ret (push_success backupInfo collectionData))
    (fun message =>
       log Error ("Failed to backup collection " +:+ collectionName +:+ ":") ;;;
       ret (push_failure backupInfo collectionName message)).

(** [compressBackup]: resolves when the output stream closes, rejects on an
    archive error. *)
Definition compressBackup (sourcePath targetPath : string) : M unit :=
  bytes <-
    perform (fun tr => archive_zip H tr sourcePath targetPath)
      (ECompress sourcePath targetPath) ;;
  log Info ("Backup compressed: " +:+ pretty bytes +:+ " bytes").

(** The object [createBackup] returns. *)
Record BackupResult : Type := {
  br_name : string;
  br_path : string;
  br_info : BackupInfo;
  br_size : Z;
  br_collections : Z;
}.

Definition backupName_of (clusterName dbName iso : string) : string :=
  clusterName +:+ "-" +:+ dbName +:+ "-" +:+ replace_colons_dots iso.

Definition createBackup (clusterName dbName : string) (options : BackupOptions)
  : M BackupResult :=
  try_catch
    (iso <- observe (clock_iso H) ;;
     let backupName := backupName_of clusterName dbName iso in
     let backupPath := path_join H backupDir backupName in
     perform (fun tr => fs_mkdir H tr backupPath) (EMkdir backupPath) ;;;
     perform (fun tr => getDatabase H tr clusterName dbName)
       (EGetDatabase clusterName dbName) ;;;
     collections <-
       perform (fun tr => listCollections H tr clusterName dbName)
         (EListCollections clusterName dbName) ;;
     now <- observe (clock_now H) ;;
     let backupInfo :=
       {| bi_cluster := clusterName;
          bi_database := dbName;
          bi_timestamp := now;
          bi_collections := [];
          bi_totalDocuments := 0;
          bi_totalSize := 0;
          bi_compressed := None;
          bi_archivePath := None |} in
     log Info ("Starting backup for " +:+ clusterName +:+ "/" +:+ dbName) ;;;
     backupInfo <-
       for_of collections (backup_collection clusterName dbName backupPath)
         backupInfo ;;
     let metadataFile := path_join H backupPath "backup-info.json" in
     perform (fun tr => fs_writeFile H tr metadataFile (ManifestJson backupInfo))
       (EWriteFile metadataFile (ManifestJson backupInfo)) ;;;
     backupInfo <-
       (if compress options then
          let archivePath := backupPath +:+ ".zip" in
          compressBackup backupPath archivePath ;;;
          perform (fun tr => fs_rmdir H tr backupPath) (ERmdir backupPath) ;;;
          ret (set_compressed backupInfo archivePath)
        else ret backupInfo) ;;
     log Info ("Backup completed: " +:+ backupName) ;;;
     ret {| br_name := backupName;
            br_path :=
              if compress options then backupPath +:+ ".zip" else backupPath;
            br_info := backupInfo;
            br_size := bi_totalSize backupInfo;
            br_collections := Z.of_nat (length (bi_collections backupInfo)) |})
    (fun message =>
       log Error ("Backup failed for " +:+ clusterName +:+ "/" +:+ dbName +:+ ":") ;;;
       throw message).

(** *** restoreBackup *)

(** Reading a property of [undefined] or of [null], or iterating it, throws
    a TypeError; [message] is the message V8 gives it. *)
Definition js_defined {A} (v : option A) (message : string) : M A :=
  match v with
  | Some a => ret a
  | None => throw message
  end.

(** An element of [restoredCollections]. *)
Record RestoredCollection : Type := {
  rc_name : string;
  rc_documents : Z;
  rc_indexes : Z;
}.

Record RestoreResult : Type := {
  rr_restoredCollections : list RestoredCollection;
  rr_sourceBackup : ManifestFile;
  rr_target : string * string;
}.

(** The inner loop over [collectionData.indexes] (source lines 179-192). *)
Definition restore_index (targetCluster targetDatabase name : string)
    (_ : unit) (index : Index) : M unit :=
  if String.eqb (ix_name index) "_id_" then ret tt
  else
    try_catch
      (perform
         (fun tr => coll_createIndex H tr targetCluster targetDatabase name index)
         (ECreateIndex name index))
      (fun _ => log Warn ("Failed to restore index " +:+ ix_name index +:+ ":")).

(** The body of the loop over [backupInfo.collections] (source lines
    155-204).  The read of [collectionInfo.error] of line 156 comes before
    the [try] of line 160: on an element that is [null] it throws out of the
    loop. *)
Definition restore_collection (dir targetCluster targetDatabase : string)
    (options : RestoreOptions) (restoredCollections : list RestoredCollection)
    (collectionInfo : option CollectionRecord) : M (list RestoredCollection) :=
  match collectionInfo with
  | None => throw "Cannot read properties of null (reading 'error')"
  | Some collectionInfo =>
  if truthy_string (rec_error collectionInfo) then ret restoredCollections
  else
    let name := rec_name collectionInfo in
    let collectionFile := path_join H dir (name +:+ ".json") in
    try_catch
      (collectionData <-
         perform (fun tr => read_export H tr collectionFile)
           (EReadFile collectionFile) ;;
       (if dropExisting options then
          try_catch
            (perform (fun tr => coll_drop H tr targetCluster targetDatabase name)
               (EDrop name))
            (fun _ => ret tt)
        else ret tt) ;;;
       documents <- js_defined (ef_documents collectionData)
           "Cannot read properties of undefined (reading 'length')" ;;
       (if (0 <? length documents)%nat then
          perform
            (fun tr =>
               coll_insertMany H tr targetCluster targetDatabase name documents)
            (EInsertMany name documents)
        else ret tt) ;;;
       indexes <- js_defined (ef_indexes collectionData)
           "collectionData.indexes is not iterable" ;;
       for_of indexes (restore_index targetCluster targetDatabase name) tt ;;;
       log Info ("Restored collection: " +:+ name) ;;;
       ret (restoredCollections ++
            [{| rc_name := name;
                rc_documents := Z.of_nat (length documents);
                rc_indexes := Z.of_nat (length indexes) - 1 |}]))
      (fun _ =>
         log Error ("Failed to restore collection " +:+ name +:+ ":") ;;;
         ret restoredCollections)
  end.

(** [path.join(this.backupDir, 'temp-restore')] *)
Definition tempDir : string := path_join H backupDir "temp-restore".

Definition restoreBackup (backupPath targetCluster targetDatabase : string)
    (options : RestoreOptions) : M RestoreResult :=
  try_catch
    (dir <-
       (if endsWith backupPath ".zip" then
          perform (fun tr => extract_zip H tr backupPath tempDir)
            (EExtract backupPath tempDir) ;;;
          ret tempDir
        else ret backupPath) ;;
     let metadataFile := path_join H dir "backup-info.json" in
     backupInfo <-
       perform (fun tr => read_manifest H tr metadataFile)
         (EReadFile metadataFile) ;;
     perform (fun tr => getDatabase H tr targetCluster targetDatabase)
       (EGetDatabase targetCluster targetDatabase) ;;;
     log Info ("Starting restore to " +:+ targetCluster +:+ "/" +:+ targetDatabase) ;;;
     backupInfo <-
       js_defined backupInfo
         "Cannot read properties of null (reading 'collections')" ;;
     collections <-
       js_defined (mf_collections backupInfo)
         "backupInfo.collections is not iterable" ;;
     restoredCollections <-
       for_of collections
         (restore_collection dir targetCluster targetDatabase options) [] ;;
     (if endsWith backupPath ".zip" then
        perform (fun tr => fs_rmdir H tr dir) (ERmdir dir)
      else ret tt) ;;;
     log Info "Restore completed" ;;;
     ret {| rr_restoredCollections := restoredCollections;
            rr_sourceBackup := backupInfo;
            rr_target := (targetCluster, targetDatabase) |})
    (fun message => log Error "Restore failed:" ;;; throw message).

(** *** listBackups *)

(** The body of the loop over the entries of the backup root (source lines
    229-262). *)
Definition list_entry (backups : list BackupDescriptor) (file : string)
  : M (list BackupDescriptor) :=
  let filePath := path_join H backupDir file in
  stats <- perform (fun tr => fs_stat H tr filePath) (EStat filePath) ;;
  if st_isDirectory stats then
    try_catch
      (let metadataFile := path_join H filePath "backup-info.json" in
       backupInfo <-
         perform (fun tr => read_manifest H tr metadataFile)
           (EReadFile metadataFile) ;;
       backupInfo <-
         js_defined backupInfo
           "Cannot read properties of null (reading 'timestamp')" ;;
       collections <-
         js_defined (mf_collections backupInfo)
           "Cannot read properties of undefined (reading 'length')" ;;
       ret (backups ++
            [{| bd_name := file;
                bd_path := filePath;
                bd_created := mf_timestamp backupInfo;
                bd_cluster := mf_cluster backupInfo;
                bd_database := mf_database backupInfo;
                bd_collections := Some (Z.of_nat (length collections));
                bd_totalDocuments := mf_totalDocuments backupInfo;
                bd_size := st_size stats;
                bd_compressed := false |}]))
      (fun _ => ret backups)
  else if endsWith file ".zip" then
    ret (backups ++
         [{| bd_name := replace_first ".zip" "" file;
             bd_path := filePath;
             bd_created := Some (st_mtime stats);
             bd_cluster := None;
             bd_database := None;
             bd_collections := None;
             bd_totalDocuments := None;
             bd_size := st_size stats;
             bd_compressed := true |}])
  else ret backups.

(** [new Date(b.created) - new Date(a.created)] is positive: [a] goes after
    [b].  With an invalid date the difference is [NaN], which is not
    positive. *)
Definition created_before (a b : BackupDescriptor) : bool :=
  match bd_created a, bd_created b with
  | Some ta, Some tb => ta <? tb
  | _, _ => false
  end.

Definition dated (b : BackupDescriptor) : bool :=
  match bd_created b with Some _ => true | None => false end.

(** [backups.sort((a, b) => new Date(b.created) - new Date(a.created))].
    [Array.prototype.sort] is stable, so when every descriptor has a valid
    date an element goes in front of the first one that is not newer than
    it.  When a date is invalid the comparator returns [NaN] for some pairs
    and orders others, so it is no consistent comparator and the order is
    the engine's. *)
Fixpoint insert_newest_first (x : BackupDescriptor) (sorted : list BackupDescriptor)
  : list BackupDescriptor :=
  match sorted with
  | [] => [x]
  | y :: rest =>
      if created_before x y then y :: insert_newest_first x rest
      else x :: y :: rest
  end.

Definition sort_newest_first (backups : list BackupDescriptor)
  : list BackupDescriptor :=
  fold_right insert_newest_first [] backups.

Definition sort_backups (backups : list BackupDescriptor)
  : list BackupDescriptor :=
  if forallb dated backups then sort_newest_first backups
  else engine_sort H backups.

Definition listBackups : M (list BackupDescriptor) :=
  try_catch
    (files <- perform (fun tr => fs_readdir H tr backupDir) (EReaddir backupDir) ;;
     backups <- for_of files list_entry [] ;;
     ret (sort_backups backups))
    (fun message => log Error "Failed to list backups:" ;;; throw message).

(** *** cleanupOldBackups *)

(** [a || b] on values that are [undefined]/[null] or a number: zero is
    falsy. *)
Definition number_or (a : option Z) (b : option Z) : option Z :=
  match a with
  | Some n => if n =? 0 then b else Some n
  | None => b
  end.

(** [retentionDays || this.config.getSetting('backupRetention') || 30] *)
Definition retention_of (retentionDays configured : option Z) : Z :=
  match number_or (number_or retentionDays configured) (Some 30) with
  | Some n => n
  | None => 0
  end.

(** The body of the loop over [oldBackups] (source lines 385-396). *)
Definition cleanup_backup (_ : unit) (backup : BackupDescriptor) : M unit :=
  try_catch
    ((if bd_compressed backup then
        perform (fun tr => fs_unlink H tr (bd_path backup))
          (EUnlink (bd_path backup))
      else
        perform (fun tr => fs_rmdir H tr (bd_path backup))
          (ERmdir (bd_path backup))) ;;;
     log Info ("Cleaned up old backup: " +:+ bd_name backup))
    (fun _ => log Error ("Failed to cleanup backup " +:+ bd_name backup +:+ ":")).

(** [new Date(backup.created) < cutoffDate]; an invalid date is not before
    any date. *)
Definition is_old (cutoffDate : Z) (backup : BackupDescriptor) : bool :=
  match bd_created backup with
  | Some created => created <? cutoffDate
  | None => false
  end.

Definition cleanupOldBackups (retentionDays : option Z) : M Z :=
  configured <- observe (config_backupRetention H) ;;
  let retention := retention_of retentionDays configured in
  now <- observe (clock_now H) ;;
  let cutoffDate := date_minus_days H now retention in
  try_catch
    (backups <- listBackups ;;
     let oldBackups := List.filter (is_old cutoffDate) backups in
     for_of oldBackups cleanup_backup tt ;;;
     ret (Z.of_nat (length oldBackups)))
    (fun message => log Error "Backup cleanup failed:" ;;; throw message).

End BackupManager.

(** ** Scheduling *)

(** The task object that [cron.schedule] returns, with the arguments the
    callback closes over. *)
Record CronTask : Type := {
  ct_pattern : string;
  ct_cluster : string;
  ct_database : string;
  ct_options : BackupOptions;
  ct_running : bool;
}.

(** A value of the map [this.scheduledJobs]:
    [{job, cluster, database, pattern, options, createdAt}]; [se_job] is the
    position of the task object in [tasks]. *)
Record ScheduleEntry : Type := {
  se_job : nat;
  se_cluster : string;
  se_database : string;
  se_pattern : string;
  se_options : BackupOptions;
  se_createdAt : Z;
}.

(** A value of the setting [backupSchedules]. *)
Record PersistedSchedule : Type := {
  ps_cluster : string;
  ps_database : string;
  ps_pattern : string;
  ps_options : BackupOptions;
}.

Record Scheduler : Type := {
  scheduledJobs : gmap string ScheduleEntry;
  tasks : list CronTask;
  backupSchedules : option (gmap string PersistedSchedule);
  saves : nat;
  journal : list (LogLevel * string);
}.

(** [cron_validate] is node-cron's validation of the pattern ([cron.schedule]
    throws on a pattern it rejects); [config_save] is [config.save()]. *)
Record SchedulerHost : Type := {
  cron_validate : string -> Result unit;
  config_save : Scheduler -> Result unit;
  scheduler_now : Scheduler -> Z;
}.

(** The two kinds of object on which the scheduler calls a method. *)
Inductive Receiver : Type :=
| OnEntry (entry : ScheduleEntry)
| OnTask (job : nat).

Definition set_running (job : nat) (running : bool) (s : Scheduler) : Scheduler :=
  {| scheduledJobs := scheduledJobs s;
     tasks :=
       match tasks s !! job with
       | Some t =>
           <[job := {| ct_pattern := ct_pattern t;
                       ct_cluster := ct_cluster t;
                       ct_database := ct_database t;
                       ct_options := ct_options t;
                       ct_running := running |}]> (tasks s)
       | None => tasks s
       end;
     backupSchedules := backupSchedules s;
     saves := saves s;
     journal := journal s |}.

(** [receiver.method()].  A task has [start] and [stop]; an entry of
    [scheduledJobs] is an object literal with the data properties [job],
    [cluster], [database], [pattern], [options] and [createdAt] and no
    function, so calling anything on it is a TypeError, with V8's message. *)
Definition invoke (receiver : Receiver) (method : string)
  : Eff Scheduler unit :=
  match receiver with
  | OnTask job =>
      if String.eqb method "start" then fun s => (Ok tt, set_running job true s)
      else if String.eqb method "stop" then
        fun s => (Ok tt, set_running job false s)
      else throw ("job." +:+ method +:+ " is not a function")
  | OnEntry _ =>
      throw ("this.scheduledJobs.get(...)." +:+ method +:+ " is not a function")
  end.

Definition journal_log (level : LogLevel) (message : string)
  : Eff Scheduler unit :=
  fun s =>
    (Ok tt,
     {| scheduledJobs := scheduledJobs s;
        tasks := tasks s;
        backupSchedules := backupSchedules s;
        saves := saves s;
        journal := journal s ++ [(level, message)] |}).

Definition set_scheduledJobs (jobs : gmap string ScheduleEntry) (s : Scheduler)
  : Scheduler :=
  {| scheduledJobs := jobs;
     tasks := tasks s;
     backupSchedules := backupSchedules s;
     saves := saves s;
     journal := journal s |}.

Definition set_backupSchedules (schedules : gmap string PersistedSchedule)
    (s : Scheduler) : Scheduler :=
  {| scheduledJobs := scheduledJobs s;
     tasks := tasks s;
     backupSchedules := Some schedules;
     saves := saves s;
     journal := journal s |}.

Section Scheduling.

Variable SH : SchedulerHost.

(** [cron.schedule(cronPattern, callback, { scheduled: false })] *)
Definition cron_schedule (cronPattern clusterName dbName : string)
    (options : BackupOptions) : Eff Scheduler nat :=
  fun s =>
    match cron_validate SH cronPattern with
    | Ok _ =>
        (Ok (length (tasks s)),
         {| scheduledJobs := scheduledJobs s;
            tasks :=
              tasks s ++
              [{| ct_pattern := cronPattern;
                  ct_cluster := clusterName;
                  ct_database := dbName;
                  ct_options := options;
                  ct_running := false |}];
            backupSchedules := backupSchedules s;
            saves := saves s;
            journal := journal s |})
    | Throw e => (Throw e, s)
    end.

(** [await this.config.save()].  The scheduler counts the saves that
    succeeded; what the configuration store does to write its file is its
    own and leaves no entry in the trace of the backup manager. *)
Definition save_config : Eff Scheduler unit :=
  fun s =>
    match config_save SH s with
    | Ok _ =>
        (Ok tt,
         {| scheduledJobs := scheduledJobs s;
            tasks := tasks s;
            backupSchedules := backupSchedules s;
            saves := S (saves s);
            journal := journal s |})
    | Throw e => (Throw e, s)
    end.

Definition saveScheduleToConfig (jobId : string) (schedule : PersistedSchedule)
  : Eff Scheduler unit :=
  bind
    (fun s =>
       let schedules := default ∅ (backupSchedules s) in
       (Ok tt, set_backupSchedules (<[jobId := schedule]> schedules) s))
    (fun _ => save_config).

Definition removeScheduleFromConfig (jobId : string) : Eff Scheduler unit :=
  bind
    (fun s =>
       let schedules := default ∅ (backupSchedules s) in
       (Ok tt, set_backupSchedules (delete jobId schedules) s))
    (fun _ => save_config).

Definition jobId_of (clusterName dbName : string) : string :=
  clusterName +:+ "-" +:+ dbName.

Definition scheduleBackup (clusterName dbName cronPattern : string)
    (options : BackupOptions) : Eff Scheduler string :=
  try_catch
    (let jobId := jobId_of clusterName dbName in
     existing <- (fun s => (Ok (scheduledJobs s !! jobId), s)) ;;
     match existing with
     | Some entry => invoke (OnEntry entry) "stop"
     | None => ret tt
     end ;;;
     job <- cron_schedule cronPattern clusterName dbName options ;;
     (fun s =>
        (Ok tt,
         set_scheduledJobs
           (<[jobId := {| se_job := job;
                          se_cluster := clusterName;
                          se_database := dbName;
                          se_pattern := cronPattern;
                          se_options := options;
                          se_createdAt := scheduler_now SH s |}]>
              (scheduledJobs s)) s)) ;;;
     invoke (OnTask job) "start" ;;;
     saveScheduleToConfig jobId
       {| ps_cluster := clusterName;
          ps_database := dbName;
          ps_pattern := cronPattern;
          ps_options := options |} ;;;
     journal_log Info
       ("Scheduled backup created: " +:+ jobId +:+ " (" +:+ cronPattern +:+ ")") ;;;
     ret jobId)
    (fun message =>
       journal_log Error "Failed to schedule backup:" ;;; throw message).

Definition unscheduleBackup (jobId : string) : Eff Scheduler bool :=
  existing <- (fun s => (Ok (scheduledJobs s !! jobId), s)) ;;
  match existing with
  | Some entry =>
      invoke (OnTask (se_job entry)) "stop" ;;;
      (fun s => (Ok tt, set_scheduledJobs (delete jobId (scheduledJobs s)) s)) ;;;
      removeScheduleFromConfig jobId ;;;
      journal_log Info ("Unscheduled backup: " +:+ jobId) ;;;
      ret true
  | None => ret false
  end.

End Scheduling.

(** ** Vocabulary of the statements *)

(** What a record adds to [totalDocuments] and to [totalSize]. *)
Definition record_documents (r : CollectionRecord) : Z :=
  match r with
  | Success _ n _ _ => n
  | Failure _ _ => 0
  end.

Definition record_size (r : CollectionRecord) : Z :=
  match r with
  | Success _ _ s _ => s
  | Failure _ _ => 0
  end.

(** [backupInfo] after one more record: [push_success] and [push_failure]
    are its two instances. *)
Definition push_record (info : BackupInfo) (r : CollectionRecord) : BackupInfo :=
  {| bi_cluster := bi_cluster info;
     bi_database := bi_database info;
     bi_timestamp := bi_timestamp info;
     bi_collections := bi_collections info ++ [r];
     bi_totalDocuments := bi_totalDocuments info + record_documents r;
     bi_totalSize := bi_totalSize info + record_size r;
     bi_compressed := bi_compressed info;
     bi_archivePath := bi_archivePath info |}.

Definition sum_Z (l : list Z) : Z := fold_right Z.add 0 l.

(** The payloads of the export files that were written without error, in the
    order of writing. *)
Fixpoint exported_payloads (evs : Trace) : list CollectionData :=
  match evs with
  | [] => []
  | EWriteFile _ (ExportJson d) None :: rest => d :: exported_payloads rest
  | _ :: rest => exported_payloads rest
  end.

(** The manifests handed to [fs.writeFile], whatever the outcome. *)
Fixpoint written_manifests (evs : Trace) : list BackupInfo :=
  match evs with
  | [] => []
  | EWriteFile _ (ManifestJson m) _ :: rest => m :: written_manifests rest
  | _ :: rest => written_manifests rest
  end.

(** The calls of one iteration of the snapshot loop. *)
Definition per_collection_event (ev : Event) : bool :=
  match ev with
  | EFind _ _ | EListIndexes _ _ | ECollStats _ _ | ECollStatsThrew _ _
  | ELog _ _ => true
  | EWriteFile _ (ExportJson _) _ => true
  | _ => false
  end.

(** Calls that change the collection [name] of the target database. *)
Definition changes_collection (name : string) (ev : Event) : bool :=
  match ev with
  | EDrop n _ | EInsertMany n _ _ | ECreateIndex n _ _ => String.eqb n name
  | _ => false
  end.

(** Successful deletions of a backup. *)
Definition is_removal (ev : Event) : bool :=
  match ev with
  | EUnlink _ None | ERmdir _ None => true
  | _ => false
  end.

Definition removals (evs : Trace) : Z :=
  Z.of_nat (length (List.filter is_removal evs)).

(** The names used by one call of [createBackup] that starts at trace [tr]. *)
Definition backupName_at (H : Host) (clusterName dbName : string) (tr : Trace)
  : string :=
  backupName_of clusterName dbName (clock_iso H tr).

Definition backupPath_at (H : Host) (clusterName dbName : string) (tr : Trace)
  : string :=
  path_join H (backupDir H) (backupName_at H clusterName dbName tr).

Definition metadataFile_at (H : Host) (clusterName dbName : string) (tr : Trace)
  : string :=
  path_join H (backupPath_at H clusterName dbName tr) "backup-info.json".

(** ** The runs of the snapshot loop

    What one iteration of the loop of [createBackup] on the collection
    [name] can add to the manifest, with the calls it made. *)
Inductive Snapshotted (H : Host) (backupPath name : string)
  : CollectionRecord -> Trace -> Prop :=
| snapshot_find_throws message :
    Snapshotted H backupPath name (Failure name message)
      [EFind name (Some message);
       ELog Error ("Failed to backup collection " +:+ name +:+ ":")]
| snapshot_indexes_throw message :
    Snapshotted H backupPath name (Failure name message)
      [EFind name None;
       EListIndexes name (Some message);
       ELog Error ("Failed to backup collection " +:+ name +:+ ":")]
| snapshot_stats_throw message :
    Snapshotted H backupPath name (Failure name message)
      [EFind name None;
       EListIndexes name None;
       ECollStatsThrew name message;
       ELog Error ("Failed to backup collection " +:+ name +:+ ":")]
| snapshot_write_throws data stats_failed message :
    cd_collection data = name ->
    Snapshotted H backupPath name (Failure name message)
      [EFind name None;
       EListIndexes name None;
       ECollStats name stats_failed;
       EWriteFile (path_join H backupPath (name +:+ ".json")) (ExportJson data)
         (Some message);
       ELog Error ("Failed to backup collection " +:+ name +:+ ":")]
| snapshot_written data stats_failed :
    cd_collection data = name ->
    Snapshotted H backupPath name
      (Success name (Z.of_nat (length (cd_documents data)))
         (stringify_length H data) (Z.of_nat (length (cd_indexes data))))
      [EFind name None;
       EListIndexes name None;
       ECollStats name stats_failed;
       EWriteFile (path_join H backupPath (name +:+ ".json")) (ExportJson data)
         None;
       ELog Info
         ("Backed up collection: " +:+ name +:+ " (" +:+
          pretty (Z.of_nat (length (cd_documents data))) +:+ " documents)")].

(** The whole loop: one record per enumerated collection, in order. *)
Inductive SnapshotLoop (H : Host) (backupPath : string)
  : list string -> list CollectionRecord -> Trace -> Prop :=
| loop_done : SnapshotLoop H backupPath [] [] []
| loop_next name names r records evs evs' :
    Snapshotted H backupPath name r evs ->
    SnapshotLoop H backupPath names records evs' ->
    SnapshotLoop H backupPath (name :: names) (r :: records) (evs ++ evs').

(** ** The runs of [createBackup]

    The pieces of a call of [createBackup] that starts at trace [tr]. *)
Definition setup_events (H : Host) (clusterName dbName : string) (tr : Trace)
  : Trace :=
  [EMkdir (backupPath_at H clusterName dbName tr) None;
   EGetDatabase clusterName dbName None;
   EListCollections clusterName dbName None].

Definition starting_log (clusterName dbName : string) : Event :=
  ELog Info ("Starting backup for " +:+ clusterName +:+ "/" +:+ dbName).

Definition failed_log (clusterName dbName : string) : Event :=
  ELog Error ("Backup failed for " +:+ clusterName +:+ "/" +:+ dbName +:+ ":").

(** The collections that the call enumerates. *)
Definition enumerated (H : Host) (clusterName dbName : string) (tr : Trace)
  : Result (list string) :=
  listCollections H
    (tr ++ [EMkdir (backupPath_at H clusterName dbName tr) None;
            EGetDatabase clusterName dbName None])
    clusterName dbName.

(** [backupInfo] after the loop has pushed [records]. *)
Definition manifest_of (H : Host) (clusterName dbName : string) (tr : Trace)
    (records : list CollectionRecord) : BackupInfo :=
  fold_left push_record records
    {| bi_cluster := clusterName;
       bi_database := dbName;
       bi_timestamp := clock_now H (tr ++ setup_events H clusterName dbName tr);
       bi_collections := [];
       bi_totalDocuments := 0;
       bi_totalSize := 0;
       bi_compressed := None;
       bi_archivePath := None |}.

(** The loop of the call, from the trace at which it starts. *)
Definition snapshot_loop (H : Host) (clusterName dbName : string) (tr : Trace)
    (names : list string) : Result BackupInfo * Trace :=
  for_of names
    (backup_collection H clusterName dbName (backupPath_at H clusterName dbName tr))
    (manifest_of H clusterName dbName tr [])
    (tr ++ setup_events H clusterName dbName tr ++ [starting_log clusterName dbName]).

(** The loop pushed [records] and made the calls [evs]. *)
Definition Snapshot (H : Host) (clusterName dbName : string) (tr : Trace)
    (names : list string) (records : list CollectionRecord) (evs : Trace)
  : Prop :=
  snapshot_loop H clusterName dbName tr names =
    (Ok (manifest_of H clusterName dbName tr records),
     (tr ++ setup_events H clusterName dbName tr ++
      [starting_log clusterName dbName]) ++ evs) /\
  SnapshotLoop H (backupPath_at H clusterName dbName tr) names records evs.

Definition manifest_write (H : Host) (clusterName dbName : string) (tr : Trace)
    (records : list CollectionRecord) (failed : option string) : Event :=
  EWriteFile (metadataFile_at H clusterName dbName tr)
    (ManifestJson (manifest_of H clusterName dbName tr records)) failed.

Definition archivePath_at (H : Host) (clusterName dbName : string) (tr : Trace)
  : string :=
  backupPath_at H clusterName dbName tr +:+ ".zip".

Definition result_of (H : Host) (clusterName dbName : string)
    (options : BackupOptions) (tr : Trace) (info : BackupInfo) : BackupResult :=
  {| br_name := backupName_at H clusterName dbName tr;
     br_path :=
       if compress options then archivePath_at H clusterName dbName tr
       else backupPath_at H clusterName dbName tr;
     br_info := info;
     br_size := bi_totalSize info;
     br_collections := Z.of_nat (length (bi_collections info)) |}.

Definition completed_log (H : Host) (clusterName dbName : string) (tr : Trace)
  : Event :=
  ELog Info ("Backup completed: " +:+ backupName_at H clusterName dbName tr).

(** Every way a call of [createBackup] can go, with its result and the calls
    it made. *)
Inductive CreateRun (H : Host) (clusterName dbName : string)
    (options : BackupOptions) (tr : Trace)
  : Result BackupResult -> Trace -> Prop :=
| create_mkdir_throws e :
    CreateRun H clusterName dbName options tr (Throw e)
      [EMkdir (backupPath_at H clusterName dbName tr) (Some e);
       failed_log clusterName dbName]
| create_getDatabase_throws e :
    CreateRun H clusterName dbName options tr (Throw e)
      [EMkdir (backupPath_at H clusterName dbName tr) None;
       EGetDatabase clusterName dbName (Some e);
       failed_log clusterName dbName]
| create_listCollections_throws e :
    CreateRun H clusterName dbName options tr (Throw e)
      [EMkdir (backupPath_at H clusterName dbName tr) None;
       EGetDatabase clusterName dbName None;
       EListCollections clusterName dbName (Some e);
       failed_log clusterName dbName]
| create_manifest_throws names records evs e :
    enumerated H clusterName dbName tr = Ok names ->
    Snapshot H clusterName dbName tr names records evs ->
    CreateRun H clusterName dbName options tr (Throw e)
      (setup_events H clusterName dbName tr ++
       starting_log clusterName dbName :: evs ++
       [manifest_write H clusterName dbName tr records (Some e);
        failed_log clusterName dbName])
| create_archive_throws names records evs e :
    compress options = true ->
    enumerated H clusterName dbName tr = Ok names ->
    Snapshot H clusterName dbName tr names records evs ->
    CreateRun H clusterName dbName options tr (Throw e)
      (setup_events H clusterName dbName tr ++
       starting_log clusterName dbName :: evs ++
       [manifest_write H clusterName dbName tr records None;
        ECompress (backupPath_at H clusterName dbName tr)
          (archivePath_at H clusterName dbName tr) (Some e);
        failed_log clusterName dbName])
| create_rmdir_throws names records evs (bytes : Z) e :
    compress options = true ->
    enumerated H clusterName dbName tr = Ok names ->
    Snapshot H clusterName dbName tr names records evs ->
    CreateRun H clusterName dbName options tr (Throw e)
      (setup_events H clusterName dbName tr ++
       starting_log clusterName dbName :: evs ++
       [manifest_write H clusterName dbName tr records None;
        ECompress (backupPath_at H clusterName dbName tr)
          (archivePath_at H clusterName dbName tr) None;
        ELog Info ("Backup compressed: " +:+ pretty bytes +:+ " bytes");
        ERmdir (backupPath_at H clusterName dbName tr) (Some e);
        failed_log clusterName dbName])
| create_archive names records evs (bytes : Z) :
    compress options = true ->
    enumerated H clusterName dbName tr = Ok names ->
    Snapshot H clusterName dbName tr names records evs ->
    CreateRun H clusterName dbName options tr
      (Ok (result_of H clusterName dbName options tr
             (set_compressed (manifest_of H clusterName dbName tr records)
                (archivePath_at H clusterName dbName tr))))
      (setup_events H clusterName dbName tr ++
       starting_log clusterName dbName :: evs ++
       [manifest_write H clusterName dbName tr records None;
        ECompress (backupPath_at H clusterName dbName tr)
          (archivePath_at H clusterName dbName tr) None;
        ELog Info ("Backup compressed: " +:+ pretty bytes +:+ " bytes");
        ERmdir (backupPath_at H clusterName dbName tr) None;
        completed_log H clusterName dbName tr])
| create_directory names records evs :
    compress options = false ->
    enumerated H clusterName dbName tr = Ok names ->
    Snapshot H clusterName dbName tr names records evs ->
    CreateRun H clusterName dbName options tr
      (Ok (result_of H clusterName dbName options tr
             (manifest_of H clusterName dbName tr records)))
      (setup_events H clusterName dbName tr ++
       starting_log clusterName dbName :: evs ++
       [manifest_write H clusterName dbName tr records None;
        completed_log H clusterName dbName tr]).

(** ** Questions asked of a trace *)





(** The scratch directory [dir] was deleted. *)
Definition removed (dir : string) (evs : Trace) : bool :=
  existsb
    (fun ev =>
       match ev with
       | ERmdir p None => String.eqb p dir
       | _ => false
       end) evs.

(** The collection and the message of a call of the snapshot loop that
    threw: a retrieval, the call of [stats()], or the write of the export
    file.  A rejected promise of [stats()] is no failure of the snapshot. *)
Definition snapshot_failure (ev : Event) : option (string * string) :=
  match ev with
  | EFind name (Some message) | EListIndexes name (Some message)
  | ECollStatsThrew name message =>
      Some (name, message)
  | EWriteFile _ (ExportJson d) (Some message) =>
      Some (cd_collection d, message)
  | _ => None
  end.

(** The snapshot of the collection [name] threw [message]. *)
Definition snapshot_threw (name message : string) (evs : Trace) : Prop :=
  In (Some (name, message)) (map snapshot_failure evs).


(** ** A host for the examples

    A database with the collections [users] and [orders] under a POSIX
    [path.join]; a scenario fixes the answers that the examples vary. *)
Definition posix_join (a b : string) : string := a +:+ "/" +:+ b.

Record Scenario : Type := {
  sc_find_orders : Result (list Json);
  sc_archive : Result Z;
  sc_rmdir : Result unit;
  sc_manifest : Result ManifestFile;
  sc_export : Result ExportFile;
  sc_entries : list string;
  sc_stat : Stats;
}.

Definition sample_documents : list Json :=
  [JObj [("_id", JStr "1"); ("name", JStr "John")];
   JObj [("_id", JStr "2"); ("name", JStr "Jane")]].

Definition id_index : Index :=
  {| ix_name := "_id_"; ix_key := JObj [("_id", JNum 1)];
     ix_unique := None; ix_sparse := None |}.

Definition email_index : Index :=
  {| ix_name := "email_1"; ix_key := JObj [("email", JNum 1)];
     ix_unique := Some true; ix_sparse := None |}.

Definition host_of (sc : Scenario) : Host :=
  {| cwd := "/srv";
     path_join := posix_join;
     stringify_length :=
       fun d =>
         80 + 40 * Z.of_nat (length (cd_documents d)) +
         30 * Z.of_nat (length (cd_indexes d));
     clock_iso := fun _ => "2024-03-01T02:00:00.000Z";
     clock_now := fun _ => 1709258400000;
     date_minus_days := fun t n => t - n * 86400000;
     config_backupRetention := fun _ => None;
     fs_mkdir := fun _ _ => Ok tt;
     fs_writeFile := fun _ _ _ => Ok tt;
     fs_rmdir := fun _ _ => sc_rmdir sc;
     fs_unlink := fun _ _ => Ok tt;
     fs_readdir := fun _ _ => Ok (sc_entries sc);
     fs_stat := fun _ _ => Ok (sc_stat sc);
     read_manifest :=
       fun _ _ =>
         match sc_manifest sc with
         | Ok manifest => Ok (Some manifest)
         | Throw e => Throw e
         end;
     read_export := fun _ _ => sc_export sc;
     archive_zip := fun _ _ _ => sc_archive sc;
     extract_zip := fun _ _ _ => Ok tt;
     getDatabase := fun _ _ _ => Ok tt;
     listCollections := fun _ _ _ => Ok ["users"; "orders"];
     coll_find :=
       fun _ _ _ name =>
         if String.eqb name "orders" then sc_find_orders sc
         else Ok sample_documents;
     coll_listIndexes := fun _ _ _ _ => Ok [id_index; email_index];
     coll_stats := fun _ _ _ _ => Fulfilled (JObj []);
     coll_drop := fun _ _ _ _ => Ok tt;
     coll_insertMany := fun _ _ _ _ _ => Ok tt;
     coll_createIndex := fun _ _ _ _ _ => Ok tt;
     engine_sort := fun backups => backups;
     engine_sort_permutes := fun backups => Permutation_refl backups |}.

Definition manifest_with (entries : list (option CollectionRecord))
  : ManifestFile :=
  {| mf_cluster := Some "atlas";
     mf_database := Some "shop";
     mf_timestamp := Some 1704103200000;
     mf_collections := Some entries;
     mf_totalDocuments := Some 2;
     mf_totalSize := Some 220 |}.

Definition sample_manifest (records : list CollectionRecord) : ManifestFile :=
  manifest_with (map Some records).

Definition sample_export : ExportFile :=
  {| ef_documents := Some sample_documents; ef_indexes := Some [id_index] |}.

Definition directory_stat : Stats :=
  {| st_isDirectory := true; st_size := 4096; st_mtime := 1704103200000 |}.

(** Everything answers; [orders] cannot be read. *)
Definition orders_denied : Scenario :=
  {| sc_find_orders := Throw "Access denied";
     sc_archive := Ok 512;
     sc_rmdir := Ok tt;
     sc_manifest := Ok (sample_manifest [Success "users" 2 220 2]);
     sc_export := Ok sample_export;
     sc_entries := ["atlas-shop-2024-01-01T10-00-00-000Z"];
     sc_stat := directory_stat |}.


(** The runs of the examples, from an empty trace. *)
Definition orders_denied_run (options : BackupOptions)
  : Result BackupResult * Trace :=
  createBackup (host_of orders_denied) "atlas" "shop" options [].


(** ** The runs of [restoreBackup] *)

(** The calls that one iteration of the restore loop may make for the
    collection [name]. *)
Definition restore_event_of (name : string) (ev : Event) : bool :=
  match ev with
  | EReadFile _ _ | ELog _ _ => true
  | EDrop n _ | EInsertMany n _ _ | ECreateIndex n _ _ => String.eqb n name
  | _ => false
  end.

(** The element pushed onto [restoredCollections] for an export file. *)
Definition restored_entry (name : string) (file : ExportFile)
  : option RestoredCollection :=
  match ef_documents file, ef_indexes file with
  | Some documents, Some indexes =>
      Some {| rc_name := name;
              rc_documents := Z.of_nat (length documents);
              rc_indexes := Z.of_nat (length indexes) - 1 |}
  | _, _ => None
  end.

(** [rc] was pushed for an export file that was read from [dir]. *)
Definition RestoredFrom (H : Host) (dir : string) (rc : RestoredCollection)
  : Prop :=
  exists tr file,
    read_export H tr (path_join H dir (rc_name rc +:+ ".json")) = Ok file /\
    restored_entry (rc_name rc) file = Some rc.

(** The directory that the restore reads, and the calls made to get it. *)
Definition restore_dir (H : Host) (backupPath : string) : string :=
  if endsWith backupPath ".zip" then tempDir H else backupPath.

Definition unpacked (H : Host) (backupPath : string) : Trace :=
  if endsWith backupPath ".zip" then [EExtract backupPath (tempDir H) None]
  else [].

Definition cleaned (H : Host) (backupPath : string) : Trace :=
  if endsWith backupPath ".zip" then [ERmdir (tempDir H) None] else [].

Definition restore_metadataFile (H : Host) (backupPath : string) : string :=
  path_join H (restore_dir H backupPath) "backup-info.json".

(** The manifest that the call loads. *)
Definition loaded_manifest (H : Host) (backupPath : string) (tr : Trace)
  : Result (option ManifestFile) :=
  read_manifest H (tr ++ unpacked H backupPath)
    (restore_metadataFile H backupPath).

Definition restore_failed_log : Event := ELog Error "Restore failed:".

Definition restore_opening (H : Host) (backupPath targetCluster targetDatabase : string)
  : Trace :=
  unpacked H backupPath ++
  [EReadFile (restore_metadataFile H backupPath) None;
   EGetDatabase targetCluster targetDatabase None;
   ELog Info
     ("Starting restore to " +:+ targetCluster +:+ "/" +:+ targetDatabase)].

(** Every way a call of [restoreBackup] can go. *)
Inductive RestoreRun (H : Host)
    (backupPath targetCluster targetDatabase : string)
    (options : RestoreOptions) (tr : Trace)
  : Result RestoreResult -> Trace -> Prop :=
| restore_extract_throws e :
    endsWith backupPath ".zip" = true ->
    RestoreRun H backupPath targetCluster targetDatabase options tr (Throw e)
      [EExtract backupPath (tempDir H) (Some e); restore_failed_log]
| restore_manifest_throws e :
    RestoreRun H backupPath targetCluster targetDatabase options tr (Throw e)
      (unpacked H backupPath ++
       [EReadFile (restore_metadataFile H backupPath) (Some e);
        restore_failed_log])
| restore_getDatabase_throws e :
    RestoreRun H backupPath targetCluster targetDatabase options tr (Throw e)
      (unpacked H backupPath ++
       [EReadFile (restore_metadataFile H backupPath) None;
        EGetDatabase targetCluster targetDatabase (Some e);
        restore_failed_log])
| restore_no_collections manifest :
    loaded_manifest H backupPath tr = Ok (Some manifest) ->
    mf_collections manifest = None ->
    RestoreRun H backupPath targetCluster targetDatabase options tr
      (Throw "backupInfo.collections is not iterable")
      (restore_opening H backupPath targetCluster targetDatabase ++
       [restore_failed_log])
| restore_rmdir_throws manifest records restored evs e :
    endsWith backupPath ".zip" = true ->
    loaded_manifest H backupPath tr = Ok (Some manifest) ->
    mf_collections manifest = Some records ->
    for_of records
      (restore_collection H (restore_dir H backupPath) targetCluster
         targetDatabase options) []
      (tr ++ restore_opening H backupPath targetCluster targetDatabase) =
      (Ok restored,
       (tr ++ restore_opening H backupPath targetCluster targetDatabase) ++ evs) ->
    RestoreRun H backupPath targetCluster targetDatabase options tr (Throw e)
      (restore_opening H backupPath targetCluster targetDatabase ++ evs ++
       [ERmdir (tempDir H) (Some e); restore_failed_log])
| restore_done manifest records restored evs :
    loaded_manifest H backupPath tr = Ok (Some manifest) ->
    mf_collections manifest = Some records ->
    for_of records
      (restore_collection H (restore_dir H backupPath) targetCluster
         targetDatabase options) []
      (tr ++ restore_opening H backupPath targetCluster targetDatabase) =
      (Ok restored,
       (tr ++ restore_opening H backupPath targetCluster targetDatabase) ++ evs) ->
    RestoreRun H backupPath targetCluster targetDatabase options tr
      (Ok {| rr_restoredCollections := restored;
             rr_sourceBackup := manifest;
             rr_target := (targetCluster, targetDatabase) |})
      (restore_opening H backupPath targetCluster targetDatabase ++ evs ++
       cleaned H backupPath ++ [ELog Info "Restore completed"])
| restore_null_entry manifest records evs :
    loaded_manifest H backupPath tr = Ok (Some manifest) ->
    mf_collections manifest = Some records ->
    In None records ->
    for_of records
      (restore_collection H (restore_dir H backupPath) targetCluster
         targetDatabase options) []
      (tr ++ restore_opening H backupPath targetCluster targetDatabase) =
      (Throw "Cannot read properties of null (reading 'error')",
       (tr ++ restore_opening H backupPath targetCluster targetDatabase) ++ evs) ->
    RestoreRun H backupPath targetCluster targetDatabase options tr
      (Throw "Cannot read properties of null (reading 'error')")
      (restore_opening H backupPath targetCluster targetDatabase ++ evs ++
       [restore_failed_log])
| restore_null_manifest :
    loaded_manifest H backupPath tr = Ok None ->
    RestoreRun H backupPath targetCluster targetDatabase options tr
      (Throw "Cannot read properties of null (reading 'collections')")
      (restore_opening H backupPath targetCluster targetDatabase ++
       [restore_failed_log]).

(** The calls that the restore loop may make. *)
Definition restore_call (ev : Event) : bool :=
  match ev with
  | EReadFile _ _ | ELog _ _ | EDrop _ _ | EInsertMany _ _ _
  | ECreateIndex _ _ _ => true
  | _ => false
  end.

(** Every record of the manifest that names [name] has a truthy [error]. *)
Definition only_failed (name : string)
    (entries : list (option CollectionRecord)) : Prop :=
  forall r, In (Some r) entries -> rec_name r = name ->
            truthy_string (rec_error r) = true.


(** The archive of a backup whose manifest cannot be parsed. *)
Definition manifest_unreadable : Scenario :=
  {| sc_find_orders := Ok [];
     sc_archive := Ok 512;
     sc_rmdir := Ok tt;
     sc_manifest := Throw "Unexpected end of JSON input";
     sc_export := Ok sample_export;
     sc_entries := [];
     sc_stat := directory_stat |}.

(** A backup whose manifest has a failure record with an empty message, next
    to an export file of that collection. *)
Definition blank_error : Scenario :=
  {| sc_find_orders := Ok [];
     sc_archive := Ok 512;
     sc_rmdir := Ok tt;
     sc_manifest := Ok (sample_manifest [Failure "users" ""]);
     sc_export := Ok sample_export;
     sc_entries := [];
     sc_stat := directory_stat |}.

(** A backup of [users] next to a failure record for [orders]. *)
Definition orders_failed : Scenario :=
  {| sc_find_orders := Ok [];
     sc_archive := Ok 512;
     sc_rmdir := Ok tt;
     sc_manifest :=
       Ok (sample_manifest
             [Success "users" 2 220 2; Failure "orders" "Access denied"]);
     sc_export := Ok sample_export;
     sc_entries := [];
     sc_stat := directory_stat |}.

(** A backup whose export file lists no index at all. *)
Definition no_indexes : Scenario :=
  {| sc_find_orders := Ok [];
     sc_archive := Ok 512;
     sc_rmdir := Ok tt;
     sc_manifest := Ok (sample_manifest [Success "users" 2 220 0]);
     sc_export :=
       Ok {| ef_documents := Some sample_documents; ef_indexes := Some [] |};
     sc_entries := [];
     sc_stat := directory_stat |}.

Definition restore_run (sc : Scenario) (backupPath : string)
  : Result RestoreResult * Trace :=
  restoreBackup (host_of sc) backupPath "staging" "shop"
    {| dropExisting := true |} [].

(** ** The runs of [listBackups] and [cleanupOldBackups] *)

(** A descriptor of an uncompressed backup takes its [size] from [fs.stat]
    of the directory entry. *)
Definition SizedByStat (H : Host) (b : BackupDescriptor) : Prop :=
  bd_compressed b = false ->
  exists tr stats,
    fs_stat H tr (path_join H (backupDir H) (bd_name b)) = Ok stats /\
    st_isDirectory stats = true /\
    bd_path b = path_join H (backupDir H) (bd_name b) /\
    bd_size b = st_size stats.

(** The calls that [listBackups] may make. *)
Definition list_call (ev : Event) : bool :=
  match ev with
  | EReaddir _ _ | EStat _ _ | EReadFile _ _ | ELog _ _ => true
  | _ => false
  end.

(** Attempts to delete a backup, whatever the outcome. *)
Definition is_deletion (ev : Event) : bool :=
  match ev with
  | EUnlink _ _ | ERmdir _ _ => true
  | _ => false
  end.

Definition deletions (evs : Trace) : Z :=
  Z.of_nat (length (List.filter is_deletion evs)).

(** The same host, with another [totalSize] in every manifest it reads. *)
Definition with_totalSize (totalSize : ManifestFile -> option Z) (H : Host)
  : Host :=
  {| cwd := cwd H;
     path_join := path_join H;
     stringify_length := stringify_length H;
     clock_iso := clock_iso H;
     clock_now := clock_now H;
     date_minus_days := date_minus_days H;
     config_backupRetention := config_backupRetention H;
     fs_mkdir := fs_mkdir H;
     fs_writeFile := fs_writeFile H;
     fs_rmdir := fs_rmdir H;
     fs_unlink := fs_unlink H;
     fs_readdir := fs_readdir H;
     fs_stat := fs_stat H;
     read_manifest :=
       fun tr path =>
         match read_manifest H tr path with
         | Ok (Some m) =>
             Ok (Some {| mf_cluster := mf_cluster m;
                         mf_database := mf_database m;
                         mf_timestamp := mf_timestamp m;
                         mf_collections := mf_collections m;
                         mf_totalDocuments := mf_totalDocuments m;
                         mf_totalSize := totalSize m |})
         | Ok None => Ok None
         | Throw e => Throw e
         end;
     read_export := read_export H;
     archive_zip := archive_zip H;
     extract_zip := extract_zip H;
     getDatabase := getDatabase H;
     listCollections := listCollections H;
     coll_find := coll_find H;
     coll_listIndexes := coll_listIndexes H;
     coll_stats := coll_stats H;
     coll_drop := coll_drop H;
     coll_insertMany := coll_insertMany H;
     coll_createIndex := coll_createIndex H;
     engine_sort := engine_sort H;
     engine_sort_permutes := engine_sort_permutes H |}.

(** A backup directory of sixty days ago that cannot be removed. *)
Definition undeletable : Scenario :=
  {| sc_find_orders := Ok [];
     sc_archive := Ok 512;
     sc_rmdir := Throw "EACCES: permission denied";
     sc_manifest := Ok (sample_manifest [Success "users" 2 220 2]);
     sc_export := Ok sample_export;
     sc_entries := ["atlas-shop-2024-01-01T10-00-00-000Z"];
     sc_stat := directory_stat |}.

(** ** A scheduler for the examples *)

Definition empty_scheduler : Scheduler :=
  {| scheduledJobs := ∅;
     tasks := [];
     backupSchedules := None;
     saves := 0%nat;
     journal := [] |}.

(** Every pattern is accepted and the configuration can be saved. *)
Definition obliging_host : SchedulerHost :=
  {| cron_validate := fun _ => Ok tt;
     config_save := fun _ => Ok tt;
     scheduler_now := fun _ => 1709258400000 |}.

(** The message of the TypeError thrown by [x.stop()] on an entry. *)
Definition stop_is_not_a_function : string :=
  "this.scheduledJobs.get(...).stop is not a function".

(** ** What a restore may call *)

(** The calls that one iteration of the restore loop may make under
    [options]: a drop only if [dropExisting] is set, an insert only of a
    non-empty batch, an index creation only for an index that is not
    [_id_]. *)
Definition restore_allowed (options : RestoreOptions) (ev : Event) : bool :=
  match ev with
  | EReadFile _ _ | ELog _ _ => true
  | EDrop _ _ => dropExisting options
  | EInsertMany _ documents _ => (0 <? length documents)%nat
  | ECreateIndex _ index _ => negb (String.eqb (ix_name index) "_id_")
  | _ => false
  end.

(** The calls that a whole [restoreBackup] may make. *)
Definition restore_run_allowed (H : Host) (backupPath : string)
    (options : RestoreOptions) (ev : Event) : bool :=
  match ev with
  | EExtract archive dir _ =>
      endsWith backupPath ".zip" && String.eqb archive backupPath &&
      String.eqb dir (tempDir H)
  | ERmdir dir _ => endsWith backupPath ".zip" && String.eqb dir (tempDir H)
  | EGetDatabase _ _ _ => true
  | _ => restore_allowed options ev
  end.

(** The error message that a failed call carries. *)
Definition event_failure (ev : Event) : option string :=
  match ev with
  | EMkdir _ f | EWriteFile _ _ f | ERmdir _ f | EUnlink _ f | EReaddir _ f
  | EStat _ f | EReadFile _ f | ECompress _ _ f | EExtract _ _ f
  | EGetDatabase _ _ f | EListCollections _ _ f | EFind _ f
  | EListIndexes _ f | ECollStats _ f | EDrop _ f | EInsertMany _ _ f
  | ECreateIndex _ _ f => f
  | ECollStatsThrew _ message => Some message
  | ELog _ _ => None
  end.


(** A backup of [users] whose export file lists the automatic index and one
    more. *)
Definition two_indexes : Scenario :=
  {| sc_find_orders := Ok [];
     sc_archive := Ok 512;
     sc_rmdir := Ok tt;
     sc_manifest := Ok (sample_manifest [Success "users" 2 220 2]);
     sc_export :=
       Ok {| ef_documents := Some sample_documents;
             ef_indexes := Some [id_index; email_index] |};
     sc_entries := [];
     sc_stat := directory_stat |}.

(** A backup of a collection without documents. *)
Definition empty_collection : Scenario :=
  {| sc_find_orders := Ok [];
     sc_archive := Ok 512;
     sc_rmdir := Ok tt;
     sc_manifest := Ok (sample_manifest [Success "users" 0 110 1]);
     sc_export :=
       Ok {| ef_documents := Some []; ef_indexes := Some [id_index] |};
     sc_entries := [];
     sc_stat := directory_stat |}.

(** An archive whose scratch directory cannot be removed. *)
Definition scratch_stuck : Scenario :=
  {| sc_find_orders := Ok [];
     sc_archive := Ok 512;
     sc_rmdir := Throw "ENOTEMPTY: directory not empty";
     sc_manifest := Ok (sample_manifest [Success "users" 2 220 2]);
     sc_export := Ok sample_export;
     sc_entries := [];
     sc_stat := directory_stat |}.


(** ** What a snapshot may call *)


(** The calls that a [createBackup] started at [tr] may make: it reads the
    database, writes files, and archives and removes its own directory when
    [options.compress] is set. *)
Definition create_allowed (H : Host) (clusterName dbName : string)
    (options : BackupOptions) (tr : Trace) (ev : Event) : bool :=
  match ev with
  | EMkdir path _ => String.eqb path (backupPath_at H clusterName dbName tr)
  | EGetDatabase _ _ _ | EListCollections _ _ _ | EFind _ _
  | EListIndexes _ _ | ECollStats _ _ | ECollStatsThrew _ _
  | EWriteFile _ _ _ | ELog _ _ => true
  | ECompress source target _ =>
      compress options &&
      String.eqb source (backupPath_at H clusterName dbName tr) &&
      String.eqb target (archivePath_at H clusterName dbName tr)
  | ERmdir path _ =>
      compress options &&
      String.eqb path (backupPath_at H clusterName dbName tr)
  | _ => false
  end.

Definition documents_of (d : CollectionData) : Z :=
  Z.of_nat (length (cd_documents d)).


(** ** What the inventory lists *)

(** The descriptor [b] describes the entry [file] of the backup root: a
    directory under its own name, an archive under its name without the
    first [.zip], with nothing taken from a manifest. *)
Definition DescribesEntry (H : Host) (file : string) (b : BackupDescriptor)
  : Prop :=
  bd_path b = path_join H (backupDir H) file /\
  if bd_compressed b then
    endsWith file ".zip" = true /\
    bd_name b = replace_first ".zip" "" file /\
    bd_cluster b = None /\ bd_database b = None /\
    bd_collections b = None /\ bd_totalDocuments b = None
  else bd_name b = file.

(** The descriptors listed describe entries already scanned, at most one
    for each. *)
Definition Listed (H : Host) (done : list string)
    (backups : list BackupDescriptor) : Prop :=
  (length backups <= length done)%nat /\
  forall b, In b backups -> exists file, In file done /\ DescribesEntry H file b.

(** The calls of [listBackups] that are not made under a handler of their
    own. *)
Definition list_fatal (ev : Event) : bool :=
  match ev with
  | EReaddir _ _ | EStat _ _ => true
  | _ => false
  end.

(** The last call threw [e], and it is a call that [listBackups] does not
    guard. *)
Definition ThrownByListing (e : string) (evs : Trace) : Prop :=
  exists before ev,
    evs = before ++ [ev] /\ list_fatal ev = true /\ event_failure ev = Some e.

(** The descriptors have valid dates and are ordered from the newest to the
    oldest. *)
Definition newest_first (backups : list BackupDescriptor) : Prop :=
  forall i j a b,
    (i < j)%nat ->
    backups !! i = Some a ->
    backups !! j = Some b ->
    exists ta tb,
      bd_created a = Some ta /\ bd_created b = Some tb /\ tb <= ta.

(** A backup root with a directory, an archive, a stray file and a directory
    that is no backup. *)
Definition mixed_root : Host :=
  let H := host_of orders_denied in
  {| cwd := cwd H;
     path_join := path_join H;
     stringify_length := stringify_length H;
     clock_iso := clock_iso H;
     clock_now := clock_now H;
     date_minus_days := date_minus_days H;
     config_backupRetention := config_backupRetention H;
     fs_mkdir := fs_mkdir H;
     fs_writeFile := fs_writeFile H;
     fs_rmdir := fs_rmdir H;
     fs_unlink := fs_unlink H;
     fs_readdir :=
       fun _ _ =>
         Ok ["atlas-shop-2024-01-01T10-00-00-000Z";
             "atlas-shop-2024-02-01T10-00-00-000Z.zip";
             "notes.txt";
             "temp-restore"];
     fs_stat :=
       fun _ path =>
         if endsWith path ".zip" then
           Ok {| st_isDirectory := false; st_size := 512;
                 st_mtime := 1706781600000 |}
         else if endsWith path ".txt" then
           Ok {| st_isDirectory := false; st_size := 12;
                 st_mtime := 1706781600000 |}
         else Ok directory_stat;
     read_manifest :=
       fun _ path =>
         if endsWith path "temp-restore/backup-info.json" then
           Throw "ENOENT: no such file or directory"
         else Ok (Some (sample_manifest [Success "users" 2 220 2]));
     read_export := read_export H;
     archive_zip := archive_zip H;
     extract_zip := extract_zip H;
     getDatabase := getDatabase H;
     listCollections := listCollections H;
     coll_find := coll_find H;
     coll_listIndexes := coll_listIndexes H;
     coll_stats := coll_stats H;
     coll_drop := coll_drop H;
     coll_insertMany := coll_insertMany H;
     coll_createIndex := coll_createIndex H;
     engine_sort := engine_sort H;
     engine_sort_permutes := engine_sort_permutes H |}.

(** A backup root with an entry that cannot be examined. *)
Definition unreadable_root : Host :=
  let H := mixed_root in
  {| cwd := cwd H;
     path_join := path_join H;
     stringify_length := stringify_length H;
     clock_iso := clock_iso H;
     clock_now := clock_now H;
     date_minus_days := date_minus_days H;
     config_backupRetention := config_backupRetention H;
     fs_mkdir := fs_mkdir H;
     fs_writeFile := fs_writeFile H;
     fs_rmdir := fs_rmdir H;
     fs_unlink := fs_unlink H;
     fs_readdir := fs_readdir H;
     fs_stat :=
       fun tr path =>
         if endsWith path ".txt" then Throw "EACCES: permission denied"
         else fs_stat H tr path;
     read_manifest := read_manifest H;
     read_export := read_export H;
     archive_zip := archive_zip H;
     extract_zip := extract_zip H;
     getDatabase := getDatabase H;
     listCollections := listCollections H;
     coll_find := coll_find H;
     coll_listIndexes := coll_listIndexes H;
     coll_stats := coll_stats H;
     coll_drop := coll_drop H;
     coll_insertMany := coll_insertMany H;
     coll_createIndex := coll_createIndex H;
     engine_sort := engine_sort H;
     engine_sort_permutes := engine_sort_permutes H |}.

(** ** What the retention sweep deletes *)

(** The deletions attempted, in order: whether by [fs.unlink], and the
    path. *)
Fixpoint deletion_calls (evs : Trace) : list (bool * string) :=
  match evs with
  | [] => []
  | EUnlink path _ :: rest => (true, path) :: deletion_calls rest
  | ERmdir path _ :: rest => (false, path) :: deletion_calls rest
  | _ :: rest => deletion_calls rest
  end.

(** The deletion that [cleanupOldBackups] attempts for a backup. *)
Definition deletion_of (b : BackupDescriptor) : bool * string :=
  (bd_compressed b, bd_path b).

(** The cutoff of a sweep that starts at [tr]. *)
Definition cutoff_at (H : Host) (retentionDays : option Z) (tr : Trace) : Z :=
  date_minus_days H (clock_now H tr)
    (retention_of retentionDays (config_backupRetention H tr)).

(** ** Startup *)

Section Startup.

Variable SH : SchedulerHost.

(** [Object.entries(schedules)]: the properties of the object in the order
    in which JavaScript enumerates them. *)
Variable entries_of :
  gmap string PersistedSchedule -> list (string * PersistedSchedule).

(** The body of the loop of [loadScheduledBackups] (source lines 334-345). *)
Definition load_schedule (_ : unit) (entry : string * PersistedSchedule)
  : Eff Scheduler unit :=
  try_catch
    (scheduleBackup SH (ps_cluster (snd entry)) (ps_database (snd entry))
       (ps_pattern (snd entry)) (ps_options (snd entry)) ;;;
     ret tt)
    (fun _ =>
       journal_log Error
         ("Failed to load scheduled backup " +:+ fst entry +:+ ":")).

Definition loadScheduledBackups : Eff Scheduler unit :=
  schedules <- (fun s => (Ok (default ∅ (backupSchedules s)), s)) ;;
  for_of (entries_of schedules) load_schedule tt.

End Startup.

(** Persisted schedules for the examples: two valid ones and one whose
    pattern node-cron rejects. *)
Definition nightly : PersistedSchedule :=
  {| ps_cluster := "atlas"; ps_database := "shop";
     ps_pattern := "0 2 * * *"; ps_options := {| compress := true |} |}.

Definition weekly : PersistedSchedule :=
  {| ps_cluster := "atlas"; ps_database := "logs";
     ps_pattern := "0 3 * * 0"; ps_options := {| compress := false |} |}.

Definition garbled : PersistedSchedule :=
  {| ps_cluster := "local"; ps_database := "test";
     ps_pattern := "every day"; ps_options := {| compress := false |} |}.

(** A host that rejects the pattern of [garbled]. *)
Definition strict_host : SchedulerHost :=
  {| cron_validate :=
       fun pattern =>
         if String.eqb pattern "every day" then
           Throw "every is a invalid expression for minute"
         else Ok tt;
     config_save := fun _ => Ok tt;
     scheduler_now := fun _ => 1709258400000 |}.

(** A host on which the configuration cannot be saved. *)
Definition readonly_host : SchedulerHost :=
  {| cron_validate := fun _ => Ok tt;
     config_save := fun _ => Throw "Failed to save config: EROFS";
     scheduler_now := fun _ => 1709258400000 |}.

Definition persisted_entries : list (string * PersistedSchedule) :=
  [("atlas-shop", nightly); ("local-test", garbled); ("atlas-logs", weekly)].

(** A scheduler at startup, with the three schedules in its settings. *)
Definition restarted_scheduler : Scheduler :=
  {| scheduledJobs := ∅;
     tasks := [];
     backupSchedules := Some (list_to_map persisted_entries);
     saves := 0%nat;
     journal := [] |}.

(** ** The states of the scheduler *)

(** The entry, the task and the setting that [scheduleBackup] installs. *)
Definition entry_for (SH : SchedulerHost)
    (clusterName dbName cronPattern : string) (options : BackupOptions)
    (s : Scheduler) : ScheduleEntry :=
  {| se_job := length (tasks s);
     se_cluster := clusterName;
     se_database := dbName;
     se_pattern := cronPattern;
     se_options := options;
     se_createdAt :=
       scheduler_now SH
         {| scheduledJobs := scheduledJobs s;
            tasks :=
              tasks s ++
              [{| ct_pattern := cronPattern;
                  ct_cluster := clusterName;
                  ct_database := dbName;
                  ct_options := options;
                  ct_running := false |}];
            backupSchedules := backupSchedules s;
            saves := saves s;
            journal := journal s |} |}.

Definition task_for (clusterName dbName cronPattern : string)
    (options : BackupOptions) : CronTask :=
  {| ct_pattern := cronPattern;
     ct_cluster := clusterName;
     ct_database := dbName;
     ct_options := options;
     ct_running := true |}.

Definition setting_for (clusterName dbName cronPattern : string)
    (options : BackupOptions) : PersistedSchedule :=
  {| ps_cluster := clusterName;
     ps_database := dbName;
     ps_pattern := cronPattern;
     ps_options := options |}.

(** The scheduler once [scheduleBackup] has installed the trigger and put
    the schedule into the settings, before [config.save()]. *)
Definition installed (SH : SchedulerHost)
    (clusterName dbName cronPattern : string) (options : BackupOptions)
    (s : Scheduler) : Scheduler :=
  {| scheduledJobs :=
       <[jobId_of clusterName dbName :=
           entry_for SH clusterName dbName cronPattern options s]>
         (scheduledJobs s);
     tasks := tasks s ++ [task_for clusterName dbName cronPattern options];
     backupSchedules :=
       Some (<[jobId_of clusterName dbName :=
                 setting_for clusterName dbName cronPattern options]>
               (default ∅ (backupSchedules s)));
     saves := saves s;
     journal := journal s |}.

Definition with_journal (entries : list (LogLevel * string)) (s : Scheduler)
  : Scheduler :=
  {| scheduledJobs := scheduledJobs s;
     tasks := tasks s;
     backupSchedules := backupSchedules s;
     saves := saves s;
     journal := journal s ++ entries |}.

Definition saved (s : Scheduler) : Scheduler :=
  {| scheduledJobs := scheduledJobs s;
     tasks := tasks s;
     backupSchedules := backupSchedules s;
     saves := S (saves s);
     journal := journal s |}.

(** ** The size of a snapshot, from the answers of the collaborators *)

(** The answers about the collections [names] do not change while the call
    of [createBackup] that started at [tr] runs: the database answers
    [documents], [indexes] and [stats] for a collection, and the file system
    answers [written] to the write of an export file. *)
Definition Steady (H : Host) (clusterName dbName : string) (tr : Trace)
    (names : list string)
    (documents : string -> Result (list Json))
    (indexes : string -> Result (list Index))
    (stats : string -> Settled Json)
    (written : CollectionData -> Result unit) : Prop :=
  forall evs name,
    In name names ->
    coll_find H (tr ++ evs) clusterName dbName name = documents name /\
    coll_listIndexes H (tr ++ evs) clusterName dbName name = indexes name /\
    coll_stats H (tr ++ evs) clusterName dbName name = stats name /\
    forall data,
      fs_writeFile H (tr ++ evs)
        (path_join H (backupPath_at H clusterName dbName tr) (name +:+ ".json"))
        (ExportJson data) = written data.

(** The payload of the collection [name] when its documents and indexes can
    be retrieved and the call of [stats()] does not throw; a rejected
    promise of [stats()] leaves [{}] in it. *)
Definition snapshot_payload (clusterName dbName : string)
    (documents : string -> Result (list Json))
    (indexes : string -> Result (list Index))
    (stats : string -> Settled Json) (name : string) : option CollectionData :=
  match documents name, indexes name, stats name with
  | Ok docs, Ok idx, Fulfilled st =>
      Some {| cd_collection := name; cd_database := dbName;
              cd_cluster := clusterName; cd_documents := docs;
              cd_indexes := idx; cd_stats := st |}
  | Ok docs, Ok idx, Rejected _ =>
      Some {| cd_collection := name; cd_database := dbName;
              cd_cluster := clusterName; cd_documents := docs;
              cd_indexes := idx; cd_stats := JObj [] |}
  | _, _, _ => None
  end.

(** The serialized size of the payload of a collection that is snapshotted
    successfully, and nothing for one that is not. *)
Definition snapshot_size (H : Host) (clusterName dbName : string)
    (documents : string -> Result (list Json))
    (indexes : string -> Result (list Index))
    (stats : string -> Settled Json)
    (written : CollectionData -> Result unit) (name : string) : Z :=
  match snapshot_payload clusterName dbName documents indexes stats name with
  | Some data =>
      match written data with
      | Ok _ => stringify_length H data
      | Throw _ => 0
      end
  | None => 0
  end.

(** A database for the examples with four collections: [users] can be
    snapshotted, the documents of [orders] cannot be read, the call of
    [stats()] throws on [sessions], and the promise of [stats()] is rejected
    on [logs]. *)
Definition four_documents (name : string) : Result (list Json) :=
  if String.eqb name "orders" then Throw "Access denied"
  else Ok sample_documents.

Definition four_indexes (_ : string) : Result (list Index) :=
  Ok [id_index; email_index].

Definition four_stats (name : string) : Settled Json :=
  if String.eqb name "sessions" then Thrown "collection.stats is not a function"
  else if String.eqb name "logs" then
    Rejected "not authorized to execute collStats"
  else Fulfilled (JObj []).

Definition four_collections : Host :=
  let H := host_of orders_denied in
  {| cwd := cwd H;
     path_join := path_join H;
     stringify_length := stringify_length H;
     clock_iso := clock_iso H;
     clock_now := clock_now H;
     date_minus_days := date_minus_days H;
     config_backupRetention := config_backupRetention H;
     fs_mkdir := fs_mkdir H;
     fs_writeFile := fs_writeFile H;
     fs_rmdir := fs_rmdir H;
     fs_unlink := fs_unlink H;
     fs_readdir := fs_readdir H;
     fs_stat := fs_stat H;
     read_manifest := read_manifest H;
     read_export := read_export H;
     archive_zip := archive_zip H;
     extract_zip := extract_zip H;
     getDatabase := getDatabase H;
     listCollections := fun _ _ _ => Ok ["users"; "orders"; "sessions"; "logs"];
     coll_find := fun _ _ _ name => four_documents name;
     coll_listIndexes := fun _ _ _ name => four_indexes name;
     coll_stats := fun _ _ _ name => four_stats name;
     coll_drop := coll_drop H;
     coll_insertMany := coll_insertMany H;
     coll_createIndex := coll_createIndex H;
     engine_sort := engine_sort H;
     engine_sort_permutes := engine_sort_permutes H |}.

Definition four_collections_run (options : BackupOptions)
  : Result BackupResult * Trace :=
  createBackup four_collections "atlas" "shop" options [].

(** A backup root with an older directory, a directory whose manifest has no
    [timestamp], and a newer archive; the engine leaves an array that it
    cannot order as it is. *)
Definition undated_manifest : ManifestFile :=
  {| mf_cluster := Some "atlas";
     mf_database := Some "shop";
     mf_timestamp := None;
     mf_collections := Some [Some (Success "users" 2 220 2)];
     mf_totalDocuments := Some 2;
     mf_totalSize := Some 220 |}.

Definition undated_root : Host :=
  let H := mixed_root in
  {| cwd := cwd H;
     path_join := path_join H;
     stringify_length := stringify_length H;
     clock_iso := clock_iso H;
     clock_now := clock_now H;
     date_minus_days := date_minus_days H;
     config_backupRetention := config_backupRetention H;
     fs_mkdir := fs_mkdir H;
     fs_writeFile := fs_writeFile H;
     fs_rmdir := fs_rmdir H;
     fs_unlink := fs_unlink H;
     fs_readdir :=
       fun _ _ =>
         Ok ["atlas-shop-2024-01-01T10-00-00-000Z";
             "atlas-shop-undated";
             "atlas-shop-2024-02-01T10-00-00-000Z.zip"];
     fs_stat := fs_stat H;
     read_manifest :=
       fun _ path =>
         if endsWith path "undated/backup-info.json" then
           Ok (Some undated_manifest)
         else Ok (Some (sample_manifest [Success "users" 2 220 2]));
     read_export := read_export H;
     archive_zip := archive_zip H;
     extract_zip := extract_zip H;
     getDatabase := getDatabase H;
     listCollections := listCollections H;
     coll_find := coll_find H;
     coll_listIndexes := coll_listIndexes H;
     coll_stats := coll_stats H;
     coll_drop := coll_drop H;
     coll_insertMany := coll_insertMany H;
     coll_createIndex := coll_createIndex H;
     engine_sort := fun backups => backups;
     engine_sort_permutes := fun backups => Permutation_refl backups |}.

(** * Properties *)

(** ** Strings *)

Example replace_colons_dots_iso :
  replace_colons_dots "2024-01-02T03:04:05.678Z" = "2024-01-02T03-04-05-678Z".
Proof. reflexivity. Qed.

Example endsWith_zip : endsWith "a-b-2024.zip" ".zip" = true.
Proof. reflexivity. Qed.

Example endsWith_dir : endsWith "a-b-2024" ".zip" = false.
Proof. reflexivity. Qed.

Example replace_first_zip : replace_first ".zip" "" "a.zip.b.zip" = "a.b.zip".
Proof. reflexivity. Qed.

(** ** The effect monad *)

Ltac run_eff :=
  cbv beta delta [bind try_catch perform observe log ret throw] iota zeta.

Lemma app_events_inv (tr evs evs' : Trace) :
  tr ++ evs = tr ++ evs' -> evs = evs'.
Proof. apply app_inv_head. Qed.

(** A computation started at [tr] comes back with a result and new calls
    that satisfy [Q]. *)
Definition Sat {A} (m : M A) (tr : Trace) (Q : Result A -> Trace -> Prop)
  : Prop :=
  exists res evs, m tr = (res, tr ++ evs) /\ Q res evs.

Lemma sat_ret {A} (a : A) tr (Q : Result A -> Trace -> Prop) :
  Q (Ok a) [] -> Sat (ret a) tr Q.
Proof. intros HQ. exists (Ok a), []. unfold ret. now rewrite app_nil_r. Qed.

Lemma sat_throw {A} message tr (Q : Result A -> Trace -> Prop) :
  Q (Throw message) [] -> Sat (throw message) tr Q.
Proof.
  intros HQ. exists (Throw message), []. unfold throw. now rewrite app_nil_r.
Qed.

Lemma sat_log level message tr (Q : Result unit -> Trace -> Prop) :
  Q (Ok tt) [ELog level message] -> Sat (log level message) tr Q.
Proof. intros HQ. now exists (Ok tt), [ELog level message]. Qed.

Lemma sat_observe {A} (read : Trace -> A) tr (Q : Result A -> Trace -> Prop) :
  Q (Ok (read tr)) [] -> Sat (observe read) tr Q.
Proof.
  intros HQ. exists (Ok (read tr)), []. unfold observe. now rewrite app_nil_r.
Qed.

Lemma sat_perform {A} (answer : Trace -> Result A) ev tr
    (Q : Result A -> Trace -> Prop) :
  Q (answer tr) [ev (failure_of (answer tr))] -> Sat (perform answer ev) tr Q.
Proof. intros HQ. now exists (answer tr), [ev (failure_of (answer tr))]. Qed.

Lemma sat_bind {A B} (m : M A) (k : A -> M B) tr
    (Q : Result B -> Trace -> Prop) :
  Sat m tr
    (fun r evs =>
       match r with
       | Ok a => Sat (k a) (tr ++ evs) (fun r' evs' => Q r' (evs ++ evs'))
       | Throw e => Q (Throw e) evs
       end) ->
  Sat (bind m k) tr Q.
Proof.
  intros (r & evs & Hm & Hk). destruct r as [a|e].
  - destruct Hk as (r' & evs' & Hka & HQ).
    exists r', (evs ++ evs'). unfold bind. rewrite Hm, Hka.
    now rewrite app_assoc.
  - exists (Throw e), evs. unfold bind. now rewrite Hm.
Qed.

Lemma sat_try_catch {A} (m : M A) (handler : string -> M A) tr
    (Q : Result A -> Trace -> Prop) :
  Sat m tr
    (fun r evs =>
       match r with
       | Ok a => Q (Ok a) evs
       | Throw e =>
           Sat (handler e) (tr ++ evs) (fun r' evs' => Q r' (evs ++ evs'))
       end) ->
  Sat (try_catch m handler) tr Q.
Proof.
  intros (r & evs & Hm & Hh). destruct r as [a|e].
  - exists (Ok a), evs. unfold try_catch. now rewrite Hm.
  - destruct Hh as (r' & evs' & Hhe & HQ).
    exists r', (evs ++ evs'). unfold try_catch. rewrite Hm, Hhe.
    now rewrite app_assoc.
Qed.

Lemma sat_weaken {A} (m : M A) tr (Q Q' : Result A -> Trace -> Prop) :
  Sat m tr Q -> (forall r evs, Q r evs -> Q' r evs) -> Sat m tr Q'.
Proof. intros (r & evs & Hm & HQ) Himp. exists r, evs. auto. Qed.

(** A loop whose body never throws keeps an invariant of the loop variables
    and of the calls made so far. *)
Lemma sat_for_of {A S} (items : list A) (body : S -> A -> M S)
    (I : list A -> S -> Trace -> Prop) :
  (forall done x s tr evs,
      I done s evs ->
      Sat (body s x) tr
        (fun r evs' => exists s', r = Ok s' /\ I (done ++ [x]) s' (evs ++ evs'))) ->
  forall done s tr evs,
    I done s evs ->
    Sat (for_of items body s) tr
      (fun r evs' => exists s', r = Ok s' /\ I (done ++ items) s' (evs ++ evs')).
Proof.
  intros Hbody. induction items as [|x items IH]; intros done s tr evs HI.
  - apply sat_ret. exists s. now rewrite !app_nil_r.
  - cbn [for_of]. apply sat_bind.
    apply (sat_weaken _ _ _ _ (Hbody done x s tr evs HI)).
    intros r evs1 (s1 & -> & HI1).
    apply (sat_weaken _ _ _ _ (IH (done ++ [x]) s1 (tr ++ evs1) (evs ++ evs1) HI1)).
    intros r evs2 (s2 & -> & HI2).
    exists s2. split; [reflexivity|].
    rewrite <- !app_assoc in HI2. exact HI2.
Qed.

(** A loop whose body may throw keeps an invariant while it runs, and leaves
    what is known of the calls when it throws. *)
Lemma sat_for_of_throwing {A S} (items : list A) (body : S -> A -> M S)
    (I : S -> Trace -> Prop) (T : Trace -> Prop) :
  (forall x s tr evs,
      I s evs ->
      Sat (body s x) tr
        (fun r evs' =>
           match r with
           | Ok s' => I s' (evs ++ evs')
           | Throw _ => T (evs ++ evs')
           end)) ->
  forall s tr evs,
    I s evs ->
    Sat (for_of items body s) tr
      (fun r evs' =>
         match r with
         | Ok s' => I s' (evs ++ evs')
         | Throw _ => T (evs ++ evs')
         end).
Proof.
  intros Hbody. induction items as [|x items IH]; intros s tr evs HI.
  - apply sat_ret. now rewrite app_nil_r.
  - cbn [for_of]. apply sat_bind.
    apply (sat_weaken _ _ _ _ (Hbody x s tr evs HI)).
    intros [s1|e] evs1 H1; [|exact H1].
    apply (sat_weaken _ _ _ _ (IH s1 (tr ++ evs1) (evs ++ evs1) H1)).
    intros [s2|e] evs2 H2; rewrite <- app_assoc in H2; exact H2.
Qed.

(** A loop whose body may throw: an invariant of the items gone through, of
    the loop variables and of the calls made so far; when the body throws,
    what is known of the items seen and of the calls. *)
Lemma sat_for_of_stopping {A S} (items : list A) (body : S -> A -> M S)
    (I : list A -> S -> Trace -> Prop)
    (T : string -> list A -> Trace -> Prop) :
  (forall done x s tr evs,
      I done s evs ->
      Sat (body s x) tr
        (fun r evs' =>
           match r with
           | Ok s' => I (done ++ [x]) s' (evs ++ evs')
           | Throw e => T e (done ++ [x]) (evs ++ evs')
           end)) ->
  forall done s tr evs,
    I done s evs ->
    Sat (for_of items body s) tr
      (fun r evs' =>
         match r with
         | Ok s' => I (done ++ items) s' (evs ++ evs')
         | Throw e =>
             exists seen rest,
               done ++ items = seen ++ rest /\ T e seen (evs ++ evs')
         end).
Proof.
  intros Hbody. induction items as [|x items IH]; intros done s tr evs HI.
  - apply sat_ret. now rewrite !app_nil_r.
  - cbn [for_of]. apply sat_bind.
    apply (sat_weaken _ _ _ _ (Hbody done x s tr evs HI)).
    intros [s1|e] evs1 H1.
    + apply (sat_weaken _ _ _ _
               (IH (done ++ [x]) s1 (tr ++ evs1) (evs ++ evs1) H1)).
      intros [s2|e] evs2 H2; rewrite <- !app_assoc in H2; exact H2.
    + exists (done ++ [x]), items. split; [|exact H1].
      now rewrite <- app_assoc.
Qed.

(** What is said of the runs of a computation holds of the run observed. *)
Lemma sat_run {A} (m : M A) tr res evs (Q : Result A -> Trace -> Prop) :
  Sat m tr Q -> m tr = (res, tr ++ evs) -> Q res evs.
Proof.
  intros (r & evs' & Hm & HQ) Hrun. rewrite Hm in Hrun.
  injection Hrun as -> Hevs. apply app_events_inv in Hevs. now subst.
Qed.

Ltac sat_step :=
  first
    [ apply sat_bind | apply sat_try_catch | apply sat_perform
    | apply sat_log | apply sat_observe | apply sat_ret | apply sat_throw ].

(** ** createBackup *)

Section CreateBackupProperties.

Variable H : Host.

Lemma push_success_record info data :
  push_success H info data =
  push_record info
    (Success (cd_collection data) (Z.of_nat (length (cd_documents data)))
       (stringify_length H data) (Z.of_nat (length (cd_indexes data)))).
Proof. reflexivity. Qed.

Lemma push_failure_record info name message :
  push_failure info name message = push_record info (Failure name message).
Proof.
  unfold push_failure, push_record; simpl. f_equal; lia.
Qed.

(** One iteration never throws and appends exactly one record. *)
Lemma backup_collection_run clusterName dbName backupPath info name tr :
  exists r evs,
    backup_collection H clusterName dbName backupPath info name tr =
      (Ok (push_record info r), tr ++ evs) /\
    Snapshotted H backupPath name r evs.
Proof.
  unfold backup_collection. run_eff.
  destruct (coll_find H tr clusterName dbName name) as [documents|e] eqn:Hfind;
    cbn [failure_of].
  2:{ exists (Failure name e). eexists. split.
      - rewrite push_failure_record, <- !app_assoc. reflexivity.
      - constructor. }
  destruct (coll_listIndexes H _ clusterName dbName name) as [indexes|e]
    eqn:Hindexes; cbn [failure_of].
  2:{ exists (Failure name e). eexists. split.
      - rewrite push_failure_record, <- !app_assoc. reflexivity.
      - constructor. }
  unfold stats_or_empty.
  destruct (coll_stats H _ clusterName dbName name) as [stats|e|e] eqn:Hstats;
    cbn [failure_of].
  3:{ exists (Failure name e). eexists. split.
      - rewrite push_failure_record, <- !app_assoc. reflexivity.
      - constructor. }
  - destruct (fs_writeFile H _ _ _) as [[]|e] eqn:Hwrite; cbn [failure_of].
    + eexists. eexists. split.
      * rewrite push_success_record, <- !app_assoc. reflexivity.
      * apply (snapshot_written H backupPath name
                 {| cd_collection := name; cd_database := dbName;
                    cd_cluster := clusterName; cd_documents := documents;
                    cd_indexes := indexes; cd_stats := stats |}). reflexivity.
    + exists (Failure name e). eexists. split.
      * rewrite push_failure_record, <- !app_assoc. reflexivity.
      * apply (snapshot_write_throws H backupPath name
                 {| cd_collection := name; cd_database := dbName;
                    cd_cluster := clusterName; cd_documents := documents;
                    cd_indexes := indexes; cd_stats := stats |}). reflexivity.
  - destruct (fs_writeFile H _ _ _) as [[]|e'] eqn:Hwrite; cbn [failure_of].
    + eexists. eexists. split.
      * rewrite push_success_record, <- !app_assoc. reflexivity.
      * apply (snapshot_written H backupPath name
                 {| cd_collection := name; cd_database := dbName;
                    cd_cluster := clusterName; cd_documents := documents;
                    cd_indexes := indexes; cd_stats := JObj [] |}). reflexivity.
    + exists (Failure name e'). eexists. split.
      * rewrite push_failure_record, <- !app_assoc. reflexivity.
      * apply (snapshot_write_throws H backupPath name
                 {| cd_collection := name; cd_database := dbName;
                    cd_cluster := clusterName; cd_documents := documents;
                    cd_indexes := indexes; cd_stats := JObj [] |}). reflexivity.
Qed.

Lemma snapshot_loop_run clusterName dbName backupPath names :
  forall info tr,
  exists records evs,
    for_of names (backup_collection H clusterName dbName backupPath) info tr =
      (Ok (fold_left push_record records info), tr ++ evs) /\
    SnapshotLoop H backupPath names records evs.
Proof.
  induction names as [|name names IH]; intros info tr.
  - exists [], []. split; [|constructor].
    cbn. unfold ret. now rewrite app_nil_r.
  - destruct (backup_collection_run clusterName dbName backupPath info name tr)
      as (r & evs & Hstep & Hsnap).
    destruct (IH (push_record info r) (tr ++ evs))
      as (records & evs' & Hloop & Hrest).
    exists (r :: records), (evs ++ evs'). split.
    + cbn [for_of]. unfold bind at 1. rewrite Hstep, Hloop.
      now rewrite app_assoc.
    + now constructor.
Qed.

(** [createBackup] always comes back, in one of the ways of [CreateRun]. *)
Lemma createBackup_run clusterName dbName options tr :
  exists res evs,
    createBackup H clusterName dbName options tr = (res, tr ++ evs) /\
    CreateRun H clusterName dbName options tr res evs.
Proof.
  unfold createBackup.
  unfold try_catch at 1. unfold bind at 1. unfold observe at 1.
  fold (backupName_at H clusterName dbName tr).
  fold (backupPath_at H clusterName dbName tr).
  fold (metadataFile_at H clusterName dbName tr).
  unfold bind at 1, perform at 1.
  destruct (fs_mkdir H tr _) as [[]|e] eqn:Hmkdir; cbn [failure_of].
  2:{ exists (Throw e). eexists. split; [|apply create_mkdir_throws].
      run_eff. now rewrite <- !app_assoc. }
  unfold bind at 1, perform at 1.
  destruct (getDatabase H _ clusterName dbName) as [[]|e] eqn:Hdb;
    cbn [failure_of].
  2:{ exists (Throw e). eexists. split; [|apply create_getDatabase_throws].
      run_eff. now rewrite <- !app_assoc. }
  unfold bind at 1, perform at 1.
  rewrite <- !app_assoc. cbn [app].
  destruct (listCollections H _ clusterName dbName) as [names|e] eqn:Hnames;
    cbn [failure_of].
  2:{ exists (Throw e). eexists. split; [|apply create_listCollections_throws].
      run_eff. now rewrite <- !app_assoc. }
  unfold bind at 1, observe at 1. unfold bind at 1, log at 1.
  unfold bind at 1.
  rewrite <- !app_assoc. cbn [app].
  match goal with
  | |- context [for_of names ?body ?info ?t] =>
      destruct (snapshot_loop_run clusterName dbName
                  (backupPath_at H clusterName dbName tr) names info t)
        as (records & evs & Hloop & Hsnap0)
  end.
  rewrite Hloop.
  assert (Hsnap : Snapshot H clusterName dbName tr names records evs)
    by (split; [exact Hloop | exact Hsnap0]).
  clear Hloop Hsnap0.
  fold (setup_events H clusterName dbName tr).
  change (fold_left push_record records _)
    with (manifest_of H clusterName dbName tr records).
  unfold bind at 1, perform at 1.
  destruct (fs_writeFile H _ _ _) as [[]|e] eqn:Hwrite; cbn [failure_of].
  2:{ exists (Throw e). eexists. split;
        [|apply (create_manifest_throws H clusterName dbName options tr
                   names records evs e Hnames Hsnap)].
      run_eff. rewrite <- !app_assoc. reflexivity. }
  destruct (compress options) eqn:Hcompress.
  - unfold bind at 1, bind at 1, compressBackup, bind at 1, perform at 1.
    fold (archivePath_at H clusterName dbName tr).
    destruct (archive_zip H _ _ _) as [bytes|e] eqn:Hzip; cbn [failure_of].
    2:{ exists (Throw e). eexists. split;
          [|apply (create_archive_throws H clusterName dbName options tr
                     names records evs e Hcompress Hnames Hsnap)].
        run_eff. rewrite <- !app_assoc. reflexivity. }
    unfold log at 1. unfold bind at 1, perform at 1.
    destruct (fs_rmdir H _ _) as [[]|e] eqn:Hrmdir; cbn [failure_of].
    2:{ exists (Throw e). eexists. split;
          [|apply (create_rmdir_throws H clusterName dbName options tr
                     names records evs bytes e Hcompress Hnames Hsnap)].
        run_eff. rewrite <- !app_assoc. reflexivity. }
    eexists. eexists. split;
      [|apply (create_archive H clusterName dbName options tr
                 names records evs bytes Hcompress Hnames Hsnap)].
    run_eff. rewrite <- !app_assoc. unfold result_of. rewrite Hcompress.
    reflexivity.
  - eexists. eexists. split;
      [|apply (create_directory H clusterName dbName options tr
                 names records evs Hcompress Hnames Hsnap)].
    run_eff. rewrite <- !app_assoc. unfold result_of. rewrite Hcompress.
    reflexivity.
Qed.

(** A run that is observed is one of those runs. *)
Lemma createBackup_inv clusterName dbName options tr res evs :
  createBackup H clusterName dbName options tr = (res, tr ++ evs) ->
  CreateRun H clusterName dbName options tr res evs.
Proof.
  intros Hrun.
  destruct (createBackup_run clusterName dbName options tr)
    as (res' & evs' & Heq & Hcreate).
  rewrite Heq in Hrun. injection Hrun as -> Hevs.
  apply app_events_inv in Hevs. now subst.
Qed.

(** *** What the loop leaves in the manifest *)

Lemma fold_push_collections records :
  forall info,
    bi_collections (fold_left push_record records info) =
    bi_collections info ++ records.
Proof.
  induction records as [|r records IH]; intros info; cbn [fold_left].
  - now rewrite app_nil_r.
  - rewrite IH. cbn. now rewrite <- app_assoc.
Qed.

Lemma fold_push_totalSize records :
  forall info,
    bi_totalSize (fold_left push_record records info) =
    bi_totalSize info + sum_Z (map record_size records).
Proof.
  induction records as [|r records IH]; intros info; cbn [fold_left map sum_Z fold_right].
  - lia.
  - rewrite IH. cbn. unfold sum_Z. lia.
Qed.

Lemma fold_push_flags records :
  forall info,
    bi_compressed (fold_left push_record records info) = bi_compressed info /\
    bi_archivePath (fold_left push_record records info) = bi_archivePath info.
Proof.
  induction records as [|r records IH]; intros info; cbn [fold_left].
  - now split.
  - destruct (IH (push_record info r)) as [-> ->]. now split.
Qed.

Lemma manifest_of_collections clusterName dbName tr records :
  bi_collections (manifest_of H clusterName dbName tr records) = records.
Proof. unfold manifest_of. now rewrite fold_push_collections. Qed.

Lemma manifest_of_totalSize clusterName dbName tr records :
  bi_totalSize (manifest_of H clusterName dbName tr records) =
  sum_Z (map record_size records).
Proof. unfold manifest_of. rewrite fold_push_totalSize. cbn. lia. Qed.

Lemma manifest_of_flags clusterName dbName tr records :
  bi_compressed (manifest_of H clusterName dbName tr records) = None /\
  bi_archivePath (manifest_of H clusterName dbName tr records) = None.
Proof. unfold manifest_of. apply fold_push_flags. Qed.

Lemma snapshotted_name backupPath name r evs :
  Snapshotted H backupPath name r evs -> rec_name r = name.
Proof. now destruct 1. Qed.

Lemma snapshotted_events backupPath name r evs :
  Snapshotted H backupPath name r evs ->
  forallb per_collection_event evs = true.
Proof. now destruct 1. Qed.


Lemma snapshot_threw_app name message evs evs' :
  snapshot_threw name message (evs ++ evs') <->
  snapshot_threw name message evs \/ snapshot_threw name message evs'.
Proof. unfold snapshot_threw. now rewrite map_app, in_app_iff. Qed.

(** The record of an iteration is a failure exactly when one of its calls
    threw, and then it carries the message. *)
Lemma snapshotted_failure backupPath name r evs n message :
  Snapshotted H backupPath name r evs ->
  snapshot_threw n message evs <-> r = Failure n message.
Proof.
  unfold snapshot_threw.
  destruct 1 as [m|m|m|data st m Hname|data st Hname];
    cbn [map snapshot_failure In];
    (split;
     [ intros Hin;
       repeat match goal with
         | Hor : _ \/ _ |- _ => destruct Hor as [Hor|Hor]
         end; try discriminate; try contradiction; congruence
     | intros Heq; try discriminate; injection Heq as <- <-;
       rewrite ?Hname; tauto ]).
Qed.

Lemma snapshotted_size backupPath name r evs :
  Snapshotted H backupPath name r evs ->
  record_size r = sum_Z (map (stringify_length H) (exported_payloads evs)).
Proof. destruct 1; cbn; lia. Qed.

Lemma loop_names backupPath names records evs :
  SnapshotLoop H backupPath names records evs ->
  map rec_name records = names.
Proof.
  induction 1 as [|name names r records evs evs' Hstep _ IH]; [reflexivity|].
  cbn [map]. now rewrite IH, (snapshotted_name _ _ _ _ Hstep).
Qed.

Lemma loop_length backupPath names records evs :
  SnapshotLoop H backupPath names records evs ->
  length records = length names.
Proof.
  intros Hloop. rewrite <- (loop_names _ _ _ _ Hloop). now rewrite length_map.
Qed.

Lemma loop_events backupPath names records evs :
  SnapshotLoop H backupPath names records evs ->
  forallb per_collection_event evs = true.
Proof.
  induction 1 as [|name names r records evs evs' Hstep _ IH]; [reflexivity|].
  rewrite forallb_app, IH, (snapshotted_events _ _ _ _ Hstep). reflexivity.
Qed.

Lemma loop_failure backupPath names records evs n message :
  SnapshotLoop H backupPath names records evs ->
  snapshot_threw n message evs <-> In (Failure n message) records.
Proof.
  induction 1 as [|name names r records evs evs' Hstep _ IH].
  - unfold snapshot_threw. cbn. tauto.
  - rewrite snapshot_threw_app, IH, (snapshotted_failure _ _ _ _ _ _ Hstep).
    cbn [In]. intuition congruence.
Qed.

Lemma exported_payloads_app evs evs' :
  exported_payloads (evs ++ evs') =
  exported_payloads evs ++ exported_payloads evs'.
Proof.
  induction evs as [|ev evs IH]; [reflexivity|].
  destruct ev as [| ? [d|m] [e|] | | | | | | | | | | | | | | | | |];
    cbn; now rewrite ?IH.
Qed.

Lemma written_manifests_app evs evs' :
  written_manifests (evs ++ evs') =
  written_manifests evs ++ written_manifests evs'.
Proof.
  induction evs as [|ev evs IH]; [reflexivity|].
  destruct ev as [| ? [d|m] ? | | | | | | | | | | | | | | | | |];
    cbn; now rewrite ?IH.
Qed.

Lemma sum_Z_app l l' : sum_Z (l ++ l') = sum_Z l + sum_Z l'.
Proof.
  unfold sum_Z. induction l as [|x l IH]; cbn; [reflexivity|].
  rewrite IH. lia.
Qed.

Lemma loop_sizes backupPath names records evs :
  SnapshotLoop H backupPath names records evs ->
  sum_Z (map record_size records) =
  sum_Z (map (stringify_length H) (exported_payloads evs)).
Proof.
  induction 1 as [|name names r records evs evs' Hstep _ IH]; [reflexivity|].
  rewrite exported_payloads_app, map_app, sum_Z_app, <- IH.
  rewrite <- (snapshotted_size _ _ _ _ Hstep). reflexivity.
Qed.

(** The loop writes export files only, and calls nothing that can make
    [createBackup] throw. *)
Lemma per_collection_no_manifest evs :
  forallb per_collection_event evs = true -> written_manifests evs = [].
Proof.
  induction evs as [|ev evs IH]; [reflexivity|].
  cbn [forallb]. intros [Hev Hrest]%andb_prop.
  destruct ev as [| ? [d|m] ? | | | | | | | | | | | | | | | | |];
    try discriminate; cbn; auto.
Qed.


(** *** The claims about [createBackup] *)

Ltac same_enumeration :=
  match goal with
  | H1 : enumerated _ _ _ _ = Ok ?a, H2 : enumerated _ _ _ _ = Ok ?b |- _ =>
      assert (a = b) by congruence; subst; clear H2
  end.

(** Where a failed snapshot can sit in the calls of a run: inside the loop. *)
Lemma snapshot_threw_in_loop clusterName dbName tr evs tail name message :
  Forall (fun ev => snapshot_failure ev = None) tail ->
  snapshot_threw name message
    (setup_events H clusterName dbName tr ++
     starting_log clusterName dbName :: evs ++ tail) <->
  snapshot_threw name message evs.
Proof.
  intros Htail.
  change (starting_log clusterName dbName :: evs ++ tail)
    with ([starting_log clusterName dbName] ++ evs ++ tail).
  rewrite !snapshot_threw_app.
  assert (Hnone : ~ snapshot_threw name message tail).
  { unfold snapshot_threw. rewrite in_map_iff. intros (ev & Hev & Hin).
    rewrite List.Forall_forall in Htail. rewrite (Htail ev Hin) in Hev.
    discriminate. }
  unfold snapshot_threw at 1 2. cbn. intuition discriminate.
Qed.

Ltac tail_is_quiet := repeat constructor.

Lemma written_manifests_of_run clusterName dbName tr names records evs tail :
  SnapshotLoop H (backupPath_at H clusterName dbName tr) names records evs ->
  written_manifests
    (setup_events H clusterName dbName tr ++
     starting_log clusterName dbName :: evs ++ tail) =
  written_manifests tail.
Proof.
  intros Hloop. rewrite written_manifests_app. cbn.
  rewrite written_manifests_app.
  now rewrite (per_collection_no_manifest _ (loop_events _ _ _ _ Hloop)).
Qed.

Lemma exported_payloads_of_run clusterName dbName tr evs tail :
  exported_payloads tail = [] ->
  exported_payloads
    (setup_events H clusterName dbName tr ++
     starting_log clusterName dbName :: evs ++ tail) =
  exported_payloads evs.
Proof.
  intros Htail. rewrite exported_payloads_app. cbn.
  now rewrite exported_payloads_app, Htail, app_nil_r.
Qed.

(** C2.  When the enumeration at the start of [createBackup] yields the
    collections [names], the call hands exactly one manifest to
    [fs.writeFile]; it has one record per enumerated collection, in the order
    of enumeration, however many of them failed; a collection is in it as a
    [Failure] record with a message exactly when its snapshot threw that
    message, be it the retrieval of the documents or of the indexes, the
    call of [stats()] or the write of the export file, and not when only the
    promise of [stats()] was rejected; and the manifest of the result has the
    same records. *)
Theorem createBackup_manifest_has_every_collection
    clusterName dbName options tr res evs names :
  createBackup H clusterName dbName options tr = (res, tr ++ evs) ->
  In (EListCollections clusterName dbName None) evs ->
  enumerated H clusterName dbName tr = Ok names ->
  exists manifest,
    written_manifests evs = [manifest] /\
    length (bi_collections manifest) = length names /\
    map rec_name (bi_collections manifest) = names /\
    (forall name message,
        snapshot_threw name message evs <->
        In (Failure name message) (bi_collections manifest)) /\
    (forall r, res = Ok r -> bi_collections (br_info r) = bi_collections manifest).
Proof.
  intros Hrun Hlisted Hnames.
  apply createBackup_inv in Hrun.
  inversion Hrun as
    [e Hres Hevs | e Hres Hevs | e Hres Hevs
    | names' records evs' e Henum [Heq Hloop] Hres Hevs
    | names' records evs' e Hc Henum [Heq Hloop] Hres Hevs
    | names' records evs' bytes e Hc Henum [Heq Hloop] Hres Hevs
    | names' records evs' bytes Hc Henum [Heq Hloop] Hres Hevs
    | names' records evs' Hc Henum [Heq Hloop] Hres Hevs ];
    subst evs;
    try (cbn [In] in Hlisted;
         repeat match goal with
           | Hor : _ \/ _ |- _ => destruct Hor as [Hor|Hor]
           end; try discriminate; contradiction);
    same_enumeration;
    exists (manifest_of H clusterName dbName tr records);
    rewrite (written_manifests_of_run _ _ _ _ _ _ _ Hloop);
    rewrite manifest_of_collections;
    (split; [reflexivity|]);
    (split; [exact (loop_length _ _ _ _ Hloop)|]);
    (split; [exact (loop_names _ _ _ _ Hloop)|]);
    (split;
     [ intros name message;
       rewrite <- (loop_failure _ _ _ _ _ _ Hloop);
       apply snapshot_threw_in_loop; tail_is_quiet
     | intros r Hr; try discriminate; injection Hr as <-; cbn;
       now rewrite ?manifest_of_collections ]).
Qed.




(** C6, as amended.  When [createBackup] resolves with [options.compress]
    set, the manifest in [backup-info.json] was written before the archiver
    ran and has neither [compressed] nor [archivePath]; the two properties
    exist only on the manifest of the result, which is otherwise the
    persisted one. *)
Theorem createBackup_persists_manifest_before_archiving
    clusterName dbName options tr r evs :
  createBackup H clusterName dbName options tr = (Ok r, tr ++ evs) ->
  compress options = true ->
  exists manifest before after,
    evs =
      before ++
      EWriteFile (metadataFile_at H clusterName dbName tr)
        (ManifestJson manifest) None ::
      ECompress (backupPath_at H clusterName dbName tr)
        (archivePath_at H clusterName dbName tr) None :: after /\
    written_manifests evs = [manifest] /\
    bi_compressed manifest = None /\
    bi_archivePath manifest = None /\
    br_info r =
      set_compressed manifest (archivePath_at H clusterName dbName tr) /\
    bi_compressed (br_info r) = Some true /\
    bi_archivePath (br_info r) = Some (archivePath_at H clusterName dbName tr).
Proof.
  intros Hrun Hcompress.
  apply createBackup_inv in Hrun.
  inversion Hrun as
    [ | | | | |
    | names records evs' bytes Hc Henum [Heq Hloop] Hres Hevs
    | names records evs' Hc Henum [Heq Hloop] Hres Hevs ];
    subst evs; [|congruence].
  destruct (manifest_of_flags clusterName dbName tr records) as [Hno Hnone].
  exists (manifest_of H clusterName dbName tr records).
  eexists (setup_events H clusterName dbName tr ++
           starting_log clusterName dbName :: evs'). eexists.
  split; [|split; [|split; [|split; [|split; [|split]]]]].
  - rewrite <- app_assoc. cbn [app]. reflexivity.
  - now rewrite (written_manifests_of_run _ _ _ _ _ _ _ Hloop).
  - exact Hno.
  - exact Hnone.
  - reflexivity.
  - reflexivity.
  - reflexivity.
Qed.

(** One iteration of the loop under steady answers. *)
Lemma backup_collection_steady
    clusterName dbName tr names documents indexes stats written info name evs :
  Steady H clusterName dbName tr names documents indexes stats written ->
  In name names ->
  exists r evs',
    backup_collection H clusterName dbName
      (backupPath_at H clusterName dbName tr) info name (tr ++ evs) =
      (Ok (push_record info r), tr ++ evs ++ evs') /\
    record_size r =
      snapshot_size H clusterName dbName documents indexes stats written name.
Proof.
  intros Hsteady Hin.
  unfold backup_collection, snapshot_size, snapshot_payload. run_eff.
  destruct (Hsteady evs name Hin) as (-> & _).
  destruct (documents name) as [docs|e]; cbn [failure_of].
  2:{ exists (Failure name e). eexists. split; [|reflexivity].
      rewrite push_failure_record, <- ?app_assoc. reflexivity. }
  rewrite <- ?app_assoc.
  destruct (Hsteady (evs ++ [EFind name None]) name Hin) as (_ & -> & _).
  destruct (indexes name) as [idx|e]; cbn [failure_of].
  2:{ exists (Failure name e). eexists. split; [|reflexivity].
      rewrite push_failure_record, <- ?app_assoc. reflexivity. }
  unfold stats_or_empty. rewrite <- ?app_assoc.
  destruct (Hsteady (evs ++ [EFind name None] ++ [EListIndexes name None])
              name Hin) as (_ & _ & -> & _).
  destruct (stats name) as [st|e|e].
  3:{ exists (Failure name e). eexists. split; [|reflexivity].
      rewrite push_failure_record, <- ?app_assoc. reflexivity. }
  - rewrite <- ?app_assoc.
    destruct (Hsteady
                (evs ++ [EFind name None] ++ [EListIndexes name None] ++
                 [ECollStats name None]) name Hin) as (_ & _ & _ & ->).
    destruct (written _) as [[]|e]; cbn [failure_of].
    + eexists. eexists.
      split; [rewrite push_success_record, <- ?app_assoc|]; reflexivity.
    + exists (Failure name e). eexists. split; [|reflexivity].
      rewrite push_failure_record, <- ?app_assoc. reflexivity.
  - rewrite <- ?app_assoc.
    destruct (Hsteady
                (evs ++ [EFind name None] ++ [EListIndexes name None] ++
                 [ECollStats name (Some e)]) name Hin) as (_ & _ & _ & ->).
    destruct (written _) as [[]|e']; cbn [failure_of].
    + eexists. eexists.
      split; [rewrite push_success_record, <- ?app_assoc|]; reflexivity.
    + exists (Failure name e'). eexists. split; [|reflexivity].
      rewrite push_failure_record, <- ?app_assoc. reflexivity.
Qed.

(** The loop under steady answers. *)
Lemma snapshot_loop_steady
    clusterName dbName tr names documents indexes stats written :
  Steady H clusterName dbName tr names documents indexes stats written ->
  forall some info evs,
    incl some names ->
    exists records evs',
      for_of some
        (backup_collection H clusterName dbName
           (backupPath_at H clusterName dbName tr)) info (tr ++ evs) =
        (Ok (fold_left push_record records info), tr ++ evs ++ evs') /\
      sum_Z (map record_size records) =
      sum_Z
        (map (snapshot_size H clusterName dbName documents indexes stats written)
           some).
Proof.
  intros Hsteady some.
  induction some as [|name some IH]; intros info evs Hincl.
  - exists [], []. split; [|reflexivity].
    cbn [for_of fold_left]. unfold ret. now rewrite app_nil_r.
  - destruct (backup_collection_steady clusterName dbName tr names documents
                indexes stats written info name evs Hsteady
                (Hincl name (or_introl eq_refl)))
      as (r & evs1 & Hstep & Hsize).
    destruct (IH (push_record info r) (evs ++ evs1)
                (fun n Hn => Hincl n (or_intror Hn)))
      as (records & evs2 & Hrest & Hsizes).
    exists (r :: records), (evs1 ++ evs2). split.
    + cbn [for_of fold_left]. unfold bind. rewrite Hstep, Hrest.
      now rewrite <- !app_assoc.
    + cbn [map]. unfold sum_Z in *. cbn [fold_right]. now rewrite Hsize, Hsizes.
Qed.

(** C7.  The [size] of the result is the sum of [JSON.stringify(...).length]
    over the payloads of the export files that were written, which is the sum
    of the [size] of the success records of its manifest; every call that
    resolves from the same state, with or without [options.compress],
    reports that same size; and when the answers about the enumerated
    collections are steady during the call, it is the sum, over the
    enumerated collections, of the serialized size of the payload made of
    the documents, the indexes and the statistics that the database answers,
    for those collections whose retrievals and whose write succeed. *)
Theorem createBackup_size_is_logical_size
    clusterName dbName options tr r evs :
  createBackup H clusterName dbName options tr = (Ok r, tr ++ evs) ->
  br_size r = sum_Z (map (stringify_length H) (exported_payloads evs)) /\
  br_size r = sum_Z (map record_size (bi_collections (br_info r))) /\
  (forall options' r' evs',
      createBackup H clusterName dbName options' tr = (Ok r', tr ++ evs') ->
      br_size r' = br_size r) /\
  (forall names documents indexes stats written,
      enumerated H clusterName dbName tr = Ok names ->
      Steady H clusterName dbName tr names documents indexes stats written ->
      br_size r =
      sum_Z
        (map (snapshot_size H clusterName dbName documents indexes stats written)
           names)).
Proof.
  intros Hrun.
  apply createBackup_inv in Hrun.
  assert (Hsize : forall o res es,
             CreateRun H clusterName dbName o tr (Ok res) es ->
             exists names records evs0 tail,
               Snapshot H clusterName dbName tr names records evs0 /\
               enumerated H clusterName dbName tr = Ok names /\
               es = setup_events H clusterName dbName tr ++
                    starting_log clusterName dbName :: evs0 ++ tail /\
               exported_payloads tail = [] /\
               bi_collections (br_info res) = records /\
               br_size res = sum_Z (map record_size records)).
  { intros o res es Hcreate.
    inversion Hcreate as
      [ | | | | |
      | names records evs0 bytes Hc Henum Hsnap Hres Hevs
      | names records evs0 Hc Henum Hsnap Hres Hevs ];
      exists names, records, evs0; eexists;
      (split; [exact Hsnap|]); (split; [exact Henum|]);
      (split; [reflexivity|]); (split; [reflexivity|]); cbn;
      rewrite manifest_of_collections, manifest_of_totalSize; auto. }
  destruct (Hsize _ _ _ Hrun)
    as (names & records & evs0 & tail & [Heq Hloop] & Henum & -> & Htail &
        Hrecords & Hr).
  split; [|split; [|split]].
  - rewrite Hr, (exported_payloads_of_run _ _ _ _ _ Htail).
    exact (loop_sizes _ _ _ _ Hloop).
  - now rewrite Hrecords.
  - intros options' r' evs' Hrun'.
    apply createBackup_inv in Hrun'.
    destruct (Hsize _ _ _ Hrun')
      as (names' & records' & evs0' & tail' & [Heq' Hloop'] & Henum' & _ & _ &
          _ & Hr').
    same_enumeration.
    rewrite Heq in Heq'. injection Heq' as Hsame _.
    rewrite Hr, Hr', <- !(manifest_of_totalSize clusterName dbName tr).
    now rewrite Hsame.
  - intros names' documents indexes stats written Henum' Hsteady.
    same_enumeration.
    destruct (snapshot_loop_steady clusterName dbName tr _ documents indexes
                stats written Hsteady _
                (manifest_of H clusterName dbName tr [])
                (setup_events H clusterName dbName tr ++
                 [starting_log clusterName dbName]) (incl_refl _))
      as (records' & evs' & Hfor & Hsizes).
    unfold snapshot_loop in Heq. rewrite Hfor in Heq.
    injection Heq as Hsame _.
    rewrite Hr, <- Hsizes, <- (manifest_of_totalSize clusterName dbName tr).
    rewrite <- Hsame, fold_push_totalSize. unfold manifest_of. cbn. lia.
Qed.

End CreateBackupProperties.

(** *** The claims about [createBackup] on the example database *)

Lemma createBackup_manifest_has_every_collection_witness :
  let names := ["users"; "orders"; "sessions"; "logs"] in
  let run := four_collections_run {| compress := false |} in
  In (EListCollections "atlas" "shop" None) (snd run) /\
  enumerated four_collections "atlas" "shop" [] = Ok names /\
  exists manifest,
    bi_collections manifest =
      [Success "users" 2 220 2;
       Failure "orders" "Access denied";
       Failure "sessions" "collection.stats is not a function";
       Success "logs" 2 220 2] /\
    written_manifests (snd run) = [manifest] /\
    length (bi_collections manifest) = length names /\
    map rec_name (bi_collections manifest) = names /\
    (forall name message,
        snapshot_threw name message (snd run) <->
        In (Failure name message) (bi_collections manifest)) /\
    (forall r, fst run = Ok r ->
               bi_collections (br_info r) = bi_collections manifest).
Proof.
  intros names run.
  assert (Hlisted : In (EListCollections "atlas" "shop" None) (snd run))
    by (vm_compute; tauto).
  split; [exact Hlisted|]. split; [reflexivity|].
  destruct (createBackup_manifest_has_every_collection four_collections
              "atlas" "shop" {| compress := false |} [] (fst run) (snd run)
              names)
    as (manifest & Hwritten & Hrest).
  - vm_compute. reflexivity.
  - exact Hlisted.
  - reflexivity.
  - exists manifest. split; [|split; [exact Hwritten | exact Hrest]].
    vm_compute in Hwritten. now injection Hwritten as <-.
Defined.



(** C6, as stated, fails: the manifest written for a compressed backup has
    neither [compressed] nor [archivePath], while the manifest of the result
    has both. *)
Lemma createBackup_compressed_manifest_file_has_no_flags :
  let run := orders_denied_run {| compress := true |} in
  exists r manifest,
    fst run = Ok r /\
    written_manifests (snd run) = [manifest] /\
    bi_compressed manifest = None /\
    bi_archivePath manifest = None /\
    bi_compressed (br_info r) = Some true /\
    bi_archivePath (br_info r) <> bi_archivePath manifest.
Proof.
  eexists. eexists. vm_compute.
  repeat split; try reflexivity. discriminate.
Qed.

Lemma createBackup_persists_manifest_before_archiving_witness :
  let run := orders_denied_run {| compress := true |} in
  exists r,
    fst run = Ok r /\
    compress {| compress := true |} = true /\
    exists manifest before after,
      snd run =
        before ++
        EWriteFile (metadataFile_at (host_of orders_denied) "atlas" "shop" [])
          (ManifestJson manifest) None ::
        ECompress (backupPath_at (host_of orders_denied) "atlas" "shop" [])
          (archivePath_at (host_of orders_denied) "atlas" "shop" []) None ::
        after /\
      written_manifests (snd run) = [manifest] /\
      bi_compressed manifest = None /\
      bi_archivePath manifest = None /\
      br_info r =
        set_compressed manifest
          (archivePath_at (host_of orders_denied) "atlas" "shop" []) /\
      bi_compressed (br_info r) = Some true /\
      bi_archivePath (br_info r) =
        Some (archivePath_at (host_of orders_denied) "atlas" "shop" []).
Proof.
  intros run.
  destruct (fst run) as [r|e] eqn:Hres; [|vm_compute in Hres; discriminate].
  exists r. split; [reflexivity|]. split; [reflexivity|].
  apply (createBackup_persists_manifest_before_archiving
           (host_of orders_denied) "atlas" "shop" {| compress := true |} []
           r (snd run)).
  - rewrite <- Hres. vm_compute. reflexivity.
  - reflexivity.
Defined.

Lemma createBackup_size_is_logical_size_witness :
  let H := four_collections in
  let names := ["users"; "orders"; "sessions"; "logs"] in
  let written := fun _ : CollectionData => Ok tt in
  let run := four_collections_run {| compress := true |} in
  exists r,
    fst run = Ok r /\
    br_size r = 440 /\
    enumerated H "atlas" "shop" [] = Ok names /\
    Steady H "atlas" "shop" [] names four_documents four_indexes four_stats
      written /\
    map (snapshot_size H "atlas" "shop" four_documents four_indexes four_stats
           written) names = [220; 0; 0; 220] /\
    br_size r =
      sum_Z
        (map (snapshot_size H "atlas" "shop" four_documents four_indexes
                four_stats written) names) /\
    br_size r =
      sum_Z (map (stringify_length H) (exported_payloads (snd run))) /\
    br_size r = sum_Z (map record_size (bi_collections (br_info r))) /\
    (forall options' r' evs',
        createBackup H "atlas" "shop" options' [] = (Ok r', [] ++ evs') ->
        br_size r' = br_size r).
Proof.
  intros H names written run.
  destruct (fst run) as [r|e] eqn:Hres; [|vm_compute in Hres; discriminate].
  assert (Hsteady :
    Steady H "atlas" "shop" [] names four_documents four_indexes four_stats
      written).
  { intros evs name Hin. repeat split. }
  assert (Henum : enumerated H "atlas" "shop" [] = Ok names) by reflexivity.
  destruct (createBackup_size_is_logical_size H "atlas" "shop"
              {| compress := true |} [] r (snd run))
    as (Hpayloads & Hrecords & Hsame & Hanswers).
  { rewrite <- Hres. vm_compute. reflexivity. }
  exists r. split; [reflexivity|].
  split; [vm_compute in Hres; now injection Hres as <-|].
  split; [exact Henum|]. split; [exact Hsteady|].
  split; [reflexivity|].
  split; [exact (Hanswers names _ _ _ _ Henum Hsteady)|].
  split; [exact Hpayloads|]. split; [exact Hrecords | exact Hsame].
Defined.

(** ** restoreBackup *)

Section RestoreProperties.

Variable H : Host.

(** The loop over the indexes of an export file never throws, and only
    creates indexes of the collection. *)
Lemma restore_indexes_sat targetCluster targetDatabase name indexes tr :
  Sat (for_of indexes (restore_index H targetCluster targetDatabase name) tt) tr
    (fun r evs => r = Ok tt /\ forallb (restore_event_of name) evs = true).
Proof.
  refine (sat_weaken _ _ _ _
            (sat_for_of indexes _
               (fun _ _ evs => forallb (restore_event_of name) evs = true)
               _ [] tt tr [] eq_refl) _).
  - intros done index [] tr' evs Hevs. unfold restore_index.
    destruct (String.eqb (ix_name index) "_id_").
    + apply sat_ret. exists tt. now rewrite app_nil_r.
    + apply sat_try_catch, sat_perform.
      destruct (coll_createIndex H tr' targetCluster targetDatabase name index)
        as [[]|e]; cbn [failure_of].
      * exists tt. rewrite forallb_app, Hevs. cbn. now rewrite String.eqb_refl.
      * apply sat_log. exists tt. rewrite !forallb_app, Hevs. cbn.
        now rewrite String.eqb_refl.
  - intros r evs ([] & -> & Hevs). auto.
Qed.

Ltac events_ok :=
  rewrite ?forallb_app; cbn [forallb restore_event_of];
  rewrite ?String.eqb_refl;
  repeat match goal with
    | Hev : forallb _ _ = true |- _ => rewrite Hev
    end; reflexivity.

(** One iteration of the restore loop on a record: it never throws; a
    record whose [error] is truthy is skipped; the calls it makes concern its
    own collection; and what it pushes comes from the export file it
    read. *)
Lemma restore_collection_sat dir targetCluster targetDatabase options
    restored r tr :
  Sat (restore_collection H dir targetCluster targetDatabase options restored
         (Some r))
    tr
    (fun res evs =>
       exists restored',
         res = Ok restored' /\
         (truthy_string (rec_error r) = true -> restored' = restored /\ evs = []) /\
         forallb (restore_event_of (rec_name r)) evs = true /\
         (restored' = restored \/
          exists rc file,
            read_export H tr (path_join H dir (rec_name r +:+ ".json")) = Ok file /\
            restored_entry (rec_name r) file = Some rc /\
            restored' = restored ++ [rc])).
Proof.
  unfold restore_collection.
  destruct (truthy_string (rec_error r)) eqn:Htruthy.
  { apply sat_ret. exists restored. auto. }
  assert (Hcaught :
    forall tr' evs,
      forallb (restore_event_of (rec_name r)) evs = true ->
      Sat (log Error ("Failed to restore collection " +:+ rec_name r +:+ ":") ;;;
           ret restored) tr'
        (fun res evs' =>
           exists restored',
             res = Ok restored' /\
             (false = true -> restored' = restored /\ evs ++ evs' = []) /\
             forallb (restore_event_of (rec_name r)) (evs ++ evs') = true /\
             (restored' = restored \/
              exists rc file,
                read_export H tr (path_join H dir (rec_name r +:+ ".json")) = Ok file /\
                restored_entry (rec_name r) file = Some rc /\
                restored' = restored ++ [rc]))).
  { intros tr' evs Hevs. apply sat_bind, sat_log, sat_ret.
    exists restored. split; [reflexivity|]. split; [discriminate|].
    split; [events_ok | now left]. }
  apply sat_try_catch, sat_bind, sat_perform.
  destruct (read_export H tr _) as [file|e] eqn:Hread; cbn [failure_of].
  2:{ apply Hcaught. reflexivity. }
  apply sat_bind.
  apply (sat_weaken _ _
           (fun res evs =>
              res = Ok tt /\ forallb (restore_event_of (rec_name r)) evs = true)).
  { destruct (dropExisting options).
    - apply sat_try_catch, sat_perform.
      destruct (coll_drop H _ targetCluster targetDatabase (rec_name r))
        as [[]|e]; cbn [failure_of].
      + split; [reflexivity | events_ok].
      + apply sat_ret. split; [reflexivity | events_ok].
    - apply sat_ret. now split. }
  intros res devs [-> Hdevs].
  apply sat_bind. unfold js_defined.
  destruct (ef_documents file) as [documents|] eqn:Hdocs.
  2:{ apply sat_throw. rewrite !app_assoc. apply Hcaught. events_ok. }
  apply sat_ret, sat_bind.
  apply (sat_weaken _ _
           (fun res evs =>
              forallb (restore_event_of (rec_name r)) evs = true)).
  { destruct (0 <? length documents)%nat.
    - apply sat_perform. events_ok.
    - now apply sat_ret. }
  intros [[]|e] ievs Hievs.
  2:{ rewrite !app_assoc. apply Hcaught. events_ok. }
  apply sat_bind.
  destruct (ef_indexes file) as [indexes|] eqn:Hixs.
  2:{ apply sat_throw. rewrite !app_assoc. apply Hcaught. events_ok. }
  apply sat_ret, sat_bind.
  apply (sat_weaken _ _ _ _
           (restore_indexes_sat targetCluster targetDatabase (rec_name r)
              indexes _)).
  intros res xevs [-> Hxevs].
  apply sat_bind, sat_log, sat_ret.
  eexists. split; [reflexivity|]. split; [discriminate|].
  split; [events_ok|].
  right. eexists. exists file. split; [reflexivity|].
  unfold restored_entry. rewrite Hdocs, Hixs. auto.
Qed.

Lemma restored_entry_name name file rc :
  restored_entry name file = Some rc -> rc_name rc = name.
Proof.
  unfold restored_entry.
  destruct (ef_documents file), (ef_indexes file); try discriminate.
  now intros [= <-].
Qed.

Lemma restore_events_are_calls name evs :
  forallb (restore_event_of name) evs = true ->
  forallb restore_call evs = true.
Proof.
  induction evs as [|ev evs IH]; [reflexivity|].
  cbn [forallb]. intros [Hev Hrest]%andb_prop. rewrite (IH Hrest), andb_true_r.
  now destruct ev.
Qed.

Lemma restore_events_elsewhere n name evs :
  n <> name ->
  forallb (restore_event_of n) evs = true ->
  existsb (changes_collection name) evs = false.
Proof.
  intros Hne. induction evs as [|ev evs IH]; [reflexivity|].
  cbn [forallb existsb]. intros [Hev Hrest]%andb_prop.
  rewrite (IH Hrest), orb_false_r.
  destruct ev; try reflexivity; cbn in Hev |- *;
    apply String.eqb_eq in Hev; subst;
    now apply String.eqb_neq.
Qed.

(** The restore loop throws only on a [null] element; what it pushes comes
    from export files; and a collection whose records all carry a truthy
    [error] is left alone, however the loop ends. *)
Lemma restore_loop_sat dir targetCluster targetDatabase options records
    restored0 tr :
  Sat (for_of records
         (restore_collection H dir targetCluster targetDatabase options)
         restored0) tr
    (fun res evs =>
       forallb restore_call evs = true /\
       (forall name,
           only_failed name records ->
           existsb (changes_collection name) evs = false) /\
       match res with
       | Ok restored =>
           (Forall (RestoredFrom H dir) restored0 ->
            Forall (RestoredFrom H dir) restored) /\
           (forall name,
               only_failed name records ->
               forall rc, In rc restored -> rc_name rc = name -> In rc restored0)
       | Throw e =>
           e = "Cannot read properties of null (reading 'error')" /\
           In None records
       end).
Proof.
  refine (sat_weaken _ _ _ _
    (sat_for_of_stopping records _
       (fun done restored evs =>
          (Forall (RestoredFrom H dir) restored0 ->
           Forall (RestoredFrom H dir) restored) /\
          (forall name,
              only_failed name done ->
              existsb (changes_collection name) evs = false /\
              forall rc, In rc restored -> rc_name rc = name -> In rc restored0) /\
          forallb restore_call evs = true)
       (fun e seen evs =>
          e = "Cannot read properties of null (reading 'error')" /\
          In None seen /\
          (forall name,
              only_failed name seen ->
              existsb (changes_collection name) evs = false) /\
          forallb restore_call evs = true)
       _ [] restored0 tr [] _) _).
  - intros done [r|] restored tr' evs (Hfrom & Hfailed & Hcalls).
    2:{ unfold restore_collection. apply sat_throw. rewrite app_nil_r.
        split; [reflexivity|]. split; [apply in_app_iff; right; now left|].
        split; [|exact Hcalls].
        intros name Hall. apply Hfailed.
        intros r0 Hin. apply Hall. apply in_app_iff. now left. }
    apply (sat_weaken _ _ _ _
             (restore_collection_sat dir targetCluster targetDatabase options
                restored r tr')).
    intros res evs' (restored' & -> & Hskip & Hevents & Hpushed).
    split; [|split].
    + intros H0. specialize (Hfrom H0).
      destruct Hpushed as [->|(rc & file & Hread & Hentry & ->)]; [exact Hfrom|].
      apply Forall_app. split; [exact Hfrom|]. constructor; [|constructor].
      pose proof (restored_entry_name _ _ _ Hentry) as Hname.
      exists tr', file. now rewrite Hname.
    + intros name Hall.
      assert (Hdone : only_failed name done).
      { intros r0 Hin. apply Hall. apply in_app_iff. now left. }
      destruct (Hfailed name Hdone) as [Hquiet Hnone].
      rewrite existsb_app, Hquiet. cbn [orb].
      destruct (String.eqb_spec (rec_name r) name) as [Heq|Hne].
      * destruct Hskip as [-> ->].
        { apply Hall; [apply in_app_iff; right; now left | exact Heq]. }
        now split.
      * split; [exact (restore_events_elsewhere _ _ _ Hne Hevents)|].
        destruct Hpushed as [->|(rc & file & Hread & Hentry & ->)];
          [exact Hnone|].
        intros rc' [Hin|[<-|[]]]%in_app_iff Hrc; [now apply Hnone|].
        apply restored_entry_name in Hentry. congruence.
    + rewrite forallb_app, Hcalls.
      exact (restore_events_are_calls _ _ Hevents).
  - split; [auto|]. split; [|reflexivity].
    intros name _. split; [reflexivity | auto].
  - intros [restored|e] evs; cbn [app].
    + intros (Hfrom & Hfailed & Hcalls).
      split; [exact Hcalls|]. split; [intros name Hall; now apply Hfailed|].
      split; [exact Hfrom|]. intros name Hall. now apply Hfailed.
    + intros (seen & rest & Hsplit & -> & Hnull & Hquiet & Hcalls).
      split; [exact Hcalls|]. split.
      * intros name Hall. apply Hquiet.
        intros r0 Hin. apply Hall. rewrite Hsplit. apply in_app_iff. now left.
      * split; [reflexivity|]. rewrite Hsplit. apply in_app_iff. now left.
Qed.

Ltac flatten_events :=
  rewrite <- ?app_assoc; cbn [app]; rewrite ?app_nil_r.

Ltac by_run R :=
  let Hrun := fresh "Hrun" in
  pose proof R as Hrun;
  unfold restore_opening in Hrun;
  rewrite <- ?app_assoc in Hrun; cbn [app] in Hrun;
  exact Hrun.

(** [restoreBackup] always comes back, in one of the ways of [RestoreRun]. *)
Lemma restoreBackup_sat backupPath targetCluster targetDatabase options tr :
  Sat (restoreBackup H backupPath targetCluster targetDatabase options) tr
    (RestoreRun H backupPath targetCluster targetDatabase options tr).
Proof.
  unfold restoreBackup.
  apply sat_try_catch, sat_bind.
  apply (sat_weaken _ _
           (fun r evs =>
              (r = Ok (restore_dir H backupPath) /\ evs = unpacked H backupPath) \/
              (endsWith backupPath ".zip" = true /\
               exists e, r = Throw e /\
                         evs = [EExtract backupPath (tempDir H) (Some e)]))).
  { unfold restore_dir, unpacked.
    destruct (endsWith backupPath ".zip") eqn:Hzip.
    - apply sat_bind, sat_perform.
      destruct (extract_zip H tr backupPath (tempDir H)) as [[]|e];
        cbn [failure_of].
      + apply sat_ret. left. now rewrite app_nil_r.
      + right. split; [reflexivity|]. now exists e.
    - apply sat_ret. now left. }
  intros r evs [[-> ->]|(Hzip & e & -> & ->)].
  2:{ apply sat_bind, sat_log, sat_throw. flatten_events.
      now apply restore_extract_throws. }
  apply sat_bind, sat_perform.
  fold (restore_metadataFile H backupPath).
  fold (loaded_manifest H backupPath tr).
  destruct (loaded_manifest H backupPath tr) as [[manifest|]|e] eqn:Hloaded;
    cbn [failure_of].
  3:{ apply sat_bind, sat_log, sat_throw. flatten_events.
      apply restore_manifest_throws. }
  2:{ apply sat_bind, sat_perform.
      destruct (getDatabase H _ targetCluster targetDatabase) as [[]|e];
        cbn [failure_of].
      2:{ apply sat_bind, sat_log, sat_throw. flatten_events.
          apply restore_getDatabase_throws. }
      apply sat_bind, sat_log, sat_bind. unfold js_defined.
      apply sat_throw, sat_bind, sat_log, sat_throw. flatten_events.
      by_run (restore_null_manifest H backupPath targetCluster targetDatabase
                options tr Hloaded). }
  apply sat_bind, sat_perform.
  destruct (getDatabase H _ targetCluster targetDatabase) as [[]|e];
    cbn [failure_of].
  2:{ apply sat_bind, sat_log, sat_throw. flatten_events.
      apply restore_getDatabase_throws. }
  apply sat_bind, sat_log, sat_bind. unfold js_defined.
  apply sat_ret, sat_bind.
  destruct (mf_collections manifest) as [records|] eqn:Hrecords.
  2:{ apply sat_throw, sat_bind, sat_log, sat_throw. flatten_events.
      by_run (restore_no_collections H backupPath targetCluster targetDatabase
                options tr manifest Hloaded Hrecords). }
  apply sat_ret, sat_bind.
  destruct (restore_loop_sat (restore_dir H backupPath) targetCluster
              targetDatabase options records []
              (tr ++ restore_opening H backupPath targetCluster targetDatabase))
    as ([restored|e] & evs & Hloop & _ & _ & Hres).
  2:{ destruct Hres as [-> Hnull].
      exists (Throw "Cannot read properties of null (reading 'error')"), evs.
      split.
      { pose proof Hloop as Hloop'. unfold restore_opening in Hloop'.
        rewrite <- ?app_assoc in Hloop'. cbn [app] in Hloop'.
        flatten_events. exact Hloop'. }
      apply sat_bind, sat_log, sat_throw. flatten_events.
      by_run (restore_null_entry H backupPath targetCluster targetDatabase
                options tr manifest records evs Hloaded Hrecords Hnull Hloop). }
  exists (Ok restored), evs. split.
  { pose proof Hloop as Hloop'. unfold restore_opening in Hloop'.
    rewrite <- ?app_assoc in Hloop'. cbn [app] in Hloop'.
    flatten_events. exact Hloop'. }
  apply sat_bind. unfold cleaned.
  destruct (endsWith backupPath ".zip") eqn:Hzip.
  - apply sat_perform.
    assert (Hdir : restore_dir H backupPath = tempDir H)
      by (unfold restore_dir; now rewrite Hzip).
    rewrite Hdir in *.
    destruct (fs_rmdir H _ (tempDir H)) as [[]|e]; cbn [failure_of].
    + apply sat_bind, sat_log, sat_ret. flatten_events.
      pose proof (restore_done H backupPath targetCluster targetDatabase
                    options tr manifest records restored evs Hloaded Hrecords)
        as Hrun.
      rewrite Hdir in Hrun. specialize (Hrun Hloop).
      unfold restore_opening, cleaned in Hrun. rewrite Hzip in Hrun.
      rewrite <- ?app_assoc in Hrun. exact Hrun.
    + apply sat_bind, sat_log, sat_throw. flatten_events.
      pose proof (restore_rmdir_throws H backupPath targetCluster
                    targetDatabase options tr manifest records restored evs e
                    Hzip Hloaded Hrecords) as Hrun.
      rewrite Hdir in Hrun. specialize (Hrun Hloop).
      unfold restore_opening in Hrun.
      rewrite <- ?app_assoc in Hrun. exact Hrun.
  - apply sat_ret, sat_bind, sat_log, sat_ret. flatten_events.
    pose proof (restore_done H backupPath targetCluster targetDatabase
                  options tr manifest records restored evs Hloaded Hrecords
                  Hloop) as Hrun.
    unfold restore_opening, cleaned in Hrun. rewrite Hzip in Hrun.
    rewrite <- ?app_assoc in Hrun. exact Hrun.
Qed.

Lemma restoreBackup_inv backupPath targetCluster targetDatabase options tr
    res evs :
  restoreBackup H backupPath targetCluster targetDatabase options tr =
    (res, tr ++ evs) ->
  RestoreRun H backupPath targetCluster targetDatabase options tr res evs.
Proof. apply sat_run, restoreBackup_sat. Qed.

(** *** The claims about [restoreBackup] *)

(** The run of [restoreBackup] on an archive whose manifest cannot be
    loaded: the extraction, the read and the error log. *)
Lemma restoreBackup_manifest_failure_run
    backupPath targetCluster targetDatabase options tr e :
  endsWith backupPath ".zip" = true ->
  extract_zip H tr backupPath (tempDir H) = Ok tt ->
  loaded_manifest H backupPath tr = Throw e ->
  restoreBackup H backupPath targetCluster targetDatabase options tr =
    (Throw e,
     tr ++ [EExtract backupPath (tempDir H) None;
            EReadFile (restore_metadataFile H backupPath) (Some e);
            restore_failed_log]).
Proof.
  intros Hzip Hextract Hloaded.
  unfold loaded_manifest, restore_metadataFile, unpacked, restore_dir in Hloaded.
  rewrite Hzip in Hloaded.
  unfold restoreBackup. run_eff. rewrite Hzip, Hextract. cbn [failure_of].
  rewrite Hloaded. cbn [failure_of]. rewrite <- !app_assoc.
  unfold restore_metadataFile, restore_dir. now rewrite Hzip.
Qed.

Lemma restore_calls_remove_nothing dir evs :
  forallb restore_call evs = true -> removed dir evs = false.
Proof.
  unfold removed. induction evs as [|ev evs IH]; [reflexivity|].
  cbn [forallb existsb]. intros [Hev Hrest]%andb_prop.
  rewrite (IH Hrest), orb_false_r. now destruct ev.
Qed.

(** C4 (the code breaks it).  Whenever [restoreBackup] rejects after it has
    expanded the archive, be it because the manifest cannot be loaded,
    because the target database cannot be resolved, because the manifest has
    no list of collections or a [null] in it, or because the removal itself
    fails, the scratch directory has not been removed. *)
Theorem restoreBackup_leaves_scratch_directory
    backupPath targetCluster targetDatabase options tr e evs :
  restoreBackup H backupPath targetCluster targetDatabase options tr =
    (Throw e, tr ++ evs) ->
  In (EExtract backupPath (tempDir H) None) evs ->
  removed (tempDir H) evs = false.
Proof.
  intros Hrun Hextracted. apply restoreBackup_inv in Hrun.
  inversion Hrun as
    [ e' Hzip Hres Hevs | e' Hres Hevs | e' Hres Hevs
    | manifest Hl Hr Hres Hevs
    | manifest records restored evs' e' Hzip Hl Hr Hloop Hres Hevs |
    | manifest records evs' Hl Hr Hnull Hloop Hres Hevs
    | Hl Hres Hevs ];
    subst evs; unfold removed, restore_opening, unpacked in *;
    try (destruct (endsWith backupPath ".zip"); reflexivity).
  all: pose proof (sat_run _ _ _ _ _
                     (restore_loop_sat _ _ _ _ records [] _) Hloop)
         as (Hcalls & _).
  all: pose proof (restore_calls_remove_nothing (tempDir H) _ Hcalls) as Hnone.
  all: unfold removed in Hnone.
  all: rewrite !existsb_app, Hnone.
  all: destruct (endsWith backupPath ".zip"); reflexivity.
Qed.

(** On the paths that reach the end of [restoreBackup], the scratch directory
    of an archive has been removed. *)
Lemma restoreBackup_cleans_up_on_success
    backupPath targetCluster targetDatabase options tr r evs :
  restoreBackup H backupPath targetCluster targetDatabase options tr =
    (Ok r, tr ++ evs) ->
  endsWith backupPath ".zip" = true ->
  removed (tempDir H) evs = true.
Proof.
  intros Hrun Hzip. apply restoreBackup_inv in Hrun.
  inversion Hrun as [ | | | | | manifest records restored evs' Hl Hr Hloop | | ].
  unfold removed, cleaned. rewrite Hzip, !existsb_app. cbn.
  rewrite String.eqb_refl. now rewrite !orb_true_r.
Qed.

Lemma opening_changes_nothing backupPath targetCluster targetDatabase name :
  existsb (changes_collection name)
    (restore_opening H backupPath targetCluster targetDatabase) = false.
Proof.
  unfold restore_opening, unpacked. now destruct (endsWith backupPath ".zip").
Qed.

(** C8, as amended.  A record whose [error] is a non-empty string is skipped:
    its iteration makes no call and pushes nothing.  Hence, whatever the
    outcome of [restoreBackup], a collection all of whose records in the
    loaded manifest carry a truthy [error] is neither dropped nor inserted
    into nor indexed, and is not in [restoredCollections]. *)
Theorem restoreBackup_skips_failed_records
    backupPath targetCluster targetDatabase options tr res evs :
  restoreBackup H backupPath targetCluster targetDatabase options tr =
    (res, tr ++ evs) ->
  (forall restored name message tr',
      message <> "" ->
      restore_collection H (restore_dir H backupPath) targetCluster
        targetDatabase options restored (Some (Failure name message)) tr' =
      (Ok restored, tr')) /\
  (forall manifest records name,
      loaded_manifest H backupPath tr = Ok (Some manifest) ->
      mf_collections manifest = Some records ->
      only_failed name records ->
      existsb (changes_collection name) evs = false /\
      forall r, res = Ok r ->
                ~ In name (map rc_name (rr_restoredCollections r))).
Proof.
  intros Hrun. split.
  - intros restored name message tr' Hmessage.
    unfold restore_collection. cbn.
    destruct (String.eqb_spec message "") as [?|_]; [contradiction|].
    reflexivity.
  - intros manifest records name Hloaded Hrecords Hfailed.
    apply restoreBackup_inv in Hrun.
    inversion Hrun as
      [ e Hzip Hres Hevs | e Hres Hevs | e Hres Hevs
      | manifest' Hl Hr Hres Hevs
      | manifest' records' restored evs' e Hzip Hl Hr Hloop Hres Hevs
      | manifest' records' restored evs' Hl Hr Hloop Hres Hevs
      | manifest' records' evs' Hl Hr Hnull Hloop Hres Hevs
      | Hl Hres Hevs ];
      subst evs; try subst res.
    + split; [reflexivity | discriminate].
    + split; [|discriminate]. unfold unpacked.
      now destruct (endsWith backupPath ".zip").
    + split; [|discriminate]. unfold unpacked.
      now destruct (endsWith backupPath ".zip").
    + split; [|discriminate].
      now rewrite existsb_app, opening_changes_nothing.
    + assert (records' = records) by congruence. subst records'.
      pose proof (sat_run _ _ _ _ _
                    (restore_loop_sat _ _ _ _ records [] _) Hloop)
        as (_ & Hquiet & _).
      split; [|discriminate].
      now rewrite !existsb_app, opening_changes_nothing, (Hquiet name Hfailed).
    + assert (records' = records) by congruence. subst records'.
      pose proof (sat_run _ _ _ _ _
                    (restore_loop_sat _ _ _ _ records [] _) Hloop)
        as (_ & Hquiet & _ & Hempty).
      split.
      * rewrite !existsb_app, opening_changes_nothing, (Hquiet name Hfailed).
        unfold cleaned. now destruct (endsWith backupPath ".zip").
      * intros r [= <-]. cbn. intros (rc & Hname & Hin)%in_map_iff.
        exact (Hempty name Hfailed rc Hin Hname).
    + assert (records' = records) by congruence. subst records'.
      pose proof (sat_run _ _ _ _ _
                    (restore_loop_sat _ _ _ _ records [] _) Hloop)
        as (_ & Hquiet & _).
      split; [|discriminate].
      now rewrite !existsb_app, opening_changes_nothing, (Hquiet name Hfailed).
    + split; [|discriminate].
      now rewrite existsb_app, opening_changes_nothing.
Qed.

(** C9.  Every element of [restoredCollections] comes from an export file
    that was read, and its [indexes] is the number of entries of the file's
    index list minus one, whatever the entries are: minus one when the list
    is empty. *)
Theorem restoreBackup_index_count_is_length_minus_one
    backupPath targetCluster targetDatabase options tr r evs :
  restoreBackup H backupPath targetCluster targetDatabase options tr =
    (Ok r, tr ++ evs) ->
  forall rc,
    In rc (rr_restoredCollections r) ->
    exists tr' file documents indexes,
      read_export H tr'
        (path_join H (restore_dir H backupPath) (rc_name rc +:+ ".json")) =
        Ok file /\
      ef_documents file = Some documents /\
      ef_indexes file = Some indexes /\
      rc_indexes rc = Z.of_nat (length indexes) - 1 /\
      (indexes = [] -> rc_indexes rc = -1).
Proof.
  intros Hrun rc Hin. apply restoreBackup_inv in Hrun.
  inversion Hrun
    as [ | | | | | manifest records restored evs' Hl Hr Hloop Hres | | ].
  subst r. cbn in Hin.
  pose proof (sat_run _ _ _ _ _
                (restore_loop_sat _ _ _ _ records [] _) Hloop)
    as (_ & _ & Hfrom & _).
  specialize (Hfrom ltac:(constructor)).
  rewrite List.Forall_forall in Hfrom.
  destruct (Hfrom rc Hin) as (tr' & file & Hread & Hentry).
  unfold restored_entry in Hentry.
  destruct (ef_documents file) as [documents|] eqn:Hdocs; [|discriminate].
  destruct (ef_indexes file) as [indexes|] eqn:Hixs; [|discriminate].
  injection Hentry as <-. cbn in *.
  exists tr', file, documents, indexes.
  repeat split; auto. now intros ->.
Qed.

End RestoreProperties.

(** *** The claims about [restoreBackup] on the example backups *)

Lemma restoreBackup_leaves_scratch_directory_witness :
  let H := host_of manifest_unreadable in
  let archive := "/srv/backups/atlas-shop-2024-03-01T02-00-00-000Z.zip" in
  let run :=
    restoreBackup H archive "staging" "shop" {| dropExisting := true |} [] in
  fst run = Throw "Unexpected end of JSON input" /\
  In (EExtract archive (tempDir H) None) (snd run) /\
  removed (tempDir H) (snd run) = false.
Proof.
  intros H archive run.
  assert (Hextracted : In (EExtract archive (tempDir H) None) (snd run))
    by (vm_compute; tauto).
  split; [reflexivity|]. split; [exact Hextracted|].
  apply (restoreBackup_leaves_scratch_directory H archive "staging" "shop"
           {| dropExisting := true |} [] "Unexpected end of JSON input"
           (snd run)).
  - vm_compute. reflexivity.
  - exact Hextracted.
Defined.

(** C8, as stated, fails: the record of [users] carries an error, the empty
    message, and [users] is dropped, filled and reported as restored. *)
Lemma restoreBackup_restores_record_with_empty_error :
  let run := restore_run blank_error "/srv/backups/b1" in
  loaded_manifest (host_of blank_error) "/srv/backups/b1" [] =
    Ok (Some (sample_manifest [Failure "users" ""])) /\
  In (EDrop "users" None) (snd run) /\
  In (EInsertMany "users" sample_documents None) (snd run) /\
  exists r,
    fst run = Ok r /\ map rc_name (rr_restoredCollections r) = ["users"].
Proof.
  split; [reflexivity|]. split; [vm_compute; tauto|].
  split; [vm_compute; tauto|]. eexists. split; reflexivity.
Qed.

Lemma restoreBackup_skips_failed_records_witness :
  let H := host_of orders_failed in
  let run := restore_run orders_failed "/srv/backups/b1" in
  only_failed "orders"
    [Some (Success "users" 2 220 2); Some (Failure "orders" "Access denied")] /\
  (forall restored tr',
      restore_collection H (restore_dir H "/srv/backups/b1") "staging" "shop"
        {| dropExisting := true |} restored
        (Some (Failure "orders" "Access denied")) tr' = (Ok restored, tr')) /\
  existsb (changes_collection "orders") (snd run) = false /\
  forall r, fst run = Ok r ->
            ~ In "orders" (map rc_name (rr_restoredCollections r)).
Proof.
  intros H run.
  assert (Hfailed : only_failed "orders"
            [Some (Success "users" 2 220 2);
             Some (Failure "orders" "Access denied")]).
  { intros r [[= <-]|[[= <-]|[]]] Hname; [discriminate | reflexivity]. }
  destruct (restoreBackup_skips_failed_records H "/srv/backups/b1" "staging"
              "shop" {| dropExisting := true |} [] (fst run) (snd run))
    as [Hskip Hquiet].
  { vm_compute. reflexivity. }
  split; [exact Hfailed|]. split.
  - intros restored tr'. now apply Hskip.
  - exact (Hquiet _ _ "orders" eq_refl eq_refl Hfailed).
Defined.

Lemma restoreBackup_index_count_is_length_minus_one_witness :
  let H := host_of no_indexes in
  let run := restore_run no_indexes "/srv/backups/b1" in
  exists r,
    fst run = Ok r /\
    rr_restoredCollections r =
      [{| rc_name := "users"; rc_documents := 2; rc_indexes := -1 |}] /\
    forall rc,
      In rc (rr_restoredCollections r) ->
      exists tr' file documents indexes,
        read_export H tr'
          (path_join H (restore_dir H "/srv/backups/b1")
             (rc_name rc +:+ ".json")) = Ok file /\
        ef_documents file = Some documents /\
        ef_indexes file = Some indexes /\
        rc_indexes rc = Z.of_nat (length indexes) - 1 /\
        (indexes = [] -> rc_indexes rc = -1).
Proof.
  intros H run.
  destruct (fst run) as [r|e] eqn:Hres; [|vm_compute in Hres; discriminate].
  exists r. split; [reflexivity|]. split.
  - vm_compute in Hres. now injection Hres as <-.
  - apply (restoreBackup_index_count_is_length_minus_one H "/srv/backups/b1"
             "staging" "shop" {| dropExisting := true |} [] r (snd run)).
    rewrite <- Hres. vm_compute. reflexivity.
Defined.

(** ** listBackups *)

Section InventoryProperties.

Variable H : Host.

Lemma insert_newest_first_In b x sorted :
  In b (insert_newest_first x sorted) <-> b = x \/ In b sorted.
Proof.
  induction sorted as [|y sorted IH]; cbn.
  - intuition.
  - destruct (created_before x y); cbn; rewrite ?IH; intuition.
Qed.

(** Sorting neither adds nor drops a descriptor. *)
Lemma sort_newest_first_In b backups :
  In b (sort_newest_first backups) <-> In b backups.
Proof.
  unfold sort_newest_first. induction backups as [|x backups IH]; cbn.
  - tauto.
  - rewrite insert_newest_first_In, IH. intuition.
Qed.

Lemma sort_newest_first_length backups :
  length (sort_newest_first backups) = length backups.
Proof.
  unfold sort_newest_first. induction backups as [|x backups IH]; cbn; [easy|].
  rewrite <- IH. generalize (fold_right insert_newest_first [] backups).
  induction l as [|y l IHl]; cbn; [easy|].
  destruct (created_before x y); cbn; congruence.
Qed.

(** Whatever the dates, the sort of [listBackups] neither adds nor drops a
    descriptor. *)
Lemma sort_backups_In b backups :
  In b (sort_backups H backups) <-> In b backups.
Proof.
  unfold sort_backups. destruct (forallb dated backups).
  - apply sort_newest_first_In.
  - split; apply Permutation_in;
      [|symmetry]; apply engine_sort_permutes.
Qed.

Lemma sort_backups_length backups :
  length (sort_backups H backups) = length backups.
Proof.
  unfold sort_backups. destruct (forallb dated backups).
  - apply sort_newest_first_length.
  - apply Permutation_length, engine_sort_permutes.
Qed.

Ltac calls_ok :=
  rewrite ?forallb_app; cbn [forallb list_call];
  repeat match goal with
    | Hev : forallb _ _ = true |- _ => rewrite Hev
    end; reflexivity.

(** One entry of the backup root: the descriptors listed so far keep their
    sizes, and a new one is sized by [fs.stat]. *)
Lemma list_entry_sat backups file tr evs :
  Forall (SizedByStat H) backups ->
  forallb list_call evs = true ->
  Sat (list_entry H backups file) tr
    (fun r evs' =>
       match r with
       | Ok backups' =>
           Forall (SizedByStat H) backups' /\
           forallb list_call (evs ++ evs') = true
       | Throw _ => forallb list_call (evs ++ evs') = true
       end).
Proof.
  intros Hsized Hevs. unfold list_entry.
  apply sat_bind, sat_perform.
  destruct (fs_stat H tr (path_join H (backupDir H) file)) as [stats|e] eqn:Hstat;
    cbn [failure_of]; [|calls_ok].
  destruct (st_isDirectory stats) eqn:Hdir.
  - apply sat_try_catch, sat_bind, sat_perform.
    destruct (read_manifest H _ _) as [[manifest|]|e]; cbn [failure_of].
    3:{ apply sat_ret. split; [exact Hsized | calls_ok]. }
    2:{ apply sat_bind. unfold js_defined.
        apply sat_throw, sat_ret. split; [exact Hsized | calls_ok]. }
    apply sat_bind. unfold js_defined. apply sat_ret, sat_bind.
    destruct (mf_collections manifest) as [collections|].
    2:{ apply sat_throw, sat_ret. split; [exact Hsized | calls_ok]. }
    apply sat_ret, sat_ret. split; [|calls_ok].
    apply Forall_app. split; [exact Hsized|]. constructor; [|constructor].
    intros _. exists tr, stats. cbn. auto.
  - destruct (endsWith file ".zip").
    + apply sat_ret. split; [|calls_ok].
      apply Forall_app. split; [exact Hsized|]. constructor; [|constructor].
      intros Hfalse. discriminate.
    + apply sat_ret. split; [exact Hsized | calls_ok].
Qed.

Lemma listBackups_sat tr :
  Sat (listBackups H) tr
    (fun r evs =>
       forallb list_call evs = true /\
       forall backups, r = Ok backups -> Forall (SizedByStat H) backups).
Proof.
  unfold listBackups.
  apply sat_try_catch, sat_bind, sat_perform.
  destruct (fs_readdir H tr (backupDir H)) as [files|e]; cbn [failure_of].
  2:{ apply sat_bind, sat_log, sat_throw. split; [reflexivity | discriminate]. }
  apply sat_bind.
  refine (sat_weaken _ _ _ _
            (sat_for_of_throwing files (list_entry H)
               (fun backups evs =>
                  Forall (SizedByStat H) backups /\
                  forallb list_call evs = true)
               (fun evs => forallb list_call evs = true)
               _ [] (tr ++ [EReaddir (backupDir H) None])
               [EReaddir (backupDir H) None] _) _).
  - intros file backups tr' evs [Hsized Hevs].
    now apply list_entry_sat.
  - split; [constructor | reflexivity].
  - intros [backups|e] evs.
    + intros [Hsized Hevs]. apply sat_ret. rewrite app_nil_r.
      split; [exact Hevs|]. intros l [= <-].
      rewrite List.Forall_forall in Hsized |- *.
      intros b Hin. apply Hsized. now apply sort_backups_In.
    + intros Hevs. cbn in Hevs. apply sat_bind, sat_log, sat_throw.
      split; [|discriminate]. calls_ok.
Qed.

(** The manifest's [totalSize] is never read. *)
Lemma list_entry_ignores_totalSize totalSize backups file tr :
  list_entry (with_totalSize totalSize H) backups file tr =
  list_entry H backups file tr.
Proof.
  unfold list_entry, backupDir. run_eff. cbn.
  destruct (fs_stat H tr _) as [stats|e]; [|reflexivity].
  destruct (st_isDirectory stats); [|reflexivity].
  destruct (read_manifest H _ _) as [[manifest|]|e]; reflexivity.
Qed.

Lemma for_of_ext {A S} (items : list A) (body body' : S -> A -> M S) :
  (forall s x tr, body s x tr = body' s x tr) ->
  forall s tr, for_of items body s tr = for_of items body' s tr.
Proof.
  intros Hext. induction items as [|x items IH]; intros s tr; [reflexivity|].
  cbn [for_of]. unfold bind. rewrite Hext.
  destruct (body' s x tr) as [[s'|e] tr']; [apply IH | reflexivity].
Qed.

Lemma listBackups_ignores_totalSize totalSize tr :
  listBackups (with_totalSize totalSize H) tr = listBackups H tr.
Proof.
  unfold listBackups, backupDir. run_eff. cbn.
  destruct (fs_readdir H tr _) as [files|e]; [|reflexivity].
  cbn [failure_of].
  now rewrite (for_of_ext files _ _ (list_entry_ignores_totalSize totalSize)).
Qed.

(** C10.  A descriptor of an uncompressed backup that [listBackups] returns
    has as [size] the [size] that [fs.stat] answered for the directory entry
    itself; and the listing is the same whatever [totalSize] the manifests
    hold, so the size is never the manifest's. *)
Theorem listBackups_sizes_directories_by_stat tr backups evs :
  listBackups H tr = (Ok backups, tr ++ evs) ->
  (forall b,
      In b backups ->
      bd_compressed b = false ->
      exists tr' stats,
        fs_stat H tr' (path_join H (backupDir H) (bd_name b)) = Ok stats /\
        st_isDirectory stats = true /\
        bd_path b = path_join H (backupDir H) (bd_name b) /\
        bd_size b = st_size stats) /\
  (forall totalSize,
      listBackups (with_totalSize totalSize H) tr = (Ok backups, tr ++ evs)).
Proof.
  intros Hrun. split.
  - destruct (sat_run _ _ _ _ _ (listBackups_sat tr) Hrun) as [_ Hsized].
    specialize (Hsized backups eq_refl).
    rewrite List.Forall_forall in Hsized. exact Hsized.
  - intros totalSize. now rewrite listBackups_ignores_totalSize.
Qed.

End InventoryProperties.

(** ** cleanupOldBackups *)

Section RetentionProperties.

Variable H : Host.

Lemma deletions_app evs evs' :
  deletions (evs ++ evs') = deletions evs + deletions evs'.
Proof. unfold deletions. rewrite List.filter_app, length_app. lia. Qed.

Lemma removals_app evs evs' :
  removals (evs ++ evs') = removals evs + removals evs'.
Proof. unfold removals. rewrite List.filter_app, length_app. lia. Qed.

Lemma list_calls_delete_nothing evs :
  forallb list_call evs = true -> deletions evs = 0 /\ removals evs = 0.
Proof.
  unfold deletions, removals. induction evs as [|ev evs IH]; [easy|].
  cbn [forallb]. intros [Hev Hrest]%andb_prop.
  destruct (IH Hrest) as [Hd Hr].
  destruct ev; try discriminate; cbn; auto.
Qed.

(** One candidate: one attempt to delete it, which may fail. *)
Lemma cleanup_backup_sat backup tr :
  Sat (cleanup_backup H tt backup) tr
    (fun r evs =>
       r = Ok tt /\ deletions evs = 1 /\ 0 <= removals evs <= 1).
Proof.
  unfold cleanup_backup. apply sat_try_catch, sat_bind.
  destruct (bd_compressed backup); apply sat_perform.
  - destruct (fs_unlink H tr (bd_path backup)) as [[]|e]; cbn [failure_of];
      apply sat_log; unfold deletions, removals; cbn; repeat split; lia.
  - destruct (fs_rmdir H tr (bd_path backup)) as [[]|e]; cbn [failure_of];
      apply sat_log; unfold deletions, removals; cbn; repeat split; lia.
Qed.

(** The number that [cleanupOldBackups] returns is the number of deletions it
    attempted; the number of backups removed can be smaller. *)
Lemma cleanupOldBackups_counts_attempts retentionDays tr :
  Sat (cleanupOldBackups H retentionDays) tr
    (fun r evs =>
       forall n, r = Ok n -> n = deletions evs /\ 0 <= removals evs <= n).
Proof.
  unfold cleanupOldBackups.
  apply sat_bind, sat_observe, sat_bind, sat_observe, sat_try_catch, sat_bind.
  apply (sat_weaken _ _ _ _ (listBackups_sat H _)).
  intros [backups|e] evs [Hcalls _].
  2:{ apply sat_bind, sat_log, sat_throw. discriminate. }
  destruct (list_calls_delete_nothing _ Hcalls) as [Hd Hr].
  apply sat_bind.
  refine (sat_weaken _ _ _ _
            (sat_for_of (List.filter (is_old _) backups) (cleanup_backup H)
               (fun done _ evs' =>
                  deletions evs' = Z.of_nat (length done) /\
                  0 <= removals evs' <= Z.of_nat (length done))
               _ [] tt _ [] _) _).
  - intros done backup [] tr' evs' [Hdel Hrem].
    apply (sat_weaken _ _ _ _ (cleanup_backup_sat backup tr')).
    intros r evs1 (-> & Hd1 & Hr1). exists tt. split; [reflexivity|].
    rewrite deletions_app, removals_app, length_app, Nat2Z.inj_add. cbn. lia.
  - unfold deletions, removals. cbn. lia.
  - intros r evs' ([] & -> & Hdel & Hrem). cbn [app] in Hdel, Hrem.
    apply sat_ret. intros n [= <-].
    rewrite !deletions_app, !removals_app, Hd, Hr, Hdel.
    change (deletions []) with 0. change (removals []) with 0. lia.
Qed.

End RetentionProperties.

(** *** The claims about the inventory and the retention sweep on the
    example backups *)

Lemma listBackups_sizes_directories_by_stat_witness :
  let H := host_of orders_denied in
  let run := listBackups H [] in
  exists backups,
    fst run = Ok backups /\
    map bd_size backups = [4096] /\
    (forall b,
        In b backups ->
        bd_compressed b = false ->
        exists tr' stats,
          fs_stat H tr' (path_join H (backupDir H) (bd_name b)) = Ok stats /\
          st_isDirectory stats = true /\
          bd_path b = path_join H (backupDir H) (bd_name b) /\
          bd_size b = st_size stats) /\
    (forall totalSize,
        listBackups (with_totalSize totalSize H) [] = (Ok backups, [] ++ snd run)).
Proof.
  intros H run.
  destruct (fst run) as [backups|e] eqn:Hres; [|vm_compute in Hres; discriminate].
  exists backups. split; [reflexivity|]. split.
  - vm_compute in Hres. now injection Hres as <-.
  - apply (listBackups_sizes_directories_by_stat H [] backups (snd run)).
    rewrite <- Hres. vm_compute. reflexivity.
Defined.

(** C5 (the code breaks it).  One backup is older than the cutoff and its
    removal fails: nothing is removed, and [cleanupOldBackups] returns 1. *)
Theorem cleanupOldBackups_counts_failed_deletion :
  let run := cleanupOldBackups (host_of undeletable) (Some 30) [] in
  fst run = Ok 1 /\
  removals (snd run) = 0 /\
  In (ERmdir "/srv/backups/atlas-shop-2024-01-01T10-00-00-000Z"
        (Some "EACCES: permission denied")) (snd run).
Proof.
  split; [reflexivity|]. split; [reflexivity|]. vm_compute. tauto.
Qed.

(** ** scheduleBackup *)

Section SchedulingProperties.

Variable SH : SchedulerHost.

(** With an entry for the pair already in the table, [scheduleBackup] throws
    at [this.scheduledJobs.get(jobId).stop()] and changes nothing but the
    log. *)
Lemma scheduleBackup_existing_throws clusterName dbName cronPattern options
    s entry :
  scheduledJobs s !! jobId_of clusterName dbName = Some entry ->
  scheduleBackup SH clusterName dbName cronPattern options s =
    (Throw stop_is_not_a_function,
     {| scheduledJobs := scheduledJobs s;
        tasks := tasks s;
        backupSchedules := backupSchedules s;
        saves := saves s;
        journal := journal s ++ [(Error, "Failed to schedule backup:")] |}).
Proof.
  intros Hentry. unfold scheduleBackup, try_catch, bind. now rewrite Hentry.
Qed.

Lemma invoke_start job :
  invoke (OnTask job) "start" = fun s => (Ok tt, set_running job true s).
Proof. reflexivity. Qed.

Lemma invoke_stop job :
  invoke (OnTask job) "stop" = fun s => (Ok tt, set_running job false s).
Proof. reflexivity. Qed.

(** What a call of [scheduleBackup] that returns has done. *)
Lemma scheduleBackup_returns clusterName dbName cronPattern options s id s' :
  scheduleBackup SH clusterName dbName cronPattern options s = (Ok id, s') ->
  id = jobId_of clusterName dbName /\
  scheduledJobs s !! jobId_of clusterName dbName = None /\
  scheduledJobs s' =
    <[jobId_of clusterName dbName :=
        {| se_job := length (tasks s);
           se_cluster := clusterName;
           se_database := dbName;
           se_pattern := cronPattern;
           se_options := options;
           se_createdAt :=
             scheduler_now SH
               {| scheduledJobs := scheduledJobs s;
                  tasks :=
                    tasks s ++
                    [{| ct_pattern := cronPattern;
                        ct_cluster := clusterName;
                        ct_database := dbName;
                        ct_options := options;
                        ct_running := false |}];
                  backupSchedules := backupSchedules s;
                  saves := saves s;
                  journal := journal s |} |}]> (scheduledJobs s) /\
  tasks s' =
    tasks s ++
    [{| ct_pattern := cronPattern;
        ct_cluster := clusterName;
        ct_database := dbName;
        ct_options := options;
        ct_running := true |}].
Proof.
  unfold scheduleBackup, try_catch, bind.
  destruct (scheduledJobs s !! jobId_of clusterName dbName) as [entry|] eqn:Hentry.
  { cbn. discriminate. }
  cbn [ret]. unfold cron_schedule.
  destruct (cron_validate SH cronPattern) as [[]|e]; [|cbn; discriminate].
  rewrite invoke_start. unfold saveScheduleToConfig, save_config, bind.
  cbn [set_scheduledJobs set_running set_backupSchedules scheduledJobs tasks
       backupSchedules saves journal].
  rewrite lookup_app_r by lia. rewrite Nat.sub_diag. cbn [lookup list_lookup].
  rewrite insert_app_r_alt by lia. rewrite Nat.sub_diag.
  cbn [insert list_insert ct_pattern ct_cluster ct_database ct_options].
  destruct (config_save SH _) as [[]|e]; cbn; [|discriminate].
  intros [= <- <-]. cbn. auto.
Qed.

(** C1 (the code breaks it).  After a call of [scheduleBackup] for a pair has
    returned, a second call for the same pair throws a TypeError: the first
    trigger is not cancelled, no second trigger is installed, and the table
    still has the pattern and the options of the first call. *)
Theorem scheduleBackup_second_call_throws
    clusterName dbName p1 o1 p2 o2 s id s1 :
  scheduleBackup SH clusterName dbName p1 o1 s = (Ok id, s1) ->
  exists s2 entry task,
    scheduleBackup SH clusterName dbName p2 o2 s1 =
      (Throw stop_is_not_a_function, s2) /\
    scheduledJobs s2 = scheduledJobs s1 /\
    tasks s2 = tasks s1 /\
    backupSchedules s2 = backupSchedules s1 /\
    scheduledJobs s2 !! jobId_of clusterName dbName = Some entry /\
    se_pattern entry = p1 /\
    se_options entry = o1 /\
    tasks s2 !! se_job entry = Some task /\
    ct_pattern task = p1 /\
    ct_running task = true.
Proof.
  intros Hfirst.
  destruct (scheduleBackup_returns _ _ _ _ _ _ _ Hfirst)
    as (_ & _ & Hjobs & Htasks).
  assert (Hentry : scheduledJobs s1 !! jobId_of clusterName dbName =
                   Some {| se_job := length (tasks s);
                           se_cluster := clusterName;
                           se_database := dbName;
                           se_pattern := p1;
                           se_options := o1;
                           se_createdAt :=
                             se_createdAt
                               (default
                                  {| se_job := 0; se_cluster := "";
                                     se_database := ""; se_pattern := "";
                                     se_options := o1; se_createdAt := 0 |}
                                  (scheduledJobs s1 !!
                                     jobId_of clusterName dbName)) |}).
  { rewrite Hjobs, lookup_insert_eq. reflexivity. }
  eexists. eexists. eexists.
  split; [exact (scheduleBackup_existing_throws _ _ p2 o2 _ _ Hentry)|].
  cbn [scheduledJobs tasks backupSchedules].
  repeat (split; [first [reflexivity | exact Hentry]|]).
  cbn [se_job]. rewrite Htasks, lookup_app_r by lia.
  rewrite Nat.sub_diag. cbn. auto.
Qed.

(** The sibling path: [unscheduleBackup] calls [stop] on the task of the
    entry, which stops it, and removes the entry. *)
Lemma unscheduleBackup_stops_the_task jobId s entry task :
  scheduledJobs s !! jobId = Some entry ->
  tasks s !! se_job entry = Some task ->
  (forall s', config_save SH s' = Ok tt) ->
  exists s' task',
    unscheduleBackup SH jobId s = (Ok true, s') /\
    scheduledJobs s' !! jobId = None /\
    tasks s' !! se_job entry = Some task' /\
    ct_running task' = false.
Proof.
  intros Hentry Htask Hsave.
  unfold unscheduleBackup, bind. rewrite Hentry, invoke_stop.
  unfold removeScheduleFromConfig, save_config, bind, journal_log, ret,
    set_scheduledJobs, set_backupSchedules, set_running.
  cbn [scheduledJobs tasks backupSchedules saves journal].
  rewrite Htask, Hsave.
  eexists. eexists. split; [reflexivity|].
  cbn [scheduledJobs tasks].
  split; [apply lookup_delete_eq|].
  rewrite list_lookup_insert_eq; [auto|].
  now apply lookup_lt_Some in Htask.
Qed.

End SchedulingProperties.

Lemma scheduleBackup_second_call_throws_witness :
  let first :=
    scheduleBackup obliging_host "atlas" "shop" "0 2 * * *"
      {| compress := true |} empty_scheduler in
  fst first = Ok "atlas-shop" /\
  exists s2 entry task,
    scheduleBackup obliging_host "atlas" "shop" "0 3 * * *"
      {| compress := false |} (snd first) =
      (Throw stop_is_not_a_function, s2) /\
    scheduledJobs s2 = scheduledJobs (snd first) /\
    tasks s2 = tasks (snd first) /\
    backupSchedules s2 = backupSchedules (snd first) /\
    scheduledJobs s2 !! jobId_of "atlas" "shop" = Some entry /\
    se_pattern entry = "0 2 * * *" /\
    se_options entry = {| compress := true |} /\
    tasks s2 !! se_job entry = Some task /\
    ct_pattern task = "0 2 * * *" /\
    ct_running task = true.
Proof.
  intros first. split; [reflexivity|].
  apply (scheduleBackup_second_call_throws obliging_host "atlas" "shop"
           "0 2 * * *" {| compress := true |} "0 3 * * *"
           {| compress := false |} empty_scheduler "atlas-shop" (snd first)).
  reflexivity.
Defined.

(** * Further properties *)

(** ** What [restoreBackup] never does *)

Section RestoreDiscipline.

Variable H : Host.

Ltac allowed_ok :=
  rewrite ?forallb_app; cbn [forallb restore_allowed];
  repeat match goal with
    | Hev : forallb _ _ = true |- _ => rewrite Hev
    | Hb : _ = true |- _ => rewrite Hb
    | Hb : _ = false |- _ => rewrite Hb
    end; reflexivity.

Lemma restore_indexes_allowed options targetCluster targetDatabase name
    indexes tr :
  Sat (for_of indexes (restore_index H targetCluster targetDatabase name) tt) tr
    (fun r evs => r = Ok tt /\ forallb (restore_allowed options) evs = true).
Proof.
  refine (sat_weaken _ _ _ _
            (sat_for_of indexes _
               (fun _ _ evs => forallb (restore_allowed options) evs = true)
               _ [] tt tr [] eq_refl) _).
  - intros done index [] tr' evs Hevs. unfold restore_index.
    destruct (String.eqb (ix_name index) "_id_") eqn:Hid.
    + apply sat_ret. exists tt. now rewrite app_nil_r.
    + apply sat_try_catch, sat_perform.
      destruct (coll_createIndex H tr' targetCluster targetDatabase name index)
        as [[]|e]; cbn [failure_of].
      * exists tt. split; [reflexivity|]. allowed_ok.
      * apply sat_log. exists tt. split; [reflexivity|]. allowed_ok.
  - intros r evs ([] & -> & Hevs). auto.
Qed.

Lemma restore_collection_allowed dir targetCluster targetDatabase options
    restored r tr :
  Sat (restore_collection H dir targetCluster targetDatabase options restored
         (Some r))
    tr
    (fun res evs =>
       (exists restored', res = Ok restored') /\
       forallb (restore_allowed options) evs = true).
Proof.
  unfold restore_collection.
  destruct (truthy_string (rec_error r)).
  { apply sat_ret. split; [now exists restored | reflexivity]. }
  assert (Hcaught :
    forall tr' evs,
      forallb (restore_allowed options) evs = true ->
      Sat (log Error ("Failed to restore collection " +:+ rec_name r +:+ ":") ;;;
           ret restored) tr'
        (fun res evs' =>
           (exists restored', res = Ok restored') /\
           forallb (restore_allowed options) (evs ++ evs') = true)).
  { intros tr' evs Hevs. apply sat_bind, sat_log, sat_ret.
    split; [now exists restored | allowed_ok]. }
  apply sat_try_catch, sat_bind, sat_perform.
  destruct (read_export H tr _) as [file|e]; cbn [failure_of].
  2:{ apply Hcaught. reflexivity. }
  apply sat_bind.
  apply (sat_weaken _ _
           (fun res evs =>
              res = Ok tt /\ forallb (restore_allowed options) evs = true)).
  { destruct (dropExisting options) eqn:Hdrop.
    - apply sat_try_catch, sat_perform.
      destruct (coll_drop H _ targetCluster targetDatabase (rec_name r))
        as [[]|e]; cbn [failure_of].
      + split; [reflexivity | allowed_ok].
      + apply sat_ret. split; [reflexivity | allowed_ok].
    - apply sat_ret. now split. }
  intros res devs [-> Hdevs].
  apply sat_bind. unfold js_defined.
  destruct (ef_documents file) as [documents|].
  2:{ apply sat_throw. rewrite !app_assoc. apply Hcaught. allowed_ok. }
  apply sat_ret, sat_bind.
  apply (sat_weaken _ _
           (fun res evs => forallb (restore_allowed options) evs = true)).
  { destruct (0 <? length documents)%nat eqn:Hsome.
    - apply sat_perform. allowed_ok.
    - now apply sat_ret. }
  intros [[]|e] ievs Hievs.
  2:{ rewrite !app_assoc. apply Hcaught. allowed_ok. }
  apply sat_bind.
  destruct (ef_indexes file) as [indexes|].
  2:{ apply sat_throw. rewrite !app_assoc. apply Hcaught. allowed_ok. }
  apply sat_ret, sat_bind.
  apply (sat_weaken _ _ _ _
           (restore_indexes_allowed options targetCluster targetDatabase
              (rec_name r) indexes _)).
  intros res xevs [-> Hxevs].
  apply sat_bind, sat_log, sat_ret.
  split; [eexists; reflexivity | allowed_ok].
Qed.

Lemma restore_loop_allowed dir targetCluster targetDatabase options records
    restored0 tr :
  Sat (for_of records
         (restore_collection H dir targetCluster targetDatabase options)
         restored0) tr
    (fun res evs => forallb (restore_allowed options) evs = true).
Proof.
  refine (sat_weaken _ _ _ _
    (sat_for_of_throwing records _
       (fun _ evs => forallb (restore_allowed options) evs = true)
       (fun evs => forallb (restore_allowed options) evs = true)
       _ restored0 tr [] eq_refl) _).
  - intros [r|] restored tr' evs Hevs.
    + apply (sat_weaken _ _ _ _
               (restore_collection_allowed dir targetCluster targetDatabase
                  options restored r tr')).
      intros res evs' [(restored' & ->) Hevs'].
      now rewrite forallb_app, Hevs, Hevs'.
    + unfold restore_collection. apply sat_throw. now rewrite app_nil_r.
  - intros [restored|e] evs Hevs; exact Hevs.
Qed.

Lemma restore_allowed_in_run backupPath options evs :
  forallb (restore_allowed options) evs = true ->
  forallb (restore_run_allowed H backupPath options) evs = true.
Proof.
  induction evs as [|ev evs IH]; [reflexivity|].
  cbn [forallb]. intros [Hev Hrest]%andb_prop. rewrite (IH Hrest), andb_true_r.
  destruct ev; try discriminate; exact Hev.
Qed.

(** Every call of a run of [restoreBackup] is one that it may make. *)
Lemma restoreBackup_calls backupPath targetCluster targetDatabase options tr
    res evs :
  restoreBackup H backupPath targetCluster targetDatabase options tr =
    (res, tr ++ evs) ->
  forallb (restore_run_allowed H backupPath options) evs = true.
Proof.
  intros Hrun. apply restoreBackup_inv in Hrun.
  inversion Hrun as
    [ e Hzip Hres Hevs | e Hres Hevs | e Hres Hevs
    | manifest Hl Hr Hres Hevs
    | manifest records restored evs' e Hzip Hl Hr Hloop Hres Hevs
    | manifest records restored evs' Hl Hr Hloop Hres Hevs
    | manifest records evs' Hl Hr Hnull Hloop Hres Hevs
    | Hl Hres Hevs ];
    subst evs; unfold restore_opening, unpacked, cleaned;
    try (pose proof (sat_run _ _ _ _ _
                       (restore_loop_allowed _ _ _ options records [] _) Hloop)
           as Hcalls;
         apply (restore_allowed_in_run backupPath) in Hcalls);
    rewrite ?forallb_app, ?Hcalls;
    destruct (endsWith backupPath ".zip") eqn:Hz; try discriminate;
    cbn; rewrite ?Hz, ?String.eqb_refl; reflexivity.
Qed.

End RestoreDiscipline.

Section RestoreGuarantees.

Variable H : Host.

(** X1.  [restoreBackup] never recreates the automatic index: no call of
    [createIndex] is made for an index named [_id_]. *)
Theorem restoreBackup_never_recreates_id_index
    backupPath targetCluster targetDatabase options tr res evs :
  restoreBackup H backupPath targetCluster targetDatabase options tr =
    (res, tr ++ evs) ->
  forall name index failed,
    In (ECreateIndex name index failed) evs -> ix_name index <> "_id_".
Proof.
  intros Hrun name index failed Hin.
  pose proof (restoreBackup_calls H _ _ _ _ _ _ _ Hrun) as Hcalls.
  rewrite forallb_forall in Hcalls. specialize (Hcalls _ Hin). cbn in Hcalls.
  intros Hid. rewrite Hid in Hcalls. discriminate.
Qed.

(** X2.  Without [options.dropExisting], [restoreBackup] drops no
    collection. *)
Theorem restoreBackup_drops_only_on_request
    backupPath targetCluster targetDatabase options tr res evs :
  restoreBackup H backupPath targetCluster targetDatabase options tr =
    (res, tr ++ evs) ->
  dropExisting options = false ->
  forall name failed, ~ In (EDrop name failed) evs.
Proof.
  intros Hrun Hkeep name failed Hin.
  pose proof (restoreBackup_calls H _ _ _ _ _ _ _ Hrun) as Hcalls.
  rewrite forallb_forall in Hcalls. specialize (Hcalls _ Hin). cbn in Hcalls.
  congruence.
Qed.

(** X3.  [restoreBackup] never calls [insertMany] with an empty batch. *)
Theorem restoreBackup_never_inserts_empty_batch
    backupPath targetCluster targetDatabase options tr res evs :
  restoreBackup H backupPath targetCluster targetDatabase options tr =
    (res, tr ++ evs) ->
  forall name documents failed,
    In (EInsertMany name documents failed) evs -> documents <> [].
Proof.
  intros Hrun name documents failed Hin.
  pose proof (restoreBackup_calls H _ _ _ _ _ _ _ Hrun) as Hcalls.
  rewrite forallb_forall in Hcalls. specialize (Hcalls _ Hin). cbn in Hcalls.
  intros ->. discriminate.
Qed.

(** X4.  [restoreBackup] leaves the backup it reads alone: it writes no
    file, creates no directory, deletes no file, and the only directory it
    removes is the scratch directory of an archive. *)
Theorem restoreBackup_does_not_touch_the_backup
    backupPath targetCluster targetDatabase options tr res evs :
  restoreBackup H backupPath targetCluster targetDatabase options tr =
    (res, tr ++ evs) ->
  (forall path content failed, ~ In (EWriteFile path content failed) evs) /\
  (forall path failed, ~ In (EMkdir path failed) evs) /\
  (forall path failed, ~ In (EUnlink path failed) evs) /\
  (forall path failed,
      In (ERmdir path failed) evs ->
      path = tempDir H /\ endsWith backupPath ".zip" = true).
Proof.
  intros Hrun.
  pose proof (restoreBackup_calls H _ _ _ _ _ _ _ Hrun) as Hcalls.
  rewrite forallb_forall in Hcalls.
  repeat split;
    try (intros; intros Hin; specialize (Hcalls _ Hin); discriminate).
  - specialize (Hcalls _ H0). cbn in Hcalls.
    apply andb_prop in Hcalls as [_ Hdir]. now apply String.eqb_eq.
  - specialize (Hcalls _ H0). cbn in Hcalls.
    now apply andb_prop in Hcalls as [Hzip _].
Qed.


(** X6.  The elements of [restoredCollections] come from export files that
    were read: [documents] is the number of documents of the file.  The
    result echoes the manifest that was loaded and the target. *)
Theorem restoreBackup_reports_what_it_read
    backupPath targetCluster targetDatabase options tr r evs :
  restoreBackup H backupPath targetCluster targetDatabase options tr =
    (Ok r, tr ++ evs) ->
  loaded_manifest H backupPath tr = Ok (Some (rr_sourceBackup r)) /\
  rr_target r = (targetCluster, targetDatabase) /\
  (forall rc,
      In rc (rr_restoredCollections r) ->
      exists tr' file documents,
        read_export H tr'
          (path_join H (restore_dir H backupPath) (rc_name rc +:+ ".json")) =
          Ok file /\
        ef_documents file = Some documents /\
        rc_documents rc = Z.of_nat (length documents)).
Proof.
  intros Hrun. apply restoreBackup_inv in Hrun.
  inversion Hrun
    as [ | | | | | manifest records restored evs' Hl Hr Hloop Hres | | ].
  subst r. cbn.
  split; [exact Hl|]. split; [reflexivity|].
  intros rc Hin.
  pose proof (sat_run _ _ _ _ _
                (restore_loop_sat H _ _ _ _ records [] _) Hloop)
    as (_ & _ & Hfrom & _).
  specialize (Hfrom ltac:(constructor)).
  rewrite List.Forall_forall in Hfrom.
  destruct (Hfrom rc Hin) as (tr' & file & Hread & Hentry).
  unfold restored_entry in Hentry.
  destruct (ef_documents file) as [documents|] eqn:Hdocs; [|discriminate].
  destruct (ef_indexes file) as [indexes|]; [|discriminate].
  injection Hentry as <-. cbn in *.
  now exists tr', file, documents.
Qed.

End RestoreGuarantees.

(** *** The guarantees of [restoreBackup] on the example backups *)

Lemma restoreBackup_never_recreates_id_index_witness :
  let run := restore_run two_indexes "/srv/backups/b1" in
  In (ECreateIndex "users" email_index None) (snd run) /\
  forall name index failed,
    In (ECreateIndex name index failed) (snd run) -> ix_name index <> "_id_".
Proof.
  intros run. split; [vm_compute; tauto|].
  apply (restoreBackup_never_recreates_id_index (host_of two_indexes)
           "/srv/backups/b1" "staging" "shop" {| dropExisting := true |} []
           (fst run) (snd run)).
  vm_compute. reflexivity.
Defined.

Lemma restoreBackup_drops_only_on_request_witness :
  let run :=
    restoreBackup (host_of two_indexes) "/srv/backups/b1" "staging" "shop"
      {| dropExisting := false |} [] in
  In (EInsertMany "users" sample_documents None) (snd run) /\
  dropExisting {| dropExisting := false |} = false /\
  forall name failed, ~ In (EDrop name failed) (snd run).
Proof.
  intros run. split; [vm_compute; tauto|]. split; [reflexivity|].
  apply (restoreBackup_drops_only_on_request (host_of two_indexes)
           "/srv/backups/b1" "staging" "shop" {| dropExisting := false |} []
           (fst run) (snd run)).
  - vm_compute. reflexivity.
  - reflexivity.
Defined.

Lemma restoreBackup_never_inserts_empty_batch_witness :
  let run := restore_run empty_collection "/srv/backups/b1" in
  (exists r,
      fst run = Ok r /\
      rr_restoredCollections r =
        [{| rc_name := "users"; rc_documents := 0; rc_indexes := 0 |}]) /\
  forall name documents failed,
    In (EInsertMany name documents failed) (snd run) -> documents <> [].
Proof.
  intros run. split; [eexists; split; reflexivity|].
  apply (restoreBackup_never_inserts_empty_batch (host_of empty_collection)
           "/srv/backups/b1" "staging" "shop" {| dropExisting := true |} []
           (fst run) (snd run)).
  vm_compute. reflexivity.
Defined.

Lemma restoreBackup_does_not_touch_the_backup_witness :
  let H := host_of two_indexes in
  let run := restore_run two_indexes "/srv/backups/b1.zip" in
  In (ERmdir (tempDir H) None) (snd run) /\
  (forall path content failed, ~ In (EWriteFile path content failed) (snd run)) /\
  (forall path failed, ~ In (EMkdir path failed) (snd run)) /\
  (forall path failed, ~ In (EUnlink path failed) (snd run)) /\
  (forall path failed,
      In (ERmdir path failed) (snd run) ->
      path = tempDir H /\ endsWith "/srv/backups/b1.zip" ".zip" = true).
Proof.
  intros H run. split; [vm_compute; tauto|].
  apply (restoreBackup_does_not_touch_the_backup H "/srv/backups/b1.zip"
           "staging" "shop" {| dropExisting := true |} [] (fst run) (snd run)).
  vm_compute. reflexivity.
Defined.


Lemma restoreBackup_reports_what_it_read_witness :
  let H := host_of two_indexes in
  let run := restore_run two_indexes "/srv/backups/b1" in
  exists r,
    fst run = Ok r /\
    map rc_documents (rr_restoredCollections r) = [2] /\
    loaded_manifest H "/srv/backups/b1" [] = Ok (Some (rr_sourceBackup r)) /\
    rr_target r = ("staging", "shop") /\
    (forall rc,
        In rc (rr_restoredCollections r) ->
        exists tr' file documents,
          read_export H tr'
            (path_join H (restore_dir H "/srv/backups/b1")
               (rc_name rc +:+ ".json")) = Ok file /\
          ef_documents file = Some documents /\
          rc_documents rc = Z.of_nat (length documents)).
Proof.
  intros H run.
  destruct (fst run) as [r|e] eqn:Hres; [|vm_compute in Hres; discriminate].
  exists r. split; [reflexivity|]. split.
  - vm_compute in Hres. now injection Hres as <-.
  - apply (restoreBackup_reports_what_it_read H "/srv/backups/b1" "staging"
             "shop" {| dropExisting := true |} [] r (snd run)).
    rewrite <- Hres. vm_compute. reflexivity.
Defined.

(** ** Further properties of [createBackup] *)

Section SnapshotGuarantees.

Variable H : Host.

Lemma per_collection_allowed clusterName dbName options tr evs :
  forallb per_collection_event evs = true ->
  forallb (create_allowed H clusterName dbName options tr) evs = true.
Proof.
  induction evs as [|ev evs IH]; [reflexivity|].
  cbn [forallb]. intros [Hev Hrest]%andb_prop. rewrite (IH Hrest), andb_true_r.
  destruct ev as [| ? [d|m] ? | | | | | | | | | | | | | | | | |];
    try discriminate; reflexivity.
Qed.


(** Every call of a run of [createBackup] is one that it may make. *)
Lemma createBackup_calls clusterName dbName options tr res evs :
  createBackup H clusterName dbName options tr = (res, tr ++ evs) ->
  forallb (create_allowed H clusterName dbName options tr) evs = true.
Proof.
  intros Hrun. apply createBackup_inv in Hrun.
  inversion Hrun as
    [ e Hres Hevs | e Hres Hevs | e Hres Hevs
    | names records evs' e Henum [_ Hloop] Hres Hevs
    | names records evs' e Hc Henum [_ Hloop] Hres Hevs
    | names records evs' bytes e Hc Henum [_ Hloop] Hres Hevs
    | names records evs' bytes Hc Henum [_ Hloop] Hres Hevs
    | names records evs' Hc Henum [_ Hloop] Hres Hevs ];
    subst evs;
    try (pose proof (per_collection_allowed clusterName dbName options tr _
                       (loop_events H _ _ _ _ Hloop)) as Hcalls);
    unfold setup_events, starting_log, failed_log, completed_log,
      manifest_write;
    rewrite ?forallb_app; cbn [forallb create_allowed];
    rewrite ?forallb_app, ?Hcalls; cbn [forallb create_allowed];
    rewrite ?Hc, ?String.eqb_refl; reflexivity.
Qed.

(** X8.  [createBackup] only reads the database: it never drops, inserts or
    creates an index; it deletes and expands no file; and the only directory
    it removes is its own, when [options.compress] is set. *)
Theorem createBackup_only_reads_the_database
    clusterName dbName options tr res evs :
  createBackup H clusterName dbName options tr = (res, tr ++ evs) ->
  (forall name failed, ~ In (EDrop name failed) evs) /\
  (forall name documents failed, ~ In (EInsertMany name documents failed) evs) /\
  (forall name index failed, ~ In (ECreateIndex name index failed) evs) /\
  (forall path failed, ~ In (EUnlink path failed) evs) /\
  (forall archive dir failed, ~ In (EExtract archive dir failed) evs) /\
  (forall path failed,
      In (ERmdir path failed) evs ->
      path = backupPath_at H clusterName dbName tr /\ compress options = true).
Proof.
  intros Hrun.
  pose proof (createBackup_calls _ _ _ _ _ _ Hrun) as Hcalls.
  rewrite forallb_forall in Hcalls.
  repeat split;
    try (intros; intros Hin; specialize (Hcalls _ Hin); discriminate).
  - specialize (Hcalls _ H0). cbn in Hcalls.
    apply andb_prop in Hcalls as [_ Hdir]. now apply String.eqb_eq.
  - specialize (Hcalls _ H0). cbn in Hcalls.
    now apply andb_prop in Hcalls as [Hzip _].
Qed.

Lemma fold_push_totalDocuments records :
  forall info,
    bi_totalDocuments (fold_left push_record records info) =
    bi_totalDocuments info + sum_Z (map record_documents records).
Proof.
  induction records as [|r records IH]; intros info;
    cbn [fold_left map sum_Z fold_right].
  - lia.
  - rewrite IH. cbn. unfold sum_Z. lia.
Qed.

Lemma snapshotted_documents backupPath name r evs :
  Snapshotted H backupPath name r evs ->
  record_documents r = sum_Z (map documents_of (exported_payloads evs)).
Proof. destruct 1; cbn; unfold documents_of; lia. Qed.

Lemma loop_documents backupPath names records evs :
  SnapshotLoop H backupPath names records evs ->
  sum_Z (map record_documents records) =
  sum_Z (map documents_of (exported_payloads evs)).
Proof.
  induction 1 as [|name names r records evs evs' Hstep _ IH]; [reflexivity|].
  rewrite exported_payloads_app, map_app, sum_Z_app, <- IH.
  rewrite <- (snapshotted_documents _ _ _ _ Hstep). reflexivity.
Qed.

(** X9.  In the result of [createBackup], [totalDocuments] is the sum of
    [documentCount] over the records of the manifest, which is the number of
    documents in the export files that were written; and [collections] is
    the number of records. *)
Theorem createBackup_counts_documents clusterName dbName options tr r evs :
  createBackup H clusterName dbName options tr = (Ok r, tr ++ evs) ->
  bi_totalDocuments (br_info r) =
    sum_Z (map record_documents (bi_collections (br_info r))) /\
  bi_totalDocuments (br_info r) =
    sum_Z (map documents_of (exported_payloads evs)) /\
  br_collections r = Z.of_nat (length (bi_collections (br_info r))).
Proof.
  intros Hrun. apply createBackup_inv in Hrun.
  inversion Hrun as
    [ | | | | |
    | names records evs' bytes Hc Henum [_ Hloop] Hres Hevs
    | names records evs' Hc Henum [_ Hloop] Hres Hevs ];
    subst r evs;
    rewrite exported_payloads_of_run by reflexivity;
    rewrite <- (loop_documents _ _ _ _ Hloop);
    cbn [br_info br_collections result_of set_compressed bi_totalDocuments
         bi_collections];
    unfold manifest_of;
    rewrite fold_push_totalDocuments, fold_push_collections; cbn;
    repeat split; lia.
Qed.

End SnapshotGuarantees.

(** ** Names and paths *)

(** Character by character. *)
Lemma replace_colons_dots_get s : forall i,
  String.get i (replace_colons_dots s) =
  match String.get i s with
  | Some ch =>
      Some (if (Ascii.eqb ch ":" || Ascii.eqb ch ".")%bool then "-"%char else ch)
  | None => None
  end.
Proof.
  unfold replace_colons_dots. induction s as [|c s IH]; intros i.
  - reflexivity.
  - destruct i as [|i]; cbn [string_map String.get]; [reflexivity | apply IH].
Qed.

Lemma replace_colons_dots_length s :
  String.length (replace_colons_dots s) = String.length s.
Proof.
  unfold replace_colons_dots. induction s as [|c s IH]; [reflexivity|].
  cbn [string_map String.length]. now rewrite IH.
Qed.

Lemma replace_colons_dots_safe s ch :
  In ch (list_ascii_of_string (replace_colons_dots s)) ->
  ch <> ":"%char /\ ch <> "."%char.
Proof.
  unfold replace_colons_dots. induction s as [|c s IH]; cbn; [tauto|].
  intros [<-|Hin]; [|auto].
  destruct (Ascii.eqb c ":") eqn:Hcolon; cbn [orb].
  - split; discriminate.
  - destruct (Ascii.eqb c ".") eqn:Hdot.
    + split; discriminate.
    + split; now apply Ascii.eqb_neq.
Qed.

Lemma replace_colons_dots_keeps s :
  (forall ch, In ch (list_ascii_of_string s) ->
              ch <> ":"%char /\ ch <> "."%char) ->
  replace_colons_dots s = s.
Proof.
  unfold replace_colons_dots. induction s as [|c s IH]; cbn; [reflexivity|].
  intros Hsafe. destruct (Hsafe c (or_introl eq_refl)) as [Hc Hd].
  apply Ascii.eqb_neq in Hc, Hd. rewrite Hc, Hd. cbn.
  f_equal. apply IH. auto.
Qed.

Lemma length_append s t :
  String.length (s +:+ t) = (String.length s + String.length t)%nat.
Proof.
  induction s as [|c s IH]; [reflexivity|].
  change (String c s +:+ t) with (String c (s +:+ t)).
  cbn [String.length]. now rewrite IH.
Qed.

Lemma substring_all s : String.substring 0 (String.length s) s = s.
Proof. induction s as [|c s IH]; cbn; congruence. Qed.

Lemma substring_append s t :
  String.substring (String.length s) (String.length t) (s +:+ t) = t.
Proof.
  induction s as [|c s IH]; [apply substring_all|].
  change (String c s +:+ t) with (String c (s +:+ t)). exact IH.
Qed.

(** A string ends with what was appended to it. *)
Lemma endsWith_append s suffix : endsWith (s +:+ suffix) suffix = true.
Proof.
  unfold endsWith. rewrite length_append.
  replace (String.length s + String.length suffix - String.length suffix)%nat
    with (String.length s) by lia.
  rewrite substring_append, String.eqb_refl, andb_true_r.
  apply Nat.leb_le. lia.
Qed.

Section NamingGuarantees.

Variable H : Host.

(** X10.  The name of a backup is [cluster-database-timestamp], where the
    timestamp is the ISO date of the clock with every colon and dot replaced
    by a dash: at every position it has the character of the ISO date, or a
    dash where the ISO date has a colon or a dot.  So it has the length of
    the ISO date and no colon or dot, and sanitising it again changes
    nothing.  The cluster and database names go into the name as they
    are. *)
Theorem createBackup_name_has_a_safe_timestamp
    clusterName dbName options tr r evs :
  createBackup H clusterName dbName options tr = (Ok r, tr ++ evs) ->
  exists timestamp,
    br_name r = clusterName +:+ "-" +:+ dbName +:+ "-" +:+ timestamp /\
    (forall i,
        String.get i timestamp =
        match String.get i (clock_iso H tr) with
        | Some ch =>
            Some (if (Ascii.eqb ch ":" || Ascii.eqb ch ".")%bool
                  then "-"%char else ch)
        | None => None
        end) /\
    String.length timestamp = String.length (clock_iso H tr) /\
    (forall ch, In ch (list_ascii_of_string timestamp) ->
                ch <> ":"%char /\ ch <> "."%char) /\
    replace_colons_dots timestamp = timestamp.
Proof.
  intros Hrun. apply createBackup_inv in Hrun.
  exists (replace_colons_dots (clock_iso H tr)).
  split; [now inversion Hrun|].
  split; [intros i; apply replace_colons_dots_get|].
  split; [apply replace_colons_dots_length|].
  split; [apply replace_colons_dots_safe|].
  apply replace_colons_dots_keeps, replace_colons_dots_safe.
Qed.

(** X11.  The path that a compressed [createBackup] returns is the backup
    directory's path with [.zip] appended, and [restoreBackup] takes it for
    an archive: whatever happens next, its first call expands that path into
    the scratch directory. *)
Theorem createBackup_archive_is_restored_from_scratch
    clusterName dbName options tr r evs :
  createBackup H clusterName dbName options tr = (Ok r, tr ++ evs) ->
  compress options = true ->
  br_path r = backupPath_at H clusterName dbName tr +:+ ".zip" /\
  endsWith (br_path r) ".zip" = true /\
  forall targetCluster targetDatabase restoreOptions tr' res evs',
    restoreBackup H (br_path r) targetCluster targetDatabase restoreOptions tr' =
      (res, tr' ++ evs') ->
    exists failed rest,
      evs' = EExtract (br_path r) (tempDir H) failed :: rest.
Proof.
  intros Hrun Hcompress. apply createBackup_inv in Hrun.
  assert (Hpath : br_path r = backupPath_at H clusterName dbName tr +:+ ".zip").
  { inversion Hrun; subst; cbn; rewrite Hcompress; reflexivity. }
  assert (Hzip : endsWith (br_path r) ".zip" = true)
    by (rewrite Hpath; apply endsWith_append).
  split; [exact Hpath|]. split; [exact Hzip|].
  intros targetCluster targetDatabase restoreOptions tr' res evs' Hrestore.
  apply restoreBackup_inv in Hrestore.
  inversion Hrestore; subst;
    unfold restore_opening, unpacked; rewrite ?Hzip; cbn [app];
    eexists; eexists; reflexivity.
Qed.

End NamingGuarantees.

(** *** The further properties of [createBackup] on the example database *)


Lemma createBackup_only_reads_the_database_witness :
  let H := host_of orders_denied in
  let run := orders_denied_run {| compress := true |} in
  In (ERmdir (backupPath_at H "atlas" "shop" []) None) (snd run) /\
  (forall name failed, ~ In (EDrop name failed) (snd run)) /\
  (forall name documents failed,
      ~ In (EInsertMany name documents failed) (snd run)) /\
  (forall name index failed, ~ In (ECreateIndex name index failed) (snd run)) /\
  (forall path failed, ~ In (EUnlink path failed) (snd run)) /\
  (forall archive dir failed, ~ In (EExtract archive dir failed) (snd run)) /\
  (forall path failed,
      In (ERmdir path failed) (snd run) ->
      path = backupPath_at H "atlas" "shop" [] /\
      compress {| compress := true |} = true).
Proof.
  intros H run. split; [vm_compute; tauto|].
  apply (createBackup_only_reads_the_database H "atlas" "shop"
           {| compress := true |} [] (fst run) (snd run)).
  vm_compute. reflexivity.
Defined.

Lemma createBackup_counts_documents_witness :
  let run := orders_denied_run {| compress := false |} in
  exists r,
    fst run = Ok r /\
    bi_totalDocuments (br_info r) = 2 /\
    bi_totalDocuments (br_info r) =
      sum_Z (map record_documents (bi_collections (br_info r))) /\
    bi_totalDocuments (br_info r) =
      sum_Z (map documents_of (exported_payloads (snd run))) /\
    br_collections r = Z.of_nat (length (bi_collections (br_info r))).
Proof.
  intros run.
  destruct (fst run) as [r|e] eqn:Hres; [|vm_compute in Hres; discriminate].
  exists r. split; [reflexivity|]. split.
  - vm_compute in Hres. now injection Hres as <-.
  - apply (createBackup_counts_documents (host_of orders_denied) "atlas"
             "shop" {| compress := false |} [] r (snd run)).
    rewrite <- Hres. vm_compute. reflexivity.
Defined.

Lemma createBackup_name_has_a_safe_timestamp_witness :
  let H := host_of orders_denied in
  let run := orders_denied_run {| compress := false |} in
  exists r,
    fst run = Ok r /\
    clock_iso H [] = "2024-03-01T02:00:00.000Z" /\
    br_name r = "atlas-shop-2024-03-01T02-00-00-000Z" /\
    exists timestamp,
      br_name r = "atlas" +:+ "-" +:+ "shop" +:+ "-" +:+ timestamp /\
      (forall i,
          String.get i timestamp =
          match String.get i (clock_iso H []) with
          | Some ch =>
              Some (if (Ascii.eqb ch ":" || Ascii.eqb ch ".")%bool
                    then "-"%char else ch)
          | None => None
          end) /\
      String.length timestamp = String.length (clock_iso H []) /\
      (forall ch, In ch (list_ascii_of_string timestamp) ->
                  ch <> ":"%char /\ ch <> "."%char) /\
      replace_colons_dots timestamp = timestamp.
Proof.
  intros H run.
  destruct (fst run) as [r|e] eqn:Hres; [|vm_compute in Hres; discriminate].
  exists r. split; [reflexivity|]. split; [reflexivity|]. split.
  - vm_compute in Hres. now injection Hres as <-.
  - apply (createBackup_name_has_a_safe_timestamp H "atlas" "shop"
             {| compress := false |} [] r (snd run)).
    rewrite <- Hres. vm_compute. reflexivity.
Defined.

Lemma createBackup_archive_is_restored_from_scratch_witness :
  let H := host_of orders_denied in
  let run := orders_denied_run {| compress := true |} in
  exists r,
    fst run = Ok r /\
    compress {| compress := true |} = true /\
    br_path r = backupPath_at H "atlas" "shop" [] +:+ ".zip" /\
    endsWith (br_path r) ".zip" = true /\
    forall targetCluster targetDatabase restoreOptions tr' res evs',
      restoreBackup H (br_path r) targetCluster targetDatabase restoreOptions
        tr' = (res, tr' ++ evs') ->
      exists failed rest,
        evs' = EExtract (br_path r) (tempDir H) failed :: rest.
Proof.
  intros H run.
  destruct (fst run) as [r|e] eqn:Hres; [|vm_compute in Hres; discriminate].
  exists r. split; [reflexivity|]. split; [reflexivity|].
  apply (createBackup_archive_is_restored_from_scratch H "atlas" "shop"
           {| compress := true |} [] r (snd run)).
  - rewrite <- Hres. vm_compute. reflexivity.
  - reflexivity.
Defined.

(** ** Further properties of [listBackups] *)

(** A loop whose body may throw: an invariant of the items done, of the loop
    variables and of the calls while it runs, and what is known of the calls
    when it throws. *)
Lemma sat_for_of_general {A S} (items : list A) (body : S -> A -> M S)
    (I : list A -> S -> Trace -> Prop) (T : string -> Trace -> Prop) :
  (forall done x s tr evs,
      I done s evs ->
      Sat (body s x) tr
        (fun r evs' =>
           match r with
           | Ok s' => I (done ++ [x]) s' (evs ++ evs')
           | Throw e => T e (evs ++ evs')
           end)) ->
  forall done s tr evs,
    I done s evs ->
    Sat (for_of items body s) tr
      (fun r evs' =>
         match r with
         | Ok s' => I (done ++ items) s' (evs ++ evs')
         | Throw e => T e (evs ++ evs')
         end).
Proof.
  intros Hbody. induction items as [|x items IH]; intros done s tr evs HI.
  - apply sat_ret. now rewrite !app_nil_r.
  - cbn [for_of]. apply sat_bind.
    apply (sat_weaken _ _ _ _ (Hbody done x s tr evs HI)).
    intros [s1|e] evs1 H1; [|exact H1].
    apply (sat_weaken _ _ _ _
             (IH (done ++ [x]) s1 (tr ++ evs1) (evs ++ evs1) H1)).
    intros [s2|e] evs2 H2; rewrite <- !app_assoc in H2; exact H2.
Qed.

Section InventoryGuarantees.

Variable H : Host.

Lemma listed_more done file backups :
  Listed H done backups -> Listed H (done ++ [file]) backups.
Proof.
  intros [Hlen Hfrom]. split.
  - rewrite length_app. cbn. lia.
  - intros b Hin. destruct (Hfrom b Hin) as (f & Hf & Hb).
    exists f. split; [apply in_app_iff; now left | exact Hb].
Qed.

Lemma listed_push done file backups b :
  Listed H done backups -> DescribesEntry H file b ->
  Listed H (done ++ [file]) (backups ++ [b]).
Proof.
  intros [Hlen Hfrom] Hb. split.
  - rewrite !length_app. cbn. lia.
  - intros b' [Hin|[<-|[]]]%in_app_iff.
    + destruct (Hfrom b' Hin) as (f & Hf & Hb').
      exists f. split; [apply in_app_iff; now left | exact Hb'].
    + exists file. split; [apply in_app_iff; right; now left | exact Hb].
Qed.

Lemma list_entry_general done backups file tr :
  Listed H done backups ->
  Sat (list_entry H backups file) tr
    (fun r evs =>
       match r with
       | Ok backups' => Listed H (done ++ [file]) backups'
       | Throw e => ThrownByListing e evs
       end).
Proof.
  intros Hlisted. unfold list_entry.
  apply sat_bind, sat_perform.
  destruct (fs_stat H tr (path_join H (backupDir H) file)) as [stats|e];
    cbn [failure_of].
  2:{ exists [], (EStat (path_join H (backupDir H) file) (Some e)). auto. }
  destruct (st_isDirectory stats).
  - apply sat_try_catch, sat_bind, sat_perform.
    destruct (read_manifest H _ _) as [[manifest|]|e]; cbn [failure_of].
    3:{ apply sat_ret. now apply listed_more. }
    2:{ apply sat_bind. unfold js_defined.
        apply sat_throw, sat_ret. now apply listed_more. }
    apply sat_bind. unfold js_defined. apply sat_ret, sat_bind.
    destruct (mf_collections manifest) as [collections|].
    2:{ apply sat_throw, sat_ret. now apply listed_more. }
    apply sat_ret, sat_ret. apply listed_push; [exact Hlisted|].
    split; reflexivity.
  - destruct (endsWith file ".zip") eqn:Hzip.
    + apply sat_ret. apply listed_push; [exact Hlisted|].
      split; [reflexivity|]. cbn. repeat split; auto.
    + apply sat_ret. now apply listed_more.
Qed.

Lemma thrown_later e evs evs' :
  ThrownByListing e evs' -> ThrownByListing e (evs ++ evs').
Proof.
  intros (before & ev & -> & Hfatal & He).
  exists (evs ++ before), ev. now rewrite app_assoc.
Qed.

Lemma listBackups_general tr :
  Sat (listBackups H) tr
    (fun r evs =>
       match r with
       | Ok backups =>
           exists files unsorted,
             fs_readdir H tr (backupDir H) = Ok files /\
             backups = sort_backups H unsorted /\
             Listed H files unsorted
       | Throw e =>
           exists before,
             evs = before ++ [ELog Error "Failed to list backups:"] /\
             ThrownByListing e before
       end).
Proof.
  unfold listBackups.
  apply sat_try_catch, sat_bind, sat_perform.
  destruct (fs_readdir H tr (backupDir H)) as [files|e]; cbn [failure_of].
  2:{ apply sat_bind, sat_log, sat_throw.
      exists [EReaddir (backupDir H) (Some e)]. split; [reflexivity|].
      exists [], (EReaddir (backupDir H) (Some e)). auto. }
  apply sat_bind.
  refine (sat_weaken _ _ _ _
            (sat_for_of_general files (list_entry H)
               (fun done backups _ => Listed H done backups)
               (fun e evs => ThrownByListing e evs)
               _ [] [] (tr ++ [EReaddir (backupDir H) None])
               [EReaddir (backupDir H) None] _) _).
  - intros done file backups tr' evs Hlisted.
    apply (sat_weaken _ _ _ _ (list_entry_general done backups file tr' Hlisted)).
    intros [backups'|e] evs' Hpost; [exact Hpost | now apply thrown_later].
  - split; [cbn; lia | intros b []].
  - intros [unsorted|e] evs Hpost.
    + apply sat_ret. exists files, unsorted. auto.
    + apply sat_bind, sat_log, sat_throw.
      exists ([EReaddir (backupDir H) None] ++ evs).
      split; [now rewrite app_nil_r, <- app_assoc | exact Hpost].
Qed.

(** Among descriptors with valid dates the insertion keeps the order. *)
Lemma insert_newest_first_sorted x sorted :
  dated x = true ->
  newest_first sorted -> Forall (fun b => dated b = true) sorted ->
  newest_first (insert_newest_first x sorted).
Proof.
  unfold dated at 1. destruct (bd_created x) as [tx|] eqn:Hx; [|discriminate].
  intros _.
  induction sorted as [|y sorted IH]; intros Hsorted Hdated.
  - intros i j a b Hij Ha Hb. destruct i, j; cbn in *; try discriminate; lia.
  - cbn [insert_newest_first].
    inversion Hdated as [|y' sorted' Hy Hrest]; subst.
    unfold dated in Hy. destruct (bd_created y) as [ty|] eqn:Hty; [|discriminate].
    unfold created_before. rewrite Hx, Hty.
    destruct (tx <? ty) eqn:Hxy.
    + assert (Htail : newest_first sorted).
      { intros i j a b Hij Ha Hb.
        apply (Hsorted (S i) (S j) a b); [lia | exact Ha | exact Hb]. }
      specialize (IH Htail Hrest).
      intros i j a b Hij Ha Hb. destruct j as [|j]; [lia|].
      destruct i as [|i].
      * cbn in Ha. injection Ha as <-. cbn in Hb.
        apply list_elem_of_lookup_2, list_elem_of_In in Hb.
        apply insert_newest_first_In in Hb as [->|Hin].
        -- exists ty, tx. apply Z.ltb_lt in Hxy.
           split; [exact Hty|]. split; [exact Hx | lia].
        -- apply list_elem_of_In, list_elem_of_lookup_1 in Hin as [k Hk].
           apply (Hsorted 0%nat (S k) y b); [lia | reflexivity | exact Hk].
      * cbn in Ha, Hb. apply (IH i j a b); [lia | exact Ha | exact Hb].
    + apply Z.ltb_ge in Hxy.
      intros i j a b Hij Ha Hb. destruct j as [|j]; [lia|].
      destruct i as [|i].
      * cbn in Ha. injection Ha as <-. cbn in Hb.
        destruct j as [|j].
        -- cbn in Hb. injection Hb as <-. exists tx, ty. auto.
        -- cbn in Hb.
           destruct (Hsorted 0%nat (S j) y b ltac:(lia) eq_refl Hb)
             as (ty' & tb & Hty' & Htb & Hle).
           exists tx, tb. split; [exact Hx|]. split; [exact Htb|].
           rewrite Hty in Hty'. injection Hty' as <-. lia.
      * cbn in Ha, Hb. apply (Hsorted i j a b); [lia | exact Ha | exact Hb].
Qed.

Lemma insert_newest_first_dated x sorted :
  dated x = true -> Forall (fun b => dated b = true) sorted ->
  Forall (fun b => dated b = true) (insert_newest_first x sorted).
Proof.
  intros Hx Hsorted. apply List.Forall_forall. intros b Hb.
  apply insert_newest_first_In in Hb as [->|Hin]; [exact Hx|].
  rewrite List.Forall_forall in Hsorted. now apply Hsorted.
Qed.

Lemma sort_newest_first_sorted backups :
  Forall (fun b => dated b = true) backups ->
  newest_first (sort_newest_first backups) /\
  Forall (fun b => dated b = true) (sort_newest_first backups).
Proof.
  unfold sort_newest_first. induction 1 as [|x backups Hx Hrest IH]; cbn.
  - split; [|constructor]. intros i j a b _ Ha. destruct i; discriminate.
  - destruct IH as [Hsorted Hdated]. split.
    + now apply insert_newest_first_sorted.
    + now apply insert_newest_first_dated.
Qed.

(** X12.  When every descriptor that [listBackups] returns has a valid date,
    the descriptors come from the newest to the oldest: one that comes later
    in the result was not created after one that comes earlier.  A
    directory whose manifest has no valid [timestamp] is listed without a
    valid date, and then the order is the engine's. *)
Theorem listBackups_is_newest_first tr backups evs :
  listBackups H tr = (Ok backups, tr ++ evs) ->
  Forall (fun b => is_Some (bd_created b)) backups ->
  newest_first backups.
Proof.
  intros Hrun Hdated.
  destruct (sat_run _ _ _ _ _ (listBackups_general tr) Hrun)
    as (files & unsorted & _ & -> & _).
  assert (Hall : Forall (fun b => dated b = true) unsorted).
  { apply List.Forall_forall. intros b Hin.
    rewrite List.Forall_forall in Hdated.
    destruct (Hdated b (proj2 (sort_backups_In H b unsorted) Hin)) as [t Ht].
    unfold dated. now rewrite Ht. }
  unfold sort_backups.
  rewrite (proj2 (forallb_forall dated unsorted)).
  - now apply sort_newest_first_sorted.
  - rewrite List.Forall_forall in Hall. exact Hall.
Qed.

(** X13.  Every descriptor that [listBackups] returns describes an entry of
    the backup root: a directory is listed under its own name, an archive
    under its name without the first [.zip] and with no cluster, database or
    counts; there are at most as many descriptors as entries, so an empty
    root lists nothing. *)
Theorem listBackups_lists_entries_of_the_root tr backups evs :
  listBackups H tr = (Ok backups, tr ++ evs) ->
  exists files,
    fs_readdir H tr (backupDir H) = Ok files /\
    (length backups <= length files)%nat /\
    (files = [] -> backups = []) /\
    forall b,
      In b backups -> exists file, In file files /\ DescribesEntry H file b.
Proof.
  intros Hrun.
  destruct (sat_run _ _ _ _ _ (listBackups_general tr) Hrun)
    as (files & unsorted & Hfiles & -> & Hlen & Hfrom).
  exists files. split; [exact Hfiles|].
  rewrite sort_backups_length. split; [exact Hlen|]. split.
  - intros ->. destruct unsorted; [|cbn in Hlen; lia].
    apply length_zero_iff_nil. now rewrite sort_backups_length.
  - intros b Hin. apply Hfrom. now apply (sort_backups_In H).
Qed.

(** X14.  [listBackups] rejects only when reading the backup root or
    examining one of its entries throws, and then with that error, logged
    once; a manifest that is missing or cannot be parsed never makes it
    reject. *)
Theorem listBackups_rejects_only_on_readdir_or_stat tr e evs :
  listBackups H tr = (Throw e, tr ++ evs) ->
  exists before ev,
    evs = before ++ [ev; ELog Error "Failed to list backups:"] /\
    list_fatal ev = true /\
    event_failure ev = Some e.
Proof.
  intros Hrun.
  destruct (sat_run _ _ _ _ _ (listBackups_general tr) Hrun)
    as (before' & -> & before & ev & -> & Hfatal & He).
  exists before, ev. now rewrite <- app_assoc.
Qed.

End InventoryGuarantees.

Lemma substring_none n s : String.substring n 0 s = "".
Proof.
  revert n. induction s as [|c s IH]; intros [|n]; cbn; auto.
Qed.

Lemma substring_prefix s t :
  String.substring 0 (String.length s) (s +:+ t) = s.
Proof.
  induction s as [|c s IH]; [cbn; apply substring_none|].
  change (String c s +:+ t) with (String c (s +:+ t)). cbn. now rewrite IH.
Qed.

Lemma index_of_extension base :
  (forall ch, In ch (list_ascii_of_string base) -> ch <> "."%char) ->
  String.index 0 ".zip" (base +:+ ".zip") = Some (String.length base).
Proof.
  induction base as [|c base IH]; intros Hdots; [reflexivity|].
  change (String c base +:+ ".zip") with (String c (base +:+ ".zip")).
  cbn [String.index String.prefix String.length].
  destruct (ascii_dec "." c) as [<-|_].
  - exfalso. apply (Hdots "."%char); [now left | reflexivity].
  - rewrite IH; [reflexivity|]. intros ch Hin. apply Hdots. now right.
Qed.

(** Removing the first [.zip] from a file name without another dot gives back
    the name without its extension. *)
Lemma replace_first_extension base :
  (forall ch, In ch (list_ascii_of_string base) -> ch <> "."%char) ->
  replace_first ".zip" "" (base +:+ ".zip") = base.
Proof.
  intros Hdots. unfold replace_first. rewrite (index_of_extension _ Hdots).
  rewrite substring_prefix, length_append. cbn [String.length].
  replace (String.length base + 4 - (String.length base + 4))%nat with 0%nat
    by lia.
  rewrite substring_none.
  change ("" +:+ "") with "".
  induction base as [|c base IH]; [reflexivity|].
  change (String c base +:+ "") with (String c (base +:+ "")).
  rewrite IH; [reflexivity|]. intros ch Hin. apply Hdots. now right.
Qed.

Section ArchiveEntries.

Variable H : Host.

(** X15.  An entry of the backup root that is a file [name.zip], with no
    other dot in its name, is listed as the compressed backup [name], from
    the answer of [fs.stat] alone: its size and modification time, no
    cluster, database or counts, and no file is read. *)
Theorem list_entry_describes_archive_from_stat base backups tr stats :
  (forall ch, In ch (list_ascii_of_string base) -> ch <> "."%char) ->
  fs_stat H tr (path_join H (backupDir H) (base +:+ ".zip")) = Ok stats ->
  st_isDirectory stats = false ->
  list_entry H backups (base +:+ ".zip") tr =
    (Ok (backups ++
         [{| bd_name := base;
             bd_path := path_join H (backupDir H) (base +:+ ".zip");
             bd_created := Some (st_mtime stats);
             bd_cluster := None;
             bd_database := None;
             bd_collections := None;
             bd_totalDocuments := None;
             bd_size := st_size stats;
             bd_compressed := true |}]),
     tr ++ [EStat (path_join H (backupDir H) (base +:+ ".zip")) None]).
Proof.
  intros Hdots Hstat Hfile. unfold list_entry. run_eff.
  rewrite Hstat, Hfile, endsWith_append, (replace_first_extension _ Hdots).
  reflexivity.
Qed.

End ArchiveEntries.

(** *** The further properties of [listBackups] on the example roots *)

Lemma listBackups_is_newest_first_witness :
  let run := listBackups mixed_root [] in
  exists backups,
    fst run = Ok backups /\
    map bd_name backups =
      ["atlas-shop-2024-02-01T10-00-00-000Z";
       "atlas-shop-2024-01-01T10-00-00-000Z"] /\
    map bd_created backups = [Some 1706781600000; Some 1704103200000] /\
    Forall (fun b => is_Some (bd_created b)) backups /\
    newest_first backups.
Proof.
  intros run.
  destruct (fst run) as [backups|e] eqn:Hres; [|vm_compute in Hres; discriminate].
  assert (Hdated : Forall (fun b => is_Some (bd_created b)) backups).
  { vm_compute in Hres. injection Hres as <-.
    repeat constructor; eexists; reflexivity. }
  exists backups. split; [reflexivity|]. split; [|split; [|split]].
  - vm_compute in Hres. now injection Hres as <-.
  - vm_compute in Hres. now injection Hres as <-.
  - exact Hdated.
  - apply (listBackups_is_newest_first mixed_root [] backups (snd run)).
    + rewrite <- Hres. vm_compute. reflexivity.
    + exact Hdated.
Defined.

(** Without the dates the order is not the newest first: the directory whose
    manifest has no [timestamp] is listed with an invalid date, and on an
    engine that leaves such an array as it is the older backup comes
    first. *)
Example listBackups_with_an_undated_manifest :
  exists older undated newer,
    fst (listBackups undated_root []) = Ok [older; undated; newer] /\
    bd_created older = Some 1704103200000 /\
    bd_created undated = None /\
    bd_created newer = Some 1706781600000 /\
    ~ newest_first [older; undated; newer].
Proof.
  eexists. eexists. eexists. split; [vm_compute; reflexivity|].
  split; [reflexivity|]. split; [reflexivity|]. split; [reflexivity|].
  intros Hsorted.
  destruct (Hsorted 0%nat 1%nat _ _ ltac:(lia) eq_refl eq_refl)
    as (ta & tb & _ & Hb & _).
  discriminate Hb.
Qed.

Lemma listBackups_lists_entries_of_the_root_witness :
  let run := listBackups mixed_root [] in
  exists backups,
    fst run = Ok backups /\
    length backups = 2%nat /\
    exists files,
      fs_readdir mixed_root [] (backupDir mixed_root) = Ok files /\
      (length backups <= length files)%nat /\
      (files = [] -> backups = []) /\
      forall b,
        In b backups ->
        exists file, In file files /\ DescribesEntry mixed_root file b.
Proof.
  intros run.
  destruct (fst run) as [backups|e] eqn:Hres; [|vm_compute in Hres; discriminate].
  exists backups. split; [reflexivity|]. split.
  - vm_compute in Hres. now injection Hres as <-.
  - apply (listBackups_lists_entries_of_the_root mixed_root [] backups
             (snd run)).
    rewrite <- Hres. vm_compute. reflexivity.
Defined.

Lemma listBackups_rejects_only_on_readdir_or_stat_witness :
  let run := listBackups unreadable_root [] in
  fst run = Throw "EACCES: permission denied" /\
  In (EReadFile "/srv/backups/atlas-shop-2024-01-01T10-00-00-000Z/backup-info.json"
        None) (snd run) /\
  exists before ev,
    snd run = before ++ [ev; ELog Error "Failed to list backups:"] /\
    list_fatal ev = true /\
    event_failure ev = Some "EACCES: permission denied".
Proof.
  intros run. split; [reflexivity|]. split; [vm_compute; tauto|].
  apply (listBackups_rejects_only_on_readdir_or_stat unreadable_root []
           "EACCES: permission denied" (snd run)).
  vm_compute. reflexivity.
Defined.

Lemma list_entry_describes_archive_from_stat_witness :
  let H := mixed_root in
  let base := "atlas-shop-2024-02-01T10-00-00-000Z" in
  let stats :=
    {| st_isDirectory := false; st_size := 512; st_mtime := 1706781600000 |} in
  (forall ch, In ch (list_ascii_of_string base) -> ch <> "."%char) /\
  fs_stat H [] (path_join H (backupDir H) (base +:+ ".zip")) = Ok stats /\
  st_isDirectory stats = false /\
  list_entry H [] (base +:+ ".zip") [] =
    (Ok ([] ++
         [{| bd_name := base;
             bd_path := path_join H (backupDir H) (base +:+ ".zip");
             bd_created := Some (st_mtime stats);
             bd_cluster := None;
             bd_database := None;
             bd_collections := None;
             bd_totalDocuments := None;
             bd_size := st_size stats;
             bd_compressed := true |}]),
     [] ++ [EStat (path_join H (backupDir H) (base +:+ ".zip")) None]).
Proof.
  intros H base stats.
  assert (Hdots : forall ch, In ch (list_ascii_of_string base) -> ch <> "."%char).
  { intros ch Hin. vm_compute in Hin.
    repeat match goal with
      | Hor : _ \/ _ |- _ => destruct Hor as [<-|Hor]
      end; try discriminate; contradiction. }
  split; [exact Hdots|]. split; [reflexivity|]. split; [reflexivity|].
  apply (list_entry_describes_archive_from_stat H base [] [] stats Hdots);
    reflexivity.
Defined.

(** ** Further properties of [cleanupOldBackups] *)

Section RetentionGuarantees.

Variable H : Host.

Lemma deletion_calls_app evs evs' :
  deletion_calls (evs ++ evs') = deletion_calls evs ++ deletion_calls evs'.
Proof.
  induction evs as [|ev evs IH]; [reflexivity|].
  destruct ev; cbn; now rewrite ?IH.
Qed.

Lemma cleanup_backup_deletes backup tr :
  Sat (cleanup_backup H tt backup) tr
    (fun r evs => r = Ok tt /\ deletion_calls evs = [deletion_of backup]).
Proof.
  unfold cleanup_backup, deletion_of. apply sat_try_catch, sat_bind.
  destruct (bd_compressed backup); apply sat_perform.
  - destruct (fs_unlink H tr (bd_path backup)) as [[]|e]; cbn [failure_of];
      apply sat_log; now split.
  - destruct (fs_rmdir H tr (bd_path backup)) as [[]|e]; cbn [failure_of];
      apply sat_log; now split.
Qed.

Lemma cleanup_loop_deletes old tr :
  Sat (for_of old (cleanup_backup H) tt) tr
    (fun r evs => r = Ok tt /\ deletion_calls evs = map deletion_of old).
Proof.
  refine (sat_weaken _ _ _ _
            (sat_for_of old (cleanup_backup H)
               (fun done _ evs => deletion_calls evs = map deletion_of done)
               _ [] tt tr [] eq_refl) _).
  - intros done backup [] tr' evs Hevs.
    apply (sat_weaken _ _ _ _ (cleanup_backup_deletes backup tr')).
    intros r evs' [-> Hevs']. exists tt. split; [reflexivity|].
    now rewrite deletion_calls_app, map_app, Hevs, Hevs'.
  - intros r evs ([] & -> & Hevs). auto.
Qed.

(** X16.  When the listing succeeds, [cleanupOldBackups] resolves whatever
    the deletions answer.  It attempts one deletion for each listed backup
    created before the cutoff, in the order of the listing, with
    [fs.unlink] for an archive and [fs.rmdir] for a directory, and none for
    any other backup; it returns the number of those backups. *)
Theorem cleanupOldBackups_sweeps_the_old_backups
    retentionDays tr backups listing :
  listBackups H tr = (Ok backups, tr ++ listing) ->
  exists sweep,
    cleanupOldBackups H retentionDays tr =
      (Ok (Z.of_nat
             (length (List.filter (is_old (cutoff_at H retentionDays tr))
                        backups))),
       tr ++ listing ++ sweep) /\
    deletion_calls sweep =
      map deletion_of
        (List.filter (is_old (cutoff_at H retentionDays tr)) backups).
Proof.
  intros Hlist.
  destruct (cleanup_loop_deletes
              (List.filter (is_old (cutoff_at H retentionDays tr)) backups)
              (tr ++ listing))
    as (r & sweep & Hloop & -> & Hcalls).
  exists sweep. split; [|exact Hcalls].
  unfold cleanupOldBackups. run_eff. rewrite Hlist.
  fold (cutoff_at H retentionDays tr). rewrite Hloop.
  now rewrite app_assoc.
Qed.

(** X17.  When the listing rejects, [cleanupOldBackups] rejects with the
    same error and deletes nothing. *)
Theorem cleanupOldBackups_rejects_with_the_listing retentionDays tr e listing :
  listBackups H tr = (Throw e, tr ++ listing) ->
  cleanupOldBackups H retentionDays tr =
    (Throw e, tr ++ listing ++ [ELog Error "Backup cleanup failed:"]) /\
  deletion_calls (listing ++ [ELog Error "Backup cleanup failed:"]) = [].
Proof.
  intros Hlist. split.
  - unfold cleanupOldBackups. run_eff. rewrite Hlist.
    now rewrite <- app_assoc.
  - pose proof (sat_run _ _ _ _ _ (listBackups_sat H tr) Hlist) as [Hcalls _].
    rewrite deletion_calls_app, app_nil_r.
    clear Hlist. induction listing as [|ev listing IH]; [reflexivity|].
    cbn [forallb] in Hcalls. apply andb_prop in Hcalls as [Hev Hrest].
    destruct ev; try discriminate; cbn; auto.
Qed.

Lemma retention_of_configured configured days :
  number_or configured None = Some days ->
  retention_of None configured = days /\
  retention_of (Some days) configured = days.
Proof.
  unfold retention_of, number_or. destruct configured as [n|]; [|discriminate].
  destruct (n =? 0) eqn:Hn; [discriminate|].
  intros [= <-]. rewrite !Hn. now split.
Qed.

Lemma retention_of_default configured :
  number_or configured None = None ->
  retention_of None configured = 30.
Proof.
  unfold retention_of, number_or. destruct configured as [n|]; [|reflexivity].
  destruct (n =? 0); [reflexivity | discriminate].
Qed.

(** X18.  A retention of zero days is no retention given: the sweep then
    uses the configured retention, and thirty days when none is configured
    or the configured one is zero. *)
Theorem cleanupOldBackups_zero_means_default tr :
  cleanupOldBackups H (Some 0) tr = cleanupOldBackups H None tr /\
  (number_or (config_backupRetention H tr) None = None ->
   cleanupOldBackups H None tr = cleanupOldBackups H (Some 30) tr) /\
  (forall days,
      number_or (config_backupRetention H tr) None = Some days ->
      cleanupOldBackups H None tr = cleanupOldBackups H (Some days) tr).
Proof.
  unfold cleanupOldBackups, bind, observe.
  split; [reflexivity|]. split.
  - intros Hnone. now rewrite (retention_of_default _ Hnone).
  - intros days Hdays.
    destruct (retention_of_configured _ _ Hdays) as [-> ->]. reflexivity.
Qed.

End RetentionGuarantees.

(** *** The further properties of [cleanupOldBackups] on the example roots *)

Lemma cleanupOldBackups_sweeps_the_old_backups_witness :
  let listed := listBackups mixed_root [] in
  exists backups sweep,
    fst listed = Ok backups /\
    cleanupOldBackups mixed_root (Some 7) [] =
      (Ok (Z.of_nat
             (length (List.filter
                        (is_old (cutoff_at mixed_root (Some 7) []))
                        backups))),
       [] ++ snd listed ++ sweep) /\
    deletion_calls sweep =
      map deletion_of
        (List.filter (is_old (cutoff_at mixed_root (Some 7) [])) backups) /\
    deletion_calls sweep =
      [(true, "/srv/backups/atlas-shop-2024-02-01T10-00-00-000Z.zip");
       (false, "/srv/backups/atlas-shop-2024-01-01T10-00-00-000Z")].
Proof.
  intros listed.
  destruct (fst listed) as [backups|e] eqn:Hres;
    [|vm_compute in Hres; discriminate].
  destruct (cleanupOldBackups_sweeps_the_old_backups mixed_root (Some 7) []
              backups (snd listed))
    as (sweep & Hrun & Hcalls).
  { rewrite <- Hres. vm_compute. reflexivity. }
  exists backups, sweep. split; [reflexivity|].
  split; [exact Hrun|]. split; [exact Hcalls|].
  rewrite Hcalls. vm_compute in Hres. now injection Hres as <-.
Defined.

Lemma cleanupOldBackups_rejects_with_the_listing_witness :
  let listed := listBackups unreadable_root [] in
  fst listed = Throw "EACCES: permission denied" /\
  cleanupOldBackups unreadable_root (Some 7) [] =
    (Throw "EACCES: permission denied",
     [] ++ snd listed ++ [ELog Error "Backup cleanup failed:"]) /\
  deletion_calls (snd listed ++ [ELog Error "Backup cleanup failed:"]) = [].
Proof.
  intros listed. split; [reflexivity|].
  apply (cleanupOldBackups_rejects_with_the_listing unreadable_root (Some 7)
           [] "EACCES: permission denied" (snd listed)).
  vm_compute. reflexivity.
Defined.

Lemma cleanupOldBackups_zero_means_default_witness :
  let H := host_of undeletable in
  number_or (config_backupRetention H []) None = None /\
  cleanupOldBackups H (Some 0) [] = cleanupOldBackups H None [] /\
  cleanupOldBackups H None [] = cleanupOldBackups H (Some 30) [].
Proof.
  intros H. split; [reflexivity|].
  destruct (cleanupOldBackups_zero_means_default H []) as (Hzero & Hnone & _).
  split; [exact Hzero | now apply Hnone].
Defined.

(** ** Further properties of the scheduler *)

Section SchedulerGuarantees.

Variable SH : SchedulerHost.

(** [scheduleBackup] for a pair that has no entry, step by step. *)
Lemma scheduleBackup_fresh clusterName dbName cronPattern options s :
  scheduledJobs s !! jobId_of clusterName dbName = None ->
  scheduleBackup SH clusterName dbName cronPattern options s =
    match cron_validate SH cronPattern with
    | Throw e => (Throw e, with_journal [(Error, "Failed to schedule backup:")] s)
    | Ok _ =>
        let s' := installed SH clusterName dbName cronPattern options s in
        match config_save SH s' with
        | Ok _ =>
            (Ok (jobId_of clusterName dbName),
             with_journal
               [(Info,
                 "Scheduled backup created: " +:+ jobId_of clusterName dbName +:+
                 " (" +:+ cronPattern +:+ ")")] (saved s'))
        | Throw e =>
            (Throw e, with_journal [(Error, "Failed to schedule backup:")] s')
        end
    end.
Proof.
  intros Hfresh. unfold scheduleBackup, try_catch, bind. rewrite Hfresh.
  cbn [ret]. unfold cron_schedule.
  destruct (cron_validate SH cronPattern) as [[]|e]; [|reflexivity].
  rewrite invoke_start.
  unfold saveScheduleToConfig, save_config, bind, set_backupSchedules,
    set_running, set_scheduledJobs, journal_log, ret, throw.
  cbn [scheduledJobs tasks backupSchedules saves journal].
  assert (Hlast :
    forall t : CronTask, (tasks s ++ [t]) !! length (tasks s) = Some t).
  { intros t. rewrite lookup_app_r by lia. now rewrite Nat.sub_diag. }
  rewrite !Hlast.
  assert (Hput :
    forall t t' : CronTask,
      <[length (tasks s) := t']> (tasks s ++ [t]) = tasks s ++ [t']).
  { intros t t'. rewrite insert_app_r_alt by lia. now rewrite Nat.sub_diag. }
  rewrite !Hput.
  cbn [ct_pattern ct_cluster ct_database ct_options].
  unfold installed, entry_for, task_for, setting_for, with_journal, saved.
  cbn [scheduledJobs tasks backupSchedules saves journal].
  destruct (config_save SH _) as [[]|e]; reflexivity.
Qed.


Lemma scheduleBackup_only_when_fresh clusterName dbName cronPattern options
    s jobId s1 :
  scheduleBackup SH clusterName dbName cronPattern options s = (Ok jobId, s1) ->
  scheduledJobs s !! jobId_of clusterName dbName = None.
Proof.
  intros Hrun.
  destruct (scheduledJobs s !! jobId_of clusterName dbName) as [entry|] eqn:Hentry;
    [|reflexivity].
  rewrite (scheduleBackup_existing_throws SH _ _ cronPattern options _ _ Hentry)
    in Hrun.
  discriminate.
Qed.

(** What a call of [scheduleBackup] that has returned has done. *)
Lemma scheduleBackup_returned clusterName dbName cronPattern options s jobId s1 :
  scheduleBackup SH clusterName dbName cronPattern options s = (Ok jobId, s1) ->
  scheduledJobs s !! jobId_of clusterName dbName = None /\
  jobId = jobId_of clusterName dbName /\
  s1 =
    with_journal
      [(Info,
        "Scheduled backup created: " +:+ jobId_of clusterName dbName +:+
        " (" +:+ cronPattern +:+ ")")]
      (saved (installed SH clusterName dbName cronPattern options s)).
Proof.
  intros Hrun.
  pose proof (scheduleBackup_only_when_fresh _ _ _ _ _ _ _ Hrun) as Hfresh.
  rewrite (scheduleBackup_fresh _ _ cronPattern options _ Hfresh) in Hrun.
  destruct (cron_validate SH cronPattern) as [[]|e]; [|discriminate].
  cbn zeta in Hrun.
  destruct (config_save SH _) as [[]|e]; [|discriminate].
  injection Hrun as <- <-. auto.
Qed.

Lemma unscheduleBackup_missing jobId s :
  scheduledJobs s !! jobId = None -> unscheduleBackup SH jobId s = (Ok false, s).
Proof. intros Hnone. unfold unscheduleBackup, bind. now rewrite Hnone. Qed.

(** [unscheduleBackup] of the id that [scheduleBackup] has just returned. *)
Lemma unscheduleBackup_after_scheduleBackup
    clusterName dbName cronPattern options s jobId s1 res s2 :
  scheduleBackup SH clusterName dbName cronPattern options s = (Ok jobId, s1) ->
  unscheduleBackup SH jobId s1 = (res, s2) ->
  scheduledJobs s2 = scheduledJobs s /\
  tasks s2 =
    tasks s ++
    [{| ct_pattern := cronPattern;
        ct_cluster := clusterName;
        ct_database := dbName;
        ct_options := options;
        ct_running := false |}] /\
  default ∅ (backupSchedules s2) !! jobId = None /\
  (res = Ok true \/ exists e, res = Throw e).
Proof.
  intros Hrun Hundo.
  destruct (scheduleBackup_returned _ _ _ _ _ _ _ Hrun) as (Hfresh & -> & ->).
  unfold unscheduleBackup, bind in Hundo.
  cbn [with_journal saved installed scheduledJobs] in Hundo.
  rewrite lookup_insert_eq, invoke_stop in Hundo.
  unfold removeScheduleFromConfig, save_config, bind, set_scheduledJobs,
    set_backupSchedules, set_running, journal_log, ret in Hundo.
  cbn [with_journal saved installed scheduledJobs tasks backupSchedules saves
       journal entry_for se_job default from_option] in Hundo.
  unfold id in Hundo.
  rewrite lookup_app_r in Hundo by lia. rewrite Nat.sub_diag in Hundo.
  cbn [lookup list_lookup task_for ct_pattern ct_cluster ct_database
       ct_options] in Hundo.
  rewrite insert_app_r_alt in Hundo by lia. rewrite Nat.sub_diag in Hundo.
  cbn [insert list_insert] in Hundo.
  rewrite (delete_insert_id _ _ _ Hfresh) in Hundo.
  destruct (config_save SH _) as [[]|e]; injection Hundo as <- <-;
    cbn [scheduledJobs tasks backupSchedules default from_option]; unfold id;
    (split; [reflexivity|]); (split; [reflexivity|]);
    (split; [apply lookup_delete_eq|]).
  - now left.
  - right. now exists e.
Qed.

Lemma append_assoc (a b c : string) :
  (a +:+ b) +:+ c = a +:+ (b +:+ c).
Proof.
  induction a as [|ch a IH]; [reflexivity|].
  change (String ch a +:+ b) with (String ch (a +:+ b)).
  change (String ch (a +:+ b) +:+ c) with (String ch ((a +:+ b) +:+ c)).
  change (String ch a +:+ (b +:+ c)) with (String ch (a +:+ (b +:+ c))).
  now rewrite IH.
Qed.

(** X19.  A call of [scheduleBackup] that returns has returned the id
    [cluster-database], has put the schedule under that id into the setting
    [backupSchedules] and has saved the configuration once; the entries and
    the settings of the other ids, and the tasks that existed, are as they
    were. *)
Theorem scheduleBackup_persists_the_schedule
    clusterName dbName cronPattern options s jobId s1 :
  scheduleBackup SH clusterName dbName cronPattern options s = (Ok jobId, s1) ->
  jobId = clusterName +:+ "-" +:+ dbName /\
  default ∅ (backupSchedules s1) !! jobId =
    Some {| ps_cluster := clusterName;
            ps_database := dbName;
            ps_pattern := cronPattern;
            ps_options := options |} /\
  (forall other, other <> jobId ->
      scheduledJobs s1 !! other = scheduledJobs s !! other /\
      default ∅ (backupSchedules s1) !! other =
        default ∅ (backupSchedules s) !! other) /\
  (forall job task, tasks s !! job = Some task -> tasks s1 !! job = Some task) /\
  saves s1 = S (saves s).
Proof.
  intros Hrun.
  destruct (scheduleBackup_returned _ _ _ _ _ _ _ Hrun) as (Hfresh & -> & ->).
  cbn [with_journal saved installed scheduledJobs tasks backupSchedules saves
       default from_option]. unfold id.
  split; [reflexivity|]. split; [apply lookup_insert_eq|]. split; [|split].
  - intros other Hne. split; now rewrite lookup_insert_ne.
  - intros job task Htask. now apply lookup_app_l_Some.
  - reflexivity.
Qed.

(** X20.  When [scheduleBackup] for a pair without an entry rejects, either
    node-cron has rejected the pattern and nothing but the log has changed,
    or saving the configuration has failed: then the trigger stays in the
    table, its task is running and the schedule is in the settings in memory,
    although the call has rejected and nothing was saved. *)
Theorem scheduleBackup_rejected_after_installing
    clusterName dbName cronPattern options s e s1 :
  scheduledJobs s !! jobId_of clusterName dbName = None ->
  scheduleBackup SH clusterName dbName cronPattern options s = (Throw e, s1) ->
  (cron_validate SH cronPattern = Throw e /\
   scheduledJobs s1 = scheduledJobs s /\
   tasks s1 = tasks s /\
   backupSchedules s1 = backupSchedules s /\
   saves s1 = saves s) \/
  (cron_validate SH cronPattern = Ok tt /\
   (exists entry,
      scheduledJobs s1 !! jobId_of clusterName dbName = Some entry /\
      se_job entry = length (tasks s) /\
      tasks s1 !! se_job entry =
        Some {| ct_pattern := cronPattern;
                ct_cluster := clusterName;
                ct_database := dbName;
                ct_options := options;
                ct_running := true |}) /\
   default ∅ (backupSchedules s1) !! jobId_of clusterName dbName =
     Some {| ps_cluster := clusterName;
             ps_database := dbName;
             ps_pattern := cronPattern;
             ps_options := options |} /\
   saves s1 = saves s).
Proof.
  intros Hfresh Hrun.
  rewrite (scheduleBackup_fresh _ _ cronPattern options _ Hfresh) in Hrun.
  destruct (cron_validate SH cronPattern) as [[]|e'].
  - cbn zeta in Hrun.
    destruct (config_save SH _) as [[]|e''] eqn:Hsave; [discriminate|].
    injection Hrun as <- <-. right.
    cbn [with_journal installed scheduledJobs tasks backupSchedules saves
         default from_option]. unfold id.
    split; [reflexivity|]. split.
    + exists (entry_for SH clusterName dbName cronPattern options s).
      split; [apply lookup_insert_eq|]. split; [reflexivity|].
      cbn [entry_for se_job]. rewrite lookup_app_r by lia.
      now rewrite Nat.sub_diag.
    + split; [apply lookup_insert_eq | reflexivity].
  - injection Hrun as <- <-. left. auto.
Qed.

(** X21.  [unscheduleBackup] of the id that [scheduleBackup] has returned
    undoes the call, whether or not the configuration can be saved: the
    table is as it was before the two calls, the task of the trigger is
    stopped and the id is out of the settings.  When it returns it returns
    [true], and a further call returns [false] and changes nothing. *)
Theorem unscheduleBackup_undoes_scheduleBackup
    clusterName dbName cronPattern options s jobId s1 res s2 :
  scheduleBackup SH clusterName dbName cronPattern options s = (Ok jobId, s1) ->
  unscheduleBackup SH jobId s1 = (res, s2) ->
  scheduledJobs s2 = scheduledJobs s /\
  tasks s2 =
    tasks s ++
    [{| ct_pattern := cronPattern;
        ct_cluster := clusterName;
        ct_database := dbName;
        ct_options := options;
        ct_running := false |}] /\
  default ∅ (backupSchedules s2) !! jobId = None /\
  (res = Ok true \/ exists e, res = Throw e) /\
  unscheduleBackup SH jobId s2 = (Ok false, s2).
Proof.
  intros Hrun Hundo.
  destruct (unscheduleBackup_after_scheduleBackup _ _ _ _ _ _ _ _ _ Hrun Hundo)
    as (Htable & Htasks & Hsetting & Hres).
  repeat (split; [assumption|]).
  apply unscheduleBackup_missing. rewrite Htable.
  destruct (scheduleBackup_returned _ _ _ _ _ _ _ Hrun) as (Hfresh & -> & _).
  exact Hfresh.
Qed.

(** X22.  The id does not tell pairs apart whose names join to the same
    text: the pairs [(a-b, c)] and [(a, b-c)] have the same id.  So once the
    first is scheduled, the table holds its entry under the id of the
    second, scheduling the second rejects, and [unscheduleBackup] of the id
    of the second removes the entry of the first. *)
Theorem jobId_is_shared_by_pairs
    a b c cronPattern options s jobId s1 :
  scheduleBackup SH (a +:+ "-" +:+ b) c cronPattern options s = (Ok jobId, s1) ->
  jobId = jobId_of a (b +:+ "-" +:+ c) /\
  (exists entry,
     scheduledJobs s1 !! jobId_of a (b +:+ "-" +:+ c) = Some entry /\
     se_cluster entry = a +:+ "-" +:+ b /\
     se_database entry = c) /\
  (forall cronPattern' options',
     exists e s2,
       scheduleBackup SH a (b +:+ "-" +:+ c) cronPattern' options' s1 =
         (Throw e, s2)) /\
  (forall res s2,
     unscheduleBackup SH (jobId_of a (b +:+ "-" +:+ c)) s1 = (res, s2) ->
     scheduledJobs s2 !! jobId_of (a +:+ "-" +:+ b) c = None).
Proof.
  intros Hrun.
  assert (Hsame : jobId_of a (b +:+ "-" +:+ c) = jobId_of (a +:+ "-" +:+ b) c).
  { unfold jobId_of. now rewrite !append_assoc. }
  destruct (scheduleBackup_returned _ _ _ _ _ _ _ Hrun) as (Hfresh & Hid & Hs1).
  assert (Hentry :
    scheduledJobs s1 !! jobId_of a (b +:+ "-" +:+ c) =
      Some (entry_for SH (a +:+ "-" +:+ b) c cronPattern options s)).
  { rewrite Hsame, Hs1. cbn [with_journal saved installed scheduledJobs].
    apply lookup_insert_eq. }
  split; [now rewrite Hsame|]. split; [|split].
  - eexists. split; [exact Hentry|]. split; reflexivity.
  - intros cronPattern' options'.
    pose proof (scheduleBackup_existing_throws SH a (b +:+ "-" +:+ c)
                  cronPattern' options' _ _ Hentry) as Hthrows.
    rewrite Hthrows. eauto.
  - intros res s2 Hundo. rewrite Hsame, <- Hid in Hundo.
    destruct (unscheduleBackup_after_scheduleBackup _ _ _ _ _ _ _ _ _ Hrun Hundo)
      as (-> & _).
    exact Hfresh.
Qed.

End SchedulerGuarantees.

Lemma scheduleBackup_persists_the_schedule_witness :
  let first :=
    scheduleBackup obliging_host "atlas" "shop" "0 2 * * *"
      {| compress := true |} empty_scheduler in
  first = (Ok "atlas-shop", snd first) /\
  default ∅ (backupSchedules (snd first)) !! "atlas-shop" = Some nightly /\
  saves (snd first) = 1%nat.
Proof.
  intros first.
  assert (Hrun : first = (Ok "atlas-shop", snd first)) by reflexivity.
  split; [exact Hrun|].
  destruct (scheduleBackup_persists_the_schedule obliging_host "atlas" "shop"
              "0 2 * * *" {| compress := true |} empty_scheduler "atlas-shop"
              (snd first) Hrun) as (_ & Hsetting & _ & _ & Hsaves).
  split; [exact Hsetting | exact Hsaves].
Defined.

Lemma scheduleBackup_rejected_after_installing_witness :
  let first :=
    scheduleBackup readonly_host "atlas" "shop" "0 2 * * *"
      {| compress := true |} empty_scheduler in
  scheduledJobs empty_scheduler !! jobId_of "atlas" "shop" = None /\
  first = (Throw "Failed to save config: EROFS", snd first) /\
  (exists entry,
     scheduledJobs (snd first) !! jobId_of "atlas" "shop" = Some entry /\
     se_job entry = 0%nat /\
     tasks (snd first) !! se_job entry =
       Some {| ct_pattern := "0 2 * * *";
               ct_cluster := "atlas";
               ct_database := "shop";
               ct_options := {| compress := true |};
               ct_running := true |}) /\
  saves (snd first) = 0%nat.
Proof.
  intros first.
  assert (Hfresh : scheduledJobs empty_scheduler !! jobId_of "atlas" "shop" = None)
    by reflexivity.
  assert (Hrun : first = (Throw "Failed to save config: EROFS", snd first))
    by reflexivity.
  split; [exact Hfresh|]. split; [exact Hrun|].
  destruct (scheduleBackup_rejected_after_installing readonly_host "atlas"
              "shop" "0 2 * * *" {| compress := true |} empty_scheduler
              "Failed to save config: EROFS" (snd first) Hfresh Hrun)
    as [(Hcron & _) | (_ & Hentry & _ & Hsaves)].
  - discriminate Hcron.
  - split; [exact Hentry | exact Hsaves].
Defined.

Lemma unscheduleBackup_undoes_scheduleBackup_witness :
  let first :=
    scheduleBackup obliging_host "atlas" "shop" "0 2 * * *"
      {| compress := true |} empty_scheduler in
  let second := unscheduleBackup obliging_host "atlas-shop" (snd first) in
  first = (Ok "atlas-shop", snd first) /\
  second = (Ok true, snd second) /\
  scheduledJobs (snd second) = scheduledJobs empty_scheduler /\
  default ∅ (backupSchedules (snd second)) !! "atlas-shop" = None /\
  unscheduleBackup obliging_host "atlas-shop" (snd second) =
    (Ok false, snd second).
Proof.
  intros first second.
  assert (Hrun : first = (Ok "atlas-shop", snd first)) by reflexivity.
  assert (Hundo : second = (Ok true, snd second)) by reflexivity.
  split; [exact Hrun|]. split; [exact Hundo|].
  destruct (unscheduleBackup_undoes_scheduleBackup obliging_host "atlas" "shop"
              "0 2 * * *" {| compress := true |} empty_scheduler "atlas-shop"
              (snd first) (Ok true) (snd second) Hrun Hundo)
    as (Htable & _ & Hsetting & _ & Hagain).
  split; [exact Htable|]. split; [exact Hsetting | exact Hagain].
Defined.

Lemma jobId_is_shared_by_pairs_witness :
  let first :=
    scheduleBackup obliging_host ("eu" +:+ "-" +:+ "west") "shop" "0 2 * * *"
      {| compress := true |} empty_scheduler in
  first = (Ok "eu-west-shop", snd first) /\
  (exists entry,
     scheduledJobs (snd first) !! jobId_of "eu" ("west" +:+ "-" +:+ "shop") =
       Some entry /\
     se_cluster entry = "eu" +:+ "-" +:+ "west" /\
     se_database entry = "shop") /\
  exists e s2,
    scheduleBackup obliging_host "eu" ("west" +:+ "-" +:+ "shop") "0 3 * * *"
      {| compress := false |} (snd first) = (Throw e, s2).
Proof.
  intros first.
  assert (Hrun : first = (Ok "eu-west-shop", snd first)) by reflexivity.
  split; [exact Hrun|].
  destruct (jobId_is_shared_by_pairs obliging_host "eu" "west" "shop"
              "0 2 * * *" {| compress := true |} empty_scheduler "eu-west-shop"
              (snd first) Hrun) as (_ & Hentry & Hagain & _).
  split; [exact Hentry | exact (Hagain "0 3 * * *" {| compress := false |})].
Defined.

(** ** Startup *)

Section StartupGuarantees.

Variable SH : SchedulerHost.
Variable entries_of :
  gmap string PersistedSchedule -> list (string * PersistedSchedule).

(** One iteration of the loop of [loadScheduledBackups] returns, and what it
    does to the table and to the tasks. *)
Lemma load_schedule_step entry s :
  exists s',
    load_schedule SH tt entry s = (Ok tt, s') /\
    (forall jobId,
       is_Some (scheduledJobs s' !! jobId) <->
       is_Some (scheduledJobs s !! jobId) \/
       (jobId = jobId_of (ps_cluster (snd entry)) (ps_database (snd entry)) /\
        cron_validate SH (ps_pattern (snd entry)) = Ok tt)) /\
    (forall jobId e,
       scheduledJobs s !! jobId = Some e -> scheduledJobs s' !! jobId = Some e) /\
    (exists new,
       tasks s' = tasks s ++ new /\
       Forall (fun task => ct_running task = true) new).
Proof.
  unfold load_schedule, try_catch, bind.
  destruct (scheduledJobs s !!
              jobId_of (ps_cluster (snd entry)) (ps_database (snd entry)))
    as [existing|] eqn:Hentry.
  - rewrite (scheduleBackup_existing_throws SH _ _ _ _ _ _ Hentry).
    eexists. split; [reflexivity|].
    cbn [journal_log scheduledJobs tasks]. split; [|split].
    + intros jobId. split; [now left|].
      intros [Hsome | [-> _]]; [exact Hsome | now rewrite Hentry].
    + auto.
    + exists []. split; [now rewrite app_nil_r | constructor].
  - rewrite (scheduleBackup_fresh SH _ _ _ _ _ Hentry).
    destruct (cron_validate SH (ps_pattern (snd entry))) as [[]|e].
    + cbn zeta.
      assert (Htable : forall jobId,
        is_Some
          (<[jobId_of (ps_cluster (snd entry)) (ps_database (snd entry)) :=
               entry_for SH (ps_cluster (snd entry)) (ps_database (snd entry))
                 (ps_pattern (snd entry)) (ps_options (snd entry)) s]>
             (scheduledJobs s) !! jobId) <->
        is_Some (scheduledJobs s !! jobId) \/
        (jobId = jobId_of (ps_cluster (snd entry)) (ps_database (snd entry)) /\
         Ok tt = Ok tt :> Result unit)).
      { intros jobId. rewrite lookup_insert_is_Some. split.
        - intros [<- | [_ Hsome]]; [right; split; reflexivity | now left].
        - intros [Hsome | [-> _]]; [|now left].
          destruct (decide
            (jobId_of (ps_cluster (snd entry)) (ps_database (snd entry)) = jobId))
            as [Heq | Hne]; [now left | now right]. }
      assert (Hkept : forall jobId e,
        scheduledJobs s !! jobId = Some e ->
        <[jobId_of (ps_cluster (snd entry)) (ps_database (snd entry)) :=
            entry_for SH (ps_cluster (snd entry)) (ps_database (snd entry))
              (ps_pattern (snd entry)) (ps_options (snd entry)) s]>
          (scheduledJobs s) !! jobId = Some e).
      { intros jobId e Hsome. rewrite lookup_insert_ne; [exact Hsome|].
        intros <-. rewrite Hentry in Hsome. discriminate. }
      destruct (config_save SH _) as [[]|e];
        (eexists; split; [reflexivity|]);
        cbn [journal_log with_journal saved installed scheduledJobs tasks];
        (split; [exact Htable|]); (split; [exact Hkept|]);
        eexists; (split; [reflexivity|]);
        repeat constructor.
    + eexists. split; [reflexivity|].
      cbn [journal_log with_journal scheduledJobs tasks]. split; [|split].
      * intros jobId. split; [now left|].
        intros [Hsome | [_ Hok]]; [exact Hsome | discriminate].
      * auto.
      * exists []. split; [now rewrite app_nil_r | constructor].
Qed.

(** The loop of [loadScheduledBackups] over any list of entries. *)
Lemma load_loop entries : forall s,
  exists s',
    for_of entries (load_schedule SH) tt s = (Ok tt, s') /\
    (forall jobId,
       is_Some (scheduledJobs s' !! jobId) <->
       is_Some (scheduledJobs s !! jobId) \/
       exists key schedule,
         In (key, schedule) entries /\
         jobId = jobId_of (ps_cluster schedule) (ps_database schedule) /\
         cron_validate SH (ps_pattern schedule) = Ok tt) /\
    (forall jobId e,
       scheduledJobs s !! jobId = Some e -> scheduledJobs s' !! jobId = Some e) /\
    (exists new,
       tasks s' = tasks s ++ new /\
       Forall (fun task => ct_running task = true) new).
Proof.
  induction entries as [|entry rest IH]; intros s.
  - exists s. split; [reflexivity|]. split; [|split].
    + intros jobId. split; [now left|].
      intros [Hsome | (key & schedule & [] & _)]. exact Hsome.
    + auto.
    + exists []. split; [now rewrite app_nil_r | constructor].
  - destruct (load_schedule_step entry s)
      as (s1 & Hstep & Htable1 & Hkept1 & new1 & Htasks1 & Hrunning1).
    destruct (IH s1)
      as (s' & Hrest & Htable & Hkept & new & Htasks & Hrunning).
    exists s'. split; [|split; [|split]].
    + cbn [for_of]. unfold bind. rewrite Hstep.
      destruct (for_of rest (load_schedule SH) tt s1) as [r w] eqn:Hloop.
      now injection Hrest as -> ->.
    + intros jobId. rewrite Htable, Htable1. split.
      * intros [[Hsome | [-> Hok]] | (key & schedule & Hin & Hid & Hok)].
        -- now left.
        -- right. exists (fst entry), (snd entry).
           split; [left; now destruct entry | now split].
        -- right. exists key, schedule. split; [now right | now split].
      * intros [Hsome | (key & schedule & [-> | Hin] & Hid & Hok)].
        -- left. now left.
        -- left. right. now split.
        -- right. exists key, schedule. now split.
    + intros jobId e Hsome. now apply Hkept, Hkept1.
    + exists (new1 ++ new). split.
      * now rewrite Htasks, Htasks1, app_assoc.
      * now apply Forall_app.
Qed.

(** X23.  [loadScheduledBackups] never rejects.  When it has returned, the
    table has an entry for an id exactly if it had one before or if some
    persisted schedule whose pattern node-cron accepts has that id, whether
    or not the configuration could be saved; the entries that existed are
    kept, and the tasks are those that existed followed by new ones that are
    all running. *)
Theorem loadScheduledBackups_installs_the_valid_schedules s :
  exists s',
    loadScheduledBackups SH entries_of s = (Ok tt, s') /\
    (forall jobId,
       is_Some (scheduledJobs s' !! jobId) <->
       is_Some (scheduledJobs s !! jobId) \/
       exists key schedule,
         In (key, schedule) (entries_of (default ∅ (backupSchedules s))) /\
         jobId = ps_cluster schedule +:+ "-" +:+ ps_database schedule /\
         cron_validate SH (ps_pattern schedule) = Ok tt) /\
    (forall jobId e,
       scheduledJobs s !! jobId = Some e -> scheduledJobs s' !! jobId = Some e) /\
    (exists new,
       tasks s' = tasks s ++ new /\
       Forall (fun task => ct_running task = true) new).
Proof.
  unfold loadScheduledBackups, bind.
  exact (load_loop (entries_of (default ∅ (backupSchedules s))) s).
Qed.

End StartupGuarantees.

(** At a restart with the three persisted schedules, the two valid ones are
    installed and the one with the rejected pattern is only logged. *)
Example loadScheduledBackups_at_restart :
  let after :=
    loadScheduledBackups strict_host (fun _ => persisted_entries)
      restarted_scheduler in
  fst after = Ok tt /\
  is_Some (scheduledJobs (snd after) !! "atlas-shop") /\
  is_Some (scheduledJobs (snd after) !! "atlas-logs") /\
  scheduledJobs (snd after) !! "local-test" = None /\
  In (Error, "Failed to load scheduled backup local-test:")
    (journal (snd after)) /\
  saves (snd after) = 2%nat.
Proof.
  vm_compute. repeat split; eauto.
Qed.
